(** * Pixel refresh engine of the blinkcore (src/cores/blinkcore/pixel.cpp)

    A shallow embedding of the pixel driver: the colour store written by
    [pixel_setRGB], the five-phase interrupt handler [pixel_isr] that
    multiplexes the six anodes and sequences the blue charge pump, and the
    lifecycle entry points [pixel_enable] / [pixel_disable].  The handler
    and the lifecycle of the earlier revision of the file
    (src/unnamed/part_000) are embedded in the module [Rev0].

    Bytes ([uint8_t]) are integers of [Z] with the wrap-around written out
    ([u8]); the three [rawValue] arrays are lists indexed with stdpp's
    lookup and insert, an access outside the array being a fault of the
    model; the memory-mapped registers and port lines are a record, and
    every write to them is also logged as an event, so that the order of
    the writes inside one handler invocation can be stated. *)

From Stdlib Require Import ZArith List Lia Bool.
From stdpp Require Import base list.
Import ListNotations.
Local Open Scope Z_scope.

(** ** Bytes *)

(** Conversion of an [int] expression to [uint8_t]. *)
Definition u8 (x : Z) : Z := x mod 256.

(** A value a [uint8_t] can hold. *)
Definition is_byte (x : Z) : Prop := 0 <= x < 256.

(** [_BV(bit)] of avr-libc: the mask with only [bit] set. *)
Definition _BV (bit : Z) : Z := Z.shiftl 1 bit.

(** ** Port lines and registers *)

(** The digital lines the driver touches: the six anode drivers, the three
    cathode timer pins and the sink of the blue charge pump. *)
Inductive pin : Type :=
| PIXEL1 | PIXEL2 | PIXEL3 | PIXEL4 | PIXEL5 | PIXEL6
| LED_R | LED_G | LED_B
| BLUE_SINK.

(** One bit per line; used for the PORT (output level) and for the DDR
    (direction) bits. *)
Record pins : Type := mkPins {
  b_PIXEL1 : bool; b_PIXEL2 : bool; b_PIXEL3 : bool;
  b_PIXEL4 : bool; b_PIXEL5 : bool; b_PIXEL6 : bool;
  b_LED_R : bool; b_LED_G : bool; b_LED_B : bool;
  b_BLUE_SINK : bool
}.

Definition get_pin (p : pin) (s : pins) : bool :=
  match p with
  | PIXEL1 => b_PIXEL1 s | PIXEL2 => b_PIXEL2 s | PIXEL3 => b_PIXEL3 s
  | PIXEL4 => b_PIXEL4 s | PIXEL5 => b_PIXEL5 s | PIXEL6 => b_PIXEL6 s
  | LED_R => b_LED_R s | LED_G => b_LED_G s | LED_B => b_LED_B s
  | BLUE_SINK => b_BLUE_SINK s
  end.

Definition set_pin (p : pin) (v : bool) (s : pins) : pins :=
  let '(mkPins p1 p2 p3 p4 p5 p6 r g b k) := s in
  match p with
  | PIXEL1 => mkPins v p2 p3 p4 p5 p6 r g b k
  | PIXEL2 => mkPins p1 v p3 p4 p5 p6 r g b k
  | PIXEL3 => mkPins p1 p2 v p4 p5 p6 r g b k
  | PIXEL4 => mkPins p1 p2 p3 v p5 p6 r g b k
  | PIXEL5 => mkPins p1 p2 p3 p4 v p6 r g b k
  | PIXEL6 => mkPins p1 p2 p3 p4 p5 v r g b k
  | LED_R => mkPins p1 p2 p3 p4 p5 p6 v g b k
  | LED_G => mkPins p1 p2 p3 p4 p5 p6 r v b k
  | LED_B => mkPins p1 p2 p3 p4 p5 p6 r g v k
  | BLUE_SINK => mkPins p1 p2 p3 p4 p5 p6 r g b v
  end.

Definition all_low : pins :=
  mkPins false false false false false false false false false false.

(** The timer registers the driver programs. *)
Inductive reg : Type :=
| OCR0A | OCR0B | OCR2B
| TCNT0 | TCNT2
| TCCR0A | TCCR0B | TCCR2A | TCCR2B
| TIMSK0.

Record regs : Type := mkRegs {
  r_OCR0A : Z; r_OCR0B : Z; r_OCR2B : Z;
  r_TCNT0 : Z; r_TCNT2 : Z;
  r_TCCR0A : Z; r_TCCR0B : Z; r_TCCR2A : Z; r_TCCR2B : Z;
  r_TIMSK0 : Z
}.

Definition get_reg (r : reg) (s : regs) : Z :=
  match r with
  | OCR0A => r_OCR0A s | OCR0B => r_OCR0B s | OCR2B => r_OCR2B s
  | TCNT0 => r_TCNT0 s | TCNT2 => r_TCNT2 s
  | TCCR0A => r_TCCR0A s | TCCR0B => r_TCCR0B s
  | TCCR2A => r_TCCR2A s | TCCR2B => r_TCCR2B s
  | TIMSK0 => r_TIMSK0 s
  end.

Definition set_reg (r : reg) (v : Z) (s : regs) : regs :=
  let '(mkRegs a b c d e f g h i j) := s in
  match r with
  | OCR0A => mkRegs v b c d e f g h i j
  | OCR0B => mkRegs a v c d e f g h i j
  | OCR2B => mkRegs a b v d e f g h i j
  | TCNT0 => mkRegs a b c v e f g h i j
  | TCNT2 => mkRegs a b c d v f g h i j
  | TCCR0A => mkRegs a b c d e v g h i j
  | TCCR0B => mkRegs a b c d e f v h i j
  | TCCR2A => mkRegs a b c d e f g v i j
  | TCCR2B => mkRegs a b c d e f g h v j
  | TIMSK0 => mkRegs a b c d e f g h i v
  end.

Definition all_zero : regs := mkRegs 0 0 0 0 0 0 0 0 0 0.

(** Bit positions inside the timer registers, as the device header
    <avr/io.h> gives them for the ATmega88/168/328 family.  They are not
    part of this repository; no result below depends on their values. *)
Module Avr.
Definition WGM00 : Z := 0.
Definition WGM01 : Z := 1.
Definition COM0B1 : Z := 5.
Definition COM0A1 : Z := 7.
Definition CS01 : Z := 1.
Definition FOC0B : Z := 6.
Definition FOC0A : Z := 7.
Definition COM2B1 : Z := 5.
Definition CS21 : Z := 1.
Definition FOC2B : Z := 6.
Definition TOIE0 : Z := 0.
End Avr.

(** The hardware the driver sees: output levels, directions, registers. *)
Record hardware : Type := mkHw {
  PORT : pins;
  DDR : pins;
  REGS : regs
}.

(** ** Events: the writes of the driver, in program order *)

Inductive event : Type :=
| EvSei                              (* sei() *)
| EvPort (p : pin) (v : bool)        (* SBI / CBI on a PORT bit *)
| EvDdr (p : pin) (v : bool)         (* SBI / CBI on a DDR bit *)
| EvReg (r : reg) (v : Z)            (* a register receives [v] *)
| EvFrameCallback.                   (* the frame callback is invoked *)

(** The effect of one event on the hardware. *)
Definition hw_step (h : hardware) (e : event) : hardware :=
  match e with
  | EvSei => h
  | EvPort p v => mkHw (set_pin p v (PORT h)) (DDR h) (REGS h)
  | EvDdr p v => mkHw (PORT h) (set_pin p v (DDR h)) (REGS h)
  | EvReg r v => mkHw (PORT h) (DDR h) (set_reg r v (REGS h))
  | EvFrameCallback => h
  end.

(** The hardware states passed through while the events of [tr] happen,
    one per event, the last one being the final state. *)
Fixpoint replay (h : hardware) (tr : list event) : list hardware :=
  match tr with
  | [] => []
  | e :: tr' => hw_step h e :: replay (hw_step h e) tr'
  end.

(** ** The state of the driver *)

(** Modelled from the spec: [PIXEL_COUNT] is defined in hardware.h, which is
    not among the sources; the spec gives N = 6 pixels, which is also the
    number of [PIXELn] lines and of cases of [activateAnode]. *)
Definition PIXEL_COUNT : Z := 6.

Record machine : Type := mkMachine {
  rawValueR : list Z;
  rawValueG : list Z;
  rawValueB : list Z;
  currentPixel : Z;
  phase : Z;
  hw : hardware
}.

(** The arrays have [PIXEL_COUNT] entries, each a byte. *)
Definition wf_array (l : list Z) : Prop :=
  Z.of_nat (length l) = PIXEL_COUNT /\ Forall is_byte l.

Definition wf_store (m : machine) : Prop :=
  wf_array (rawValueR m) /\ wf_array (rawValueG m) /\ wf_array (rawValueB m).

(** ** The monad of driver code: state, event log, fault *)

(** A computation runs on a machine and either faults (an array access out
    of bounds) or yields a result, the new machine and the events it
    produced, oldest first. *)
Definition M (A : Type) : Type := machine -> option (A * machine * list event).

Definition ret {A} (a : A) : M A := fun m => Some (a, m, []).

Definition bind {A B} (c : M A) (k : A -> M B) : M B :=
  fun m =>
    match c m with
    | None => None
    | Some (a, m1, t1) =>
        match k a m1 with
        | None => None
        | Some (b, m2, t2) => Some (b, m2, t1 ++ t2)
        end
    end.

Declare Scope drv_scope.
Delimit Scope drv_scope with drv.
Notation "x <- c ; k" := (bind c (fun x => k))
  (at level 100, c at next level, right associativity,
   only parsing) : drv_scope.
Notation "c ;; k" := (bind c (fun _ => k))
  (at level 100, k at level 200, right associativity,
   only parsing) : drv_scope.
Local Open Scope drv_scope.

Definition fault {A} : M A := fun _ => None.

(** Emit one event: the hardware takes the step and the event is logged. *)
Definition emit (e : event) : M unit :=
  fun m =>
    Some (tt,
          mkMachine (rawValueR m) (rawValueG m) (rawValueB m)
                    (currentPixel m) (phase m) (hw_step (hw m) e),
          [e]).

Definition get_hw : M hardware := fun m => Some (hw m, m, []).
Definition get_phase : M Z := fun m => Some (phase m, m, []).
Definition get_currentPixel : M Z := fun m => Some (currentPixel m, m, []).

Definition set_phase (v : Z) : M unit :=
  fun m =>
    Some (tt,
          mkMachine (rawValueR m) (rawValueG m) (rawValueB m)
                    (currentPixel m) v (hw m),
          []).

Definition set_currentPixel (v : Z) : M unit :=
  fun m =>
    Some (tt,
          mkMachine (rawValueR m) (rawValueG m) (rawValueB m)
                    v (phase m) (hw m),
          []).

(** The final machine and the events of a run, when it does not fault. *)
Definition exec {A} (c : M A) (m : machine) : option machine :=
  match c m with
  | Some (_, m', _) => Some m'
  | None => None
  end.

Definition events {A} (c : M A) (m : machine) : list event :=
  match c m with
  | Some (_, _, tr) => tr
  | None => []
  end.

(** ** Access to the arrays *)

(** [a[i]] read: a fault outside the array. *)
Definition read_at (a : list Z) (i : Z) : option Z :=
  if 0 <=? i then a !! Z.to_nat i else None.

(** [a[i] = v]: a fault outside the array. *)
Definition write_at (a : list Z) (i v : Z) : option (list Z) :=
  if (0 <=? i) && (i <? Z.of_nat (length a))
  then Some (<[Z.to_nat i := v]> a)
  else None.

Definition read_rawValueR (i : Z) : M Z :=
  fun m => match read_at (rawValueR m) i with
           | Some v => Some (v, m, [])
           | None => None
           end.

Definition read_rawValueG (i : Z) : M Z :=
  fun m => match read_at (rawValueG m) i with
           | Some v => Some (v, m, [])
           | None => None
           end.

Definition read_rawValueB (i : Z) : M Z :=
  fun m => match read_at (rawValueB m) i with
           | Some v => Some (v, m, [])
           | None => None
           end.

Definition write_rawValueR (i v : Z) : M unit :=
  fun m => match write_at (rawValueR m) i v with
           | Some a => Some (tt, mkMachine a (rawValueG m) (rawValueB m)
                                           (currentPixel m) (phase m) (hw m), [])
           | None => None
           end.

Definition write_rawValueG (i v : Z) : M unit :=
  fun m => match write_at (rawValueG m) i v with
           | Some a => Some (tt, mkMachine (rawValueR m) a (rawValueB m)
                                           (currentPixel m) (phase m) (hw m), [])
           | None => None
           end.

Definition write_rawValueB (i v : Z) : M unit :=
  fun m => match write_at (rawValueB m) i v with
           | Some a => Some (tt, mkMachine (rawValueR m) (rawValueG m) a
                                           (currentPixel m) (phase m) (hw m), [])
           | None => None
           end.

(** ** Register and port primitives (the SBI / CBI macros of utils.h) *)

Definition SBI (p : pin) : M unit := emit (EvPort p true).
Definition CBI (p : pin) : M unit := emit (EvPort p false).
Definition SBI_DDR (p : pin) : M unit := emit (EvDdr p true).

(** [reg = v]. *)
Definition assign (r : reg) (v : Z) : M unit := emit (EvReg r (u8 v)).

(** [SBI(reg, bit)] on a timer register: read, or in the bit, write back. *)
Definition SBI_reg (r : reg) (bit : Z) : M unit :=
  h <- get_hw;
  assign r (Z.lor (get_reg r (REGS h)) (_BV bit)).

(** ** The driver *)

Definition setupPixelPins : M unit :=
  SBI_DDR PIXEL1;;
  SBI_DDR PIXEL2;;
  SBI_DDR PIXEL3;;
  SBI_DDR PIXEL4;;
  SBI_DDR PIXEL5;;
  SBI_DDR PIXEL6;;
  SBI LED_R;;
  SBI LED_G;;
  SBI LED_B;;
  SBI_DDR LED_R;;
  SBI_DDR LED_G;;
  SBI_DDR LED_B;;
  SBI BLUE_SINK;;
  SBI_DDR BLUE_SINK.

Definition pixelTimersOn : M unit :=
  assign OCR0A 255;;
  assign OCR0B 255;;
  assign TCNT0 0;;
  SBI_reg TCCR0B Avr.FOC0A;;
  SBI_reg TCCR0B Avr.FOC0B;;
  assign TCCR0A
    (Z.lor (Z.lor (Z.lor (_BV Avr.WGM00) (_BV Avr.WGM01)) (_BV Avr.COM0A1))
           (_BV Avr.COM0B1));;
  assign TCCR2A
    (Z.lor (Z.lor (_BV Avr.COM2B1) (_BV Avr.WGM01)) (_BV Avr.WGM00));;
  assign OCR2B 255;;
  assign TCNT2 0;;
  SBI_reg TCCR2B Avr.FOC2B;;
  assign TCCR0B (_BV Avr.CS01);;
  assign TCCR2B (_BV Avr.CS21).

Definition setupTimers : M unit :=
  assign TIMSK0 (_BV Avr.TOIE0).

Definition pixel_init : M unit :=
  setupPixelPins;;
  setupTimers.

(** The [switch] has the six cases 0..5 and no default. *)
Definition activateAnode (line : Z) : M unit :=
  match line with
  | 0 => SBI PIXEL1
  | 1 => SBI PIXEL2
  | 2 => SBI PIXEL3
  | 3 => SBI PIXEL4
  | 4 => SBI PIXEL5
  | 5 => SBI PIXEL6
  | _ => ret tt
  end.

Definition deactivateAnodes : M unit :=
  CBI PIXEL1;;
  CBI PIXEL2;;
  CBI PIXEL3;;
  CBI PIXEL4;;
  CBI PIXEL5;;
  CBI PIXEL6.

(** Modelled from the spec: [CALLBACK_BASE<T>::invokeCallback] is declared in
    callbacks.h, which is not among the sources.  With fault-free timing
    (no invocation still running when the next one is requested) one call
    runs the hook [pixel_callback_onFrame] exactly once; the run of the
    hook is the event [EvFrameCallback]. *)
Definition invokeCallback : M unit := emit EvFrameCallback.

Definition sei : M unit := emit EvSei.

(** The handler of the Timer0 overflow interrupt. *)
Definition pixel_isr : M unit :=
  sei;;
  ph <- get_phase;
  match ph with
  | 0 =>
      deactivateAnodes;;
      cur <- get_currentPixel;
      set_currentPixel (u8 (cur + 1));;
      cur <- get_currentPixel;
      (if cur =? PIXEL_COUNT then set_currentPixel 0 else ret tt);;
      cur <- get_currentPixel;
      blue <- read_rawValueB cur;
      (if negb (blue =? 255) then CBI BLUE_SINK else ret tt);;
      ph <- get_phase;
      set_phase (u8 (ph + 1))
  | 1 =>
      SBI BLUE_SINK;;
      cur <- get_currentPixel;
      activateAnode cur;;
      blue <- read_rawValueB cur;
      assign OCR2B blue;;
      ph <- get_phase;
      set_phase (u8 (ph + 1))
  | 2 =>
      assign OCR2B 255;;
      cur <- get_currentPixel;
      red <- read_rawValueR cur;
      assign OCR0A red;;
      ph <- get_phase;
      set_phase (u8 (ph + 1))
  | 3 =>
      assign OCR0A 255;;
      cur <- get_currentPixel;
      green <- read_rawValueG cur;
      assign OCR0B green;;
      ph <- get_phase;
      set_phase (u8 (ph + 1))
  | 4 =>
      assign OCR0B 255;;
      set_phase 0;;
      invokeCallback
  | _ => ret tt
  end.

Definition pixelTimerOff : M unit :=
  assign TCCR0B 0;;
  deactivateAnodes;;
  SBI BLUE_SINK;;
  assign TCCR2B 0;;
  assign TCCR0A 0;;
  assign TCCR2A 0.

Definition pixel_disable : M unit :=
  pixelTimerOff.

Definition gamma8 : list Z :=
  [ 0;  0;  0;  0;  0;  0;  0;  0;  0;  0;  0;  0;  0;  0;  0;  0;
    0;  0;  0;  0;  0;  0;  0;  0;  0;  0;  0;  0;  1;  1;  1;  1;
    1;  1;  1;  1;  1;  1;  1;  1;  1;  2;  2;  2;  2;  2;  2;  2;
    2;  3;  3;  3;  3;  3;  3;  3;  4;  4;  4;  4;  4;  5;  5;  5;
    5;  6;  6;  6;  6;  7;  7;  7;  7;  8;  8;  8;  9;  9;  9; 10;
    10; 10; 11; 11; 11; 12; 12; 13; 13; 13; 14; 14; 15; 15; 16; 16;
    17; 17; 18; 18; 19; 19; 20; 20; 21; 21; 22; 22; 23; 24; 24; 25;
    25; 26; 27; 27; 28; 29; 29; 30; 31; 32; 32; 33; 34; 35; 35; 36;
    37; 38; 39; 39; 40; 41; 42; 43; 44; 45; 46; 47; 48; 49; 50; 50;
    51; 52; 54; 55; 56; 57; 58; 59; 60; 61; 62; 63; 64; 66; 67; 68;
    69; 70; 72; 73; 74; 75; 77; 78; 79; 81; 82; 83; 85; 86; 87; 89;
    90; 92; 93; 95; 96; 98; 99;101;102;104;105;107;109;110;112;114;
    115;117;119;120;122;124;126;127;129;131;133;135;137;138;140;142;
    144;146;148;150;152;154;156;158;160;162;164;167;169;171;173;175;
    177;180;182;184;186;189;191;193;196;198;200;203;205;208;210;213;
    215;218;220;223;225;228;231;233;236;239;241;244;247;249;252;255 ].

(** [pgm_read_byte(&gamma8[i])]. *)
Definition pgm_read_gamma8 (i : Z) : M Z :=
  fun m => match read_at gamma8 i with
           | Some v => Some (v, m, [])
           | None => None
           end.

Definition pixel_setRGB (p r g b : Z) : M unit :=
  gr <- pgm_read_gamma8 r;
  write_rawValueR p (u8 (255 - gr ÷ 3));;
  gg <- pgm_read_gamma8 g;
  write_rawValueG p (u8 (255 - gg ÷ 2));;
  gb <- pgm_read_gamma8 b;
  write_rawValueB p (u8 (255 - gb ÷ 2)).

(** Run [body] for each index of [l], in order. *)
Fixpoint for_each (l : list Z) (body : Z -> M unit) : M unit :=
  match l with
  | [] => ret tt
  | i :: l' => body i;; for_each l' body
  end.

(** Modelled from the spec: the loop macro [FOREACH_FACE(i)] comes from a
    header that is not among the sources; the spec has the all-pixels setter
    apply the single-pixel one to every pixel, index 0 to N-1. *)
Definition FOREACH_FACE (body : Z -> M unit) : M unit :=
  for_each (map Z.of_nat (seq 0 (Z.to_nat PIXEL_COUNT))) body.

Definition pixel_SetAllRGB (r g b : Z) : M unit :=
  FOREACH_FACE (fun i => pixel_setRGB i r g b).

Definition pixel_enable : M unit :=
  pixel_SetAllRGB 0 0 0;;
  pixelTimersOn.

(** ** Start-up *)

(** The machine at reset: statics zeroed, every line low and an input,
    registers cleared. *)
Definition reset : machine :=
  mkMachine (repeat 0 (Z.to_nat PIXEL_COUNT)) (repeat 0 (Z.to_nat PIXEL_COUNT))
            (repeat 0 (Z.to_nat PIXEL_COUNT)) 0 0
            (mkHw all_low all_low all_zero).

Global Arguments read_at : simpl never.
Global Arguments write_at : simpl never.

(** [n] consecutive Timer0 overflow interrupts. *)
Fixpoint interrupts (n : nat) : M unit :=
  match n with
  | O => ret tt
  | S n' => pixel_isr;; interrupts n'
  end.

(** The machine once [pixel_init] and [pixel_enable] have run after reset. *)
Definition booted : machine :=
  default reset (exec (pixel_init;; pixel_enable) reset).

(** ** Vocabulary of the properties *)

(** The sequencer variables are in range. *)
Definition sequencer_ok (m : machine) : Prop :=
  0 <= currentPixel m < PIXEL_COUNT /\ 0 <= phase m < 5.

(** The pixel the phase-0 handler steps to. *)
Definition next_pixel (cur : Z) : Z :=
  if cur + 1 =? PIXEL_COUNT then 0 else cur + 1.

(** The anode line [activateAnode] raises for a pixel index. *)
Definition anode_line (cur : Z) : option pin :=
  match cur with
  | 0 => Some PIXEL1 | 1 => Some PIXEL2 | 2 => Some PIXEL3
  | 3 => Some PIXEL4 | 4 => Some PIXEL5 | 5 => Some PIXEL6
  | _ => None
  end.

Definition is_anode (p : pin) : bool :=
  match p with
  | PIXEL1 | PIXEL2 | PIXEL3 | PIXEL4 | PIXEL5 | PIXEL6 => true
  | _ => false
  end.

(** Some anode line is driven high. *)
Definition any_anode (h : hardware) : bool :=
  b_PIXEL1 (PORT h) || b_PIXEL2 (PORT h) || b_PIXEL3 (PORT h) ||
  b_PIXEL4 (PORT h) || b_PIXEL5 (PORT h) || b_PIXEL6 (PORT h).

(** The pump is charging while its sink is pulled low; the sink high is the
    idle level. *)
Definition charging (h : hardware) : bool := negb (b_BLUE_SINK (PORT h)).

(** The pump does not charge while an anode is active. *)
Definition safe (h : hardware) : Prop :=
  charging h = true -> any_anode h = false.

(** The events of the phase-0 handler that switch every anode off. *)
Definition anodes_off : list event :=
  [EvPort PIXEL1 false; EvPort PIXEL2 false; EvPort PIXEL3 false;
   EvPort PIXEL4 false; EvPort PIXEL5 false; EvPort PIXEL6 false].

(** Number of runs of the frame callback in a log. *)
Fixpoint frame_callbacks (tr : list event) : nat :=
  match tr with
  | [] => O
  | EvFrameCallback :: tr' => S (frame_callbacks tr')
  | _ :: tr' => frame_callbacks tr'
  end.

(** The table value for an intensity ([0] outside the table, which no byte
    reaches). *)
Definition gamma (v : Z) : Z := default 0 (read_at gamma8 v).

(** The (pixel, phase) pairs the first [n] interrupts work on: the phase the
    handler finds on entry, and the pixel it drives in that phase. *)
Fixpoint visited (n : nat) (m : machine) : list (Z * Z) :=
  match n with
  | O => []
  | S n' =>
      match exec pixel_isr m with
      | Some m' => (currentPixel m', phase m) :: visited n' m'
      | None => []
      end
  end.

(** The sequencer states (pixel, phase) found on entry by the first [n]
    interrupts. *)
Fixpoint entry_states (n : nat) (m : machine) : list (Z * Z) :=
  match n with
  | O => []
  | S n' =>
      (currentPixel m, phase m) ::
      match exec pixel_isr m with
      | Some m' => entry_states n' m'
      | None => []
      end
  end.

(** The entry points of the driver, as the foreground or the timer may call
    them. *)
Inductive op : Type :=
| OpInit
| OpIsr
| OpSetRGB (p r g b : Z)
| OpSetAllRGB (r g b : Z)
| OpEnable
| OpDisable.

Definition run_op (o : op) : M unit :=
  match o with
  | OpInit => pixel_init
  | OpIsr => pixel_isr
  | OpSetRGB p r g b => pixel_setRGB p r g b
  | OpSetAllRGB r g b => pixel_SetAllRGB r g b
  | OpEnable => pixel_enable
  | OpDisable => pixel_disable
  end.

(** The machines the driver can be in: from reset, after any sequence of
    calls and interrupts that do not fault. *)
Inductive reachable : machine -> Prop :=
| reach_reset : reachable reset
| reach_step (m m' : machine) (o : op) (tr : list event) :
    reachable m -> run_op o m = Some (tt, m', tr) -> reachable m'.

(** A condition [P] holds of every event of a log, in the hardware state the
    event finds. *)
Fixpoint respects (P : hardware -> event -> Prop) (h : hardware)
         (tr : list event) : Prop :=
  match tr with
  | [] => True
  | e :: tr' => P h e /\ respects P (hw_step h e) tr'
  end.

(** What the charge-pump handshake asks of an event: the sink is pulled low
    only with every anode off, and an anode is raised only with the sink
    high. *)
Definition handshake (h : hardware) (e : event) : Prop :=
  match e with
  | EvPort BLUE_SINK false => any_anode h = false
  | EvPort p true => is_anode p = true -> charging h = false
  | _ => True
  end.

(** ** Closed forms used by the lemmas *)

(** A list of integers is in non-decreasing order. *)
Fixpoint sortedb (l : list Z) : bool :=
  match l with
  | [] => true
  | x :: l' =>
      match l' with
      | [] => true
      | y :: _ => (x <=? y) && sortedb l'
      end
  end.

(** An event that leaves the port levels alone. *)
Definition port_neutral (e : event) : Prop :=
  match e with
  | EvPort _ _ => False
  | _ => True
  end.

(** The registers once [pixelTimersOn] has run: the three compare values
    off, counters at 0, both timers in fast PWM with the clock on.  The
    interrupt mask is not touched. *)
Definition timers_on (old : regs) : regs :=
  mkRegs 255 255 255 0 0 163 2 35 2 (r_TIMSK0 old).

(** The register writes of [pixelTimersOn], in program order. *)
Definition timers_on_events (old : regs) : list event :=
  let foc0a := u8 (Z.lor (r_TCCR0B old) (_BV Avr.FOC0A)) in
  [EvReg OCR0A 255; EvReg OCR0B 255; EvReg TCNT0 0;
   EvReg TCCR0B foc0a;
   EvReg TCCR0B (u8 (Z.lor foc0a (_BV Avr.FOC0B)));
   EvReg TCCR0A 163; EvReg TCCR2A 35; EvReg OCR2B 255; EvReg TCNT2 0;
   EvReg TCCR2B (u8 (Z.lor (r_TCCR2B old) (_BV Avr.FOC2B)));
   EvReg TCCR0B 2; EvReg TCCR2B 2].

(** The port levels once [pixelTimerOff] has run: anodes low, sink high. *)
Definition ports_off (old : pins) : pins :=
  mkPins false false false false false false
         (b_LED_R old) (b_LED_G old) (b_LED_B old) true.

Definition timers_off (old : regs) : regs :=
  mkRegs (r_OCR0A old) (r_OCR0B old) (r_OCR2B old) (r_TCNT0 old) (r_TCNT2 old)
         0 0 0 0 (r_TIMSK0 old).

(** The writes of [pixelTimerOff], in program order. *)
Definition timers_off_events : list event :=
  EvReg TCCR0B 0 :: anodes_off ++
  [EvPort BLUE_SINK true; EvReg TCCR2B 0; EvReg TCCR0A 0; EvReg TCCR2A 0].

(** The writes of [pixel_init], in program order. *)
Definition init_events : list event :=
  [EvDdr PIXEL1 true; EvDdr PIXEL2 true; EvDdr PIXEL3 true;
   EvDdr PIXEL4 true; EvDdr PIXEL5 true; EvDdr PIXEL6 true;
   EvPort LED_R true; EvPort LED_G true; EvPort LED_B true;
   EvDdr LED_R true; EvDdr LED_G true; EvDdr LED_B true;
   EvPort BLUE_SINK true; EvDdr BLUE_SINK true;
   EvReg TIMSK0 1].


(** A sequence of calls and interrupts, in order. *)
Fixpoint run_ops (l : list op) : M unit :=
  match l with
  | [] => ret tt
  | o :: l' => run_op o;; run_ops l'
  end.

(** The machine a sequence of calls and interrupts leads to from reset
    ([reset] itself should one of them fault). *)
Definition after (l : list op) : machine :=
  default reset (exec (run_ops l) reset).

(** The machine is where [j] interrupts lead from pixel 0, phase 0: the
    phase has advanced [j] times, the pixel once per phase-0 handler. *)
Definition at_offset (j : Z) (m : machine) : Prop :=
  phase m = j mod 5 /\ currentPixel m = ((j + 4) / 5) mod PIXEL_COUNT.

(** The pair the handler of interrupt number [k] (from 0) works on, from
    pixel 0 and phase 0: pixels 1, 2, 3, 4, 5, 0 in turn, five phases each. *)
Definition serviced (k : Z) : Z * Z := ((k / 5 + 1) mod PIXEL_COUNT, k mod 5).

(** The order the claim C6 words: pixels 0, 1, 2, 3, 4, 5 in turn, five
    phases each. *)
Definition claimed_order (k : Z) : Z * Z := ((k / 5) mod PIXEL_COUNT, k mod 5).

(** The indices 0, ..., n-1. *)
Definition upto (n : nat) : list Z := map Z.of_nat (seq 0 n).

(** ** Vocabulary of the further properties *)

(** The six anode levels, pixel 0 first. *)
Definition anode_bits (h : hardware) : list bool :=
  [b_PIXEL1 (PORT h); b_PIXEL2 (PORT h); b_PIXEL3 (PORT h);
   b_PIXEL4 (PORT h); b_PIXEL5 (PORT h); b_PIXEL6 (PORT h)].

(** Number of [true] entries of a list. *)
Fixpoint count_true (l : list bool) : nat :=
  match l with
  | [] => O
  | b :: l' => ((if b then 1 else 0) + count_true l')%nat
  end.

(** Number of anode lines driven high. *)
Definition anodes_high (h : hardware) : nat := count_true (anode_bits h).

(** Only the anode of pixel [cur] is high. *)
Definition only_anode (cur : Z) : list bool :=
  map (fun i => i =? cur) [0; 1; 2; 3; 4; 5].

(** The sink pin is an output and drives low: the pump is being charged. *)
Definition sink_driven_low (h : hardware) : bool :=
  b_BLUE_SINK (DDR h) && negb (b_BLUE_SINK (PORT h)).

(** Number of interrupts in a sequence of calls and interrupts. *)
Fixpoint isr_count (l : list op) : nat :=
  match l with
  | [] => O
  | OpIsr :: l' => S (isr_count l')
  | _ :: l' => isr_count l'
  end.

(** The log of the five interrupts that take one pixel through its cycle:
    [a] its anode, [red], [green], [blue] its stored values. *)
Definition pixel_cycle_log (a : pin) (red green blue : Z) : list event :=
  (EvSei :: anodes_off ++
   (if blue =? 255 then [] else [EvPort BLUE_SINK false])) ++
  [EvSei; EvPort BLUE_SINK true; EvPort a true; EvReg OCR2B blue] ++
  [EvSei; EvReg OCR2B 255; EvReg OCR0A red] ++
  [EvSei; EvReg OCR0A 255; EvReg OCR0B green] ++
  [EvSei; EvReg OCR0B 255; EvFrameCallback].

(** Which compare registers may differ from 255 when the handler is about
    to find phase [ph]: none while the anodes are switched (0, 1), blue in
    2, red in 3, green in 4. *)
Definition compare_discipline (m : machine) : Prop :=
  let rg := REGS (hw m) in
  (phase m = 0 \/ phase m = 1 ->
   r_OCR2B rg = 255 /\ r_OCR0A rg = 255 /\ r_OCR0B rg = 255) /\
  (phase m = 2 -> r_OCR0A rg = 255 /\ r_OCR0B rg = 255) /\
  (phase m = 3 -> r_OCR2B rg = 255 /\ r_OCR0B rg = 255) /\
  (phase m = 4 -> r_OCR2B rg = 255 /\ r_OCR0A rg = 255).

(** The three stored values of pixel [p]. *)
Definition stored (m : machine) (p : Z) : option (Z * Z * Z) :=
  match read_at (rawValueR m) p, read_at (rawValueG m) p,
        read_at (rawValueB m) p with
  | Some x, Some y, Some z => Some (x, y, z)
  | _, _, _ => None
  end.

(** The anode lines are all low, or the line of the current pixel is the
    one that is high, and then the handler is not about to find phase 1. *)
Definition anodes_follow_pixel (m : machine) : Prop :=
  anode_bits (hw m) = repeat false 6 \/
  (phase m <> 1 /\ anode_bits (hw m) = only_anode (currentPixel m)).

(** An event that leaves the anode lines alone. *)
Definition anode_neutral (e : event) : Prop :=
  match e with
  | EvPort p _ => is_anode p = false
  | _ => True
  end.

(** An event that leaves the level and the direction of the sink alone. *)
Definition sink_neutral (e : event) : Prop :=
  match e with
  | EvPort BLUE_SINK _ | EvDdr BLUE_SINK _ => False
  | _ => True
  end.

(** An event that leaves the level of the sink alone. *)
Definition sink_level_neutral (e : event) : Prop :=
  match e with
  | EvPort BLUE_SINK _ => False
  | _ => True
  end.

(** The pump is driven low only while the handler is about to find
    phase 1. *)
Definition pump_rests (m : machine) : Prop :=
  sink_driven_low (hw m) = true -> phase m = 1.

(** The raw values [pixel_setRGB] computes from the three intensities. *)
Definition raw_of (r g b : Z) : Z * Z * Z :=
  (255 - gamma r ÷ 3, 255 - gamma g ÷ 2, 255 - gamma b ÷ 2).

(** What the raw values of an intensity are checked against: range per
    channel, the inputs stored as the off value, the input stored as the
    brightest value. *)
Definition raw_facts (v : Z) : bool :=
  let '(x, y, z) := raw_of v v v in
  (170 <=? x) && (x <=? 255) && (128 <=? y) && (y <=? 255) &&
  (128 <=? z) && (z <=? 255) &&
  Bool.eqb (x =? 255) (v <=? 48) && Bool.eqb (y =? 255) (v <=? 40) &&
  Bool.eqb (z =? 255) (v <=? 40) &&
  Bool.eqb (x =? 170) (v =? 255) && Bool.eqb (y =? 128) (v =? 255) &&
  Bool.eqb (z =? 128) (v =? 255) &&
  (gamma v <=? v).

Definition op_is_isr (o : op) : bool :=
  match o with
  | OpIsr => true
  | _ => false
  end.

(** ** The earlier revision of the driver (src/unnamed/part_000)

    The same store and hardware, but a handler without phases: each
    interrupt switches from the previous pixel to the next one and loads
    the compare values of the pixel after that.  The code is straight
    line, so each function gives the log of its writes and the hardware is
    the replay of the log. *)
Module Rev0.

Record machine : Type := mkMachine {
  rawValueR : list Z;
  rawValueG : list Z;
  rawValueB : list Z;
  previousPixel : Z;
  hw : hardware
}.

Definition wf_store (m : machine) : Prop :=
  wf_array (rawValueR m) /\ wf_array (rawValueG m) /\ wf_array (rawValueB m).

(** The [switch] has the six cases 0..5 and no default. *)
Definition activateAnode (line : Z) : list event :=
  match line with
  | 0 => [EvPort PIXEL1 true]
  | 1 => [EvPort PIXEL2 true]
  | 2 => [EvPort PIXEL3 true]
  | 3 => [EvPort PIXEL4 true]
  | 4 => [EvPort PIXEL5 true]
  | 5 => [EvPort PIXEL6 true]
  | _ => []
  end.

Definition deactivateAnode (line : Z) : list event :=
  match line with
  | 0 => [EvPort PIXEL1 false]
  | 1 => [EvPort PIXEL2 false]
  | 2 => [EvPort PIXEL3 false]
  | 3 => [EvPort PIXEL4 false]
  | 4 => [EvPort PIXEL5 false]
  | 5 => [EvPort PIXEL6 false]
  | _ => []
  end.

(** [x + 1] in [uint8_t], back to 0 at [PIXEL_COUNT]. *)
Definition step_pixel (x : Z) : Z :=
  let y := u8 (x + 1) in if y =? PIXEL_COUNT then 0 else y.

(** The handler of the Timer0 overflow interrupt: the machine it leaves
    and the log of its writes; [None] when an array is read out of
    bounds. *)
Definition pixel_isr (m : machine) : option (machine * list event) :=
  let currentPixel := step_pixel (previousPixel m) in
  match read_at (rawValueB m) currentPixel with
  | None => None
  | Some blue =>
      let nextPixel := step_pixel currentPixel in
      match read_at (rawValueR m) nextPixel,
            read_at (rawValueG m) nextPixel,
            read_at (rawValueB m) nextPixel with
      | Some r, Some g, Some b =>
          let tr :=
            deactivateAnode (previousPixel m) ++
            [EvPort BLUE_SINK true] ++
            (if negb (blue =? 255) then [EvPort BLUE_SINK false] else []) ++
            activateAnode currentPixel ++
            [EvReg OCR0A (u8 r); EvReg OCR0B (u8 g); EvReg OCR2B (u8 b)] in
          Some (mkMachine (rawValueR m) (rawValueG m) (rawValueB m)
                          currentPixel (fold_left hw_step tr (hw m)),
                tr)
      | _, _, _ => None
      end
  end.

(** [pixelTimerOn] and [pixelTimerOff] of this revision write the clock
    select of Timer2 only. *)
Definition pixelTimerOn : list event := [EvReg TCCR2B (u8 (_BV Avr.CS01))].
Definition pixelTimerOff : list event := [EvReg TCCR2B (u8 0)].

Definition pixel_disable (m : machine) : machine * list event :=
  let tr := pixelTimerOff ++ deactivateAnode (previousPixel m) in
  (mkMachine (rawValueR m) (rawValueG m) (rawValueB m) (previousPixel m)
             (fold_left hw_step tr (hw m)),
   tr).

Definition pixel_enable (m : machine) : machine * list event :=
  (mkMachine (rawValueR m) (rawValueG m) (rawValueB m) (previousPixel m)
             (fold_left hw_step pixelTimerOn (hw m)),
   pixelTimerOn).

(** [n] consecutive interrupts. *)
Fixpoint interrupts (n : nat) (m : machine)
  : option (machine * list event) :=
  match n with
  | O => Some (m, [])
  | S n' =>
      match pixel_isr m with
      | None => None
      | Some (m1, t1) =>
          match interrupts n' m1 with
          | None => None
          | Some (m2, t2) => Some (m2, t1 ++ t2)
          end
      end
  end.

End Rev0.

(** A machine of the earlier revision as [pixel_init] leaves it after
    reset, but for the timers: store off, previous pixel 0, anodes low,
    sink high. *)
Definition rev0_start : Rev0.machine :=
  Rev0.mkMachine (repeat 255 6) (repeat 255 6) (repeat 255 6) 0
    (mkHw (mkPins false false false false false false true true true true)
          (mkPins true true true true true true true true true true)
          all_zero).

(** * Lemmas *)

(** ** Bytes and arrays *)

Lemma u8_small (x : Z) : is_byte x -> u8 x = x.
Proof. unfold is_byte, u8. intros. apply Z.mod_small. lia. Qed.

Lemma u8_is_byte (x : Z) : is_byte (u8 x).
Proof. unfold is_byte, u8. apply Z.mod_pos_bound. lia. Qed.

Lemma read_at_wf (a : list Z) (i : Z) :
  wf_array a -> 0 <= i < PIXEL_COUNT ->
  exists v, read_at a i = Some v /\ is_byte v.
Proof.
  intros [Hlen Hall] Hi. unfold read_at.
  destruct (Z.leb_spec 0 i) as [_|]; [|lia].
  destruct (lookup_lt_is_Some_2 a (Z.to_nat i)) as [v Hv]; [lia|].
  exists v. split; [exact Hv|].
  rewrite Forall_forall in Hall. apply Hall.
  eapply list_elem_of_lookup_2, Hv.
Qed.

Lemma write_at_wf (a : list Z) (i v : Z) :
  wf_array a -> 0 <= i < PIXEL_COUNT -> is_byte v ->
  write_at a i v = Some (<[Z.to_nat i := v]> a) /\
  wf_array (<[Z.to_nat i := v]> a).
Proof.
  intros [Hlen Hall] Hi Hv. unfold write_at. split.
  - destruct (Z.leb_spec 0 i); [|lia].
    destruct (Z.ltb_spec i (Z.of_nat (length a))); [reflexivity|lia].
  - split; [rewrite length_insert; exact Hlen|].
    apply Forall_insert; assumption.
Qed.

Lemma read_write_same (a : list Z) (i v : Z) :
  wf_array a -> 0 <= i < PIXEL_COUNT ->
  read_at (<[Z.to_nat i := v]> a) i = Some v.
Proof.
  intros [Hlen _] Hi. unfold read_at.
  destruct (Z.leb_spec 0 i); [|lia].
  apply list_lookup_insert_eq. lia.
Qed.

Lemma read_write_other (a : list Z) (i j v : Z) :
  0 <= i -> 0 <= j -> i <> j ->
  read_at (<[Z.to_nat i := v]> a) j = read_at a j.
Proof.
  intros Hi Hj Hij. unfold read_at.
  destruct (Z.leb_spec 0 j); [|lia].
  apply list_lookup_insert_ne. lia.
Qed.

Lemma next_pixel_range (cur : Z) :
  0 <= cur < PIXEL_COUNT -> 0 <= next_pixel cur < PIXEL_COUNT.
Proof.
  unfold next_pixel, PIXEL_COUNT. intros.
  destruct (Z.eqb_spec (cur + 1) 6); lia.
Qed.

Lemma anode_line_range (cur : Z) :
  0 <= cur < PIXEL_COUNT ->
  exists a, anode_line cur = Some a /\ is_anode a = true.
Proof.
  unfold PIXEL_COUNT. intros H.
  assert (cur = 0 \/ cur = 1 \/ cur = 2 \/ cur = 3 \/ cur = 4 \/ cur = 5)
    as [-> | [-> | [-> | [-> | [-> | ->]]]]] by lia;
    eexists; split; reflexivity.
Qed.

Lemma activateAnode_line (cur : Z) (a : pin) :
  anode_line cur = Some a -> activateAnode cur = SBI a.
Proof.
  unfold anode_line, activateAnode.
  destruct cur as [|q|q]; try discriminate;
    repeat (destruct q as [q|q|]; try discriminate);
    intros [= <-]; reflexivity.
Qed.

(** ** The handler, phase by phase *)

(** Phase 0: every anode off, step to the next pixel, pull the sink low when
    that pixel has blue to show. *)
Lemma isr_phase0 (m : machine) (blue : Z) :
  0 <= currentPixel m < PIXEL_COUNT -> phase m = 0 ->
  read_at (rawValueB m) (next_pixel (currentPixel m)) = Some blue ->
  let tr := EvSei :: anodes_off ++
            (if blue =? 255 then [] else [EvPort BLUE_SINK false]) in
  pixel_isr m =
    Some (tt,
          mkMachine (rawValueR m) (rawValueG m) (rawValueB m)
                    (next_pixel (currentPixel m)) 1
                    (fold_left hw_step tr (hw m)),
          tr).
Proof.
  destruct m as [R G B cur ph h].
  cbn [currentPixel phase rawValueR rawValueG rawValueB hw].
  intros Hcur -> Hblue.
  unfold pixel_isr, bind. cbn.
  rewrite (u8_small (cur + 1)) by (unfold is_byte, PIXEL_COUNT in *; lia).
  unfold next_pixel in *.
  destruct (cur + 1 =? PIXEL_COUNT); cbn; unfold read_rawValueB; cbn;
    rewrite Hblue; destruct (blue =? 255); reflexivity.
Qed.

(** Phase 1: sink high, then the anode of the current pixel, then the blue
    compare value. *)
Lemma isr_phase1 (m : machine) (blue : Z) (a : pin) :
  phase m = 1 ->
  anode_line (currentPixel m) = Some a ->
  read_at (rawValueB m) (currentPixel m) = Some blue ->
  let tr := [EvSei; EvPort BLUE_SINK true; EvPort a true;
             EvReg OCR2B (u8 blue)] in
  pixel_isr m =
    Some (tt,
          mkMachine (rawValueR m) (rawValueG m) (rawValueB m)
                    (currentPixel m) 2
                    (fold_left hw_step tr (hw m)),
          tr).
Proof.
  destruct m as [R G B cur ph h].
  cbn [currentPixel phase rawValueR rawValueG rawValueB hw].
  intros -> Ha Hblue.
  unfold pixel_isr, bind. cbn.
  rewrite (activateAnode_line _ _ Ha).
  unfold read_rawValueB; cbn; rewrite Hblue; reflexivity.
Qed.

(** Phase 2: blue compare back to 255, red compare armed. *)
Lemma isr_phase2 (m : machine) (red : Z) :
  phase m = 2 ->
  read_at (rawValueR m) (currentPixel m) = Some red ->
  let tr := [EvSei; EvReg OCR2B 255; EvReg OCR0A (u8 red)] in
  pixel_isr m =
    Some (tt,
          mkMachine (rawValueR m) (rawValueG m) (rawValueB m)
                    (currentPixel m) 3
                    (fold_left hw_step tr (hw m)),
          tr).
Proof.
  destruct m as [R G B cur ph h].
  cbn [currentPixel phase rawValueR rawValueG rawValueB hw].
  intros -> Hred.
  unfold pixel_isr, bind. cbn.
  unfold read_rawValueR; cbn; rewrite Hred; reflexivity.
Qed.

(** Phase 3: red compare back to 255, green compare armed. *)
Lemma isr_phase3 (m : machine) (green : Z) :
  phase m = 3 ->
  read_at (rawValueG m) (currentPixel m) = Some green ->
  let tr := [EvSei; EvReg OCR0A 255; EvReg OCR0B (u8 green)] in
  pixel_isr m =
    Some (tt,
          mkMachine (rawValueR m) (rawValueG m) (rawValueB m)
                    (currentPixel m) 4
                    (fold_left hw_step tr (hw m)),
          tr).
Proof.
  destruct m as [R G B cur ph h].
  cbn [currentPixel phase rawValueR rawValueG rawValueB hw].
  intros -> Hgreen.
  unfold pixel_isr, bind. cbn.
  unfold read_rawValueG; cbn; rewrite Hgreen; reflexivity.
Qed.

(** Phase 4: green compare back to 255, phase wraps, the callback runs. *)
Lemma isr_phase4 (m : machine) :
  phase m = 4 ->
  let tr := [EvSei; EvReg OCR0B 255; EvFrameCallback] in
  pixel_isr m =
    Some (tt,
          mkMachine (rawValueR m) (rawValueG m) (rawValueB m)
                    (currentPixel m) 0
                    (fold_left hw_step tr (hw m)),
          tr).
Proof.
  destruct m as [R G B cur ph h].
  cbn [currentPixel phase rawValueR rawValueG rawValueB hw].
  intros ->. reflexivity.
Qed.

(** One interrupt, whatever the phase: the handler returns, leaves the
    colour store alone, moves the phase on by one modulo five, steps the
    pixel in phase 0 only and runs the callback in phase 4 only. *)
Lemma isr_step (m : machine) :
  wf_store m -> sequencer_ok m ->
  exists m' tr,
    pixel_isr m = Some (tt, m', tr) /\
    rawValueR m' = rawValueR m /\ rawValueG m' = rawValueG m /\
    rawValueB m' = rawValueB m /\
    phase m' = (phase m + 1) mod 5 /\
    currentPixel m' =
      (if phase m =? 0 then next_pixel (currentPixel m) else currentPixel m) /\
    hw m' = fold_left hw_step tr (hw m) /\
    frame_callbacks tr = (if phase m =? 4 then 1%nat else 0%nat).
Proof.
  intros (HR & HG & HB) [Hcur Hph].
  assert (phase m = 0 \/ phase m = 1 \/ phase m = 2 \/ phase m = 3 \/
          phase m = 4) as [H | [H | [H | [H | H]]]] by lia.
  - destruct (read_at_wf _ _ HB (next_pixel_range _ Hcur)) as (blue & Hb & _).
    do 2 eexists. split; [apply (isr_phase0 m blue Hcur H Hb)|].
    rewrite H. cbn. destruct (blue =? 255); auto 10.
  - destruct (read_at_wf _ _ HB Hcur) as (blue & Hb & _).
    destruct (anode_line_range _ Hcur) as (a & Ha & _).
    do 2 eexists. split; [apply (isr_phase1 m blue a H Ha Hb)|].
    rewrite H. cbn. auto 10.
  - destruct (read_at_wf _ _ HR Hcur) as (red & Hr & _).
    do 2 eexists. split; [apply (isr_phase2 m red H Hr)|].
    rewrite H. cbn. auto 10.
  - destruct (read_at_wf _ _ HG Hcur) as (green & Hg & _).
    do 2 eexists. split; [apply (isr_phase3 m green H Hg)|].
    rewrite H. cbn. auto 10.
  - do 2 eexists. split; [apply (isr_phase4 m H)|].
    rewrite H. cbn. auto 10.
Qed.

(** The handler keeps a well-formed machine well formed. *)
Lemma isr_preserves (m m' : machine) (tr : list event) :
  wf_store m -> sequencer_ok m -> pixel_isr m = Some (tt, m', tr) ->
  wf_store m' /\ sequencer_ok m'.
Proof.
  intros Hwf Hseq Hrun.
  destruct (isr_step m Hwf Hseq)
    as (m1 & tr1 & Hrun1 & HR & HG & HB & Hph & Hcur & _).
  rewrite Hrun in Hrun1. injection Hrun1 as <- <-.
  destruct Hwf as (? & ? & ?). destruct Hseq as [Hc Hp].
  split.
  - unfold wf_store. rewrite HR, HG, HB. auto.
  - split.
    + rewrite Hcur. destruct (phase m =? 0); [apply next_pixel_range|]; exact Hc.
    + rewrite Hph. apply Z.mod_pos_bound. lia.
Qed.

(** ** The gamma table *)

Lemma gamma8_length : length gamma8 = 256%nat.
Proof. reflexivity. Qed.

Lemma gamma8_bytes : Forall is_byte gamma8.
Proof.
  assert (forallb (fun x => (0 <=? x) && (x <? 256)) gamma8 = true) as H
    by (vm_compute; reflexivity).
  rewrite Forall_forall. intros x Hx.
  rewrite forallb_forall in H. specialize (H x).
  rewrite <- list_elem_of_In in H. specialize (H Hx).
  apply andb_true_iff in H as [H1 H2].
  unfold is_byte. split; [apply Z.leb_le, H1 | apply Z.ltb_lt, H2].
Qed.

Lemma gamma8_read (v : Z) :
  is_byte v -> read_at gamma8 v = Some (gamma v) /\ is_byte (gamma v).
Proof.
  intros Hv. unfold gamma, read_at, is_byte in *.
  destruct (Z.leb_spec 0 v); [|lia].
  destruct (lookup_lt_is_Some_2 gamma8 (Z.to_nat v)) as [x Hx];
    [rewrite gamma8_length; lia|].
  rewrite Hx. split; [reflexivity|]. cbn.
  pose proof gamma8_bytes as Hall. rewrite Forall_forall in Hall.
  apply Hall. eapply list_elem_of_lookup_2, Hx.
Qed.

Lemma sortedb_lookup (l : list Z) :
  sortedb l = true ->
  forall (i j : nat) (x y : Z),
    (i <= j)%nat -> l !! i = Some x -> l !! j = Some y -> x <= y.
Proof.
  induction l as [|a l IH]; intros Hs i j x y Hij Hi Hj; [discriminate|].
  assert (sortedb l = true /\ forall z, l !! O = Some z -> a <= z) as [Hs' Hhd].
  { destruct l as [|b l]; [split; [reflexivity|discriminate]|].
    cbn in Hs. apply andb_true_iff in Hs as [Hab Hs].
    split; [exact Hs|]. intros z [= <-]. apply Z.leb_le, Hab. }
  destruct i as [|i], j as [|j]; cbn in Hi, Hj.
  - injection Hi as <-. injection Hj as <-. lia.
  - injection Hi as <-.
    destruct (lookup_lt_is_Some_2 l O) as [z Hz].
    { apply lookup_lt_Some in Hj. lia. }
    specialize (Hhd z Hz).
    specialize (IH Hs' O j z y ltac:(lia) Hz Hj). lia.
  - lia.
  - apply (IH Hs' i j x y); [lia|assumption..].
Qed.

Lemma gamma8_sorted : sortedb gamma8 = true.
Proof. vm_compute. reflexivity. Qed.

(** The table is monotone. *)
Lemma gamma_monotone (v w : Z) :
  is_byte v -> is_byte w -> v <= w -> gamma v <= gamma w.
Proof.
  intros Hv Hw Hvw.
  destruct (gamma8_read v Hv) as [Hrv _], (gamma8_read w Hw) as [Hrw _].
  unfold read_at, is_byte in *.
  destruct (Z.leb_spec 0 v); [|lia]. destruct (Z.leb_spec 0 w); [|lia].
  apply (sortedb_lookup gamma8 gamma8_sorted (Z.to_nat v) (Z.to_nat w));
    [lia|assumption..].
Qed.

(** The raw value a channel gets: table value, divided, subtracted from 255;
    it fits a byte without wrapping. *)
Lemma raw_value_fits (v d : Z) :
  is_byte v -> 0 < d ->
  u8 (255 - gamma v ÷ d) = 255 - gamma v ÷ d /\
  0 <= 255 - gamma v ÷ d <= 255.
Proof.
  intros Hv Hd. destruct (gamma8_read v Hv) as [_ Hg]. unfold is_byte in Hg.
  assert (0 <= gamma v ÷ d <= 255) as Hq.
  { rewrite Z.quot_div_nonneg by lia. split.
    - apply Z.div_pos; lia.
    - apply Z.le_trans with (gamma v / 1); [|rewrite Z.div_1_r; lia].
      apply Z.div_le_compat_l; lia. }
  split; [apply u8_small; unfold is_byte; lia | lia].
Qed.

(** ** The colour setters *)

Lemma setRGB_spec (m : machine) (p r g b : Z) :
  wf_store m -> 0 <= p < PIXEL_COUNT ->
  is_byte r -> is_byte g -> is_byte b ->
  pixel_setRGB p r g b m =
    Some (tt,
          mkMachine (<[Z.to_nat p := 255 - gamma r ÷ 3]> (rawValueR m))
                    (<[Z.to_nat p := 255 - gamma g ÷ 2]> (rawValueG m))
                    (<[Z.to_nat p := 255 - gamma b ÷ 2]> (rawValueB m))
                    (currentPixel m) (phase m) (hw m),
          []).
Proof.
  intros (HR & HG & HB) Hp Hr Hg Hb.
  destruct m as [R G B cur ph h]. cbn in *.
  destruct (gamma8_read r Hr) as [Hgr _], (gamma8_read g Hg) as [Hgg _],
           (gamma8_read b Hb) as [Hgb _].
  destruct (raw_value_fits r 3 Hr ltac:(lia)) as [Hur Hbr],
           (raw_value_fits g 2 Hg ltac:(lia)) as [Hug Hbg],
           (raw_value_fits b 2 Hb ltac:(lia)) as [Hub Hbb].
  unfold pixel_setRGB, bind, pgm_read_gamma8,
    write_rawValueR, write_rawValueG, write_rawValueB. cbn.
  rewrite Hgr, Hur. cbn.
  rewrite (proj1 (write_at_wf R p (255 - gamma r ÷ 3) HR Hp
                    ltac:(unfold is_byte; lia))). cbn.
  rewrite Hgg, Hug. cbn.
  rewrite (proj1 (write_at_wf G p (255 - gamma g ÷ 2) HG Hp
                    ltac:(unfold is_byte; lia))). cbn.
  rewrite Hgb, Hub. cbn.
  rewrite (proj1 (write_at_wf B p (255 - gamma b ÷ 2) HB Hp
                    ltac:(unfold is_byte; lia))). cbn.
  reflexivity.
Qed.

Lemma setRGB_wf (m m' : machine) (p r g b : Z) (tr : list event) :
  wf_store m -> pixel_setRGB p r g b m = Some (tt, m', tr) ->
  wf_store m' /\ currentPixel m' = currentPixel m /\ phase m' = phase m /\
  hw m' = hw m /\ tr = [].
Proof.
  intros (HR & HG & HB). destruct m as [R G B cur ph h]. cbn in *.
  unfold pixel_setRGB, bind, pgm_read_gamma8,
    write_rawValueR, write_rawValueG, write_rawValueB. cbn.
  destruct (read_at gamma8 r) as [gr|]; [|discriminate]. cbn.
  unfold write_at.
  destruct ((0 <=? p) && (p <? Z.of_nat (length R))) eqn:ER; [|discriminate].
  destruct (read_at gamma8 g) as [gg|]; [|discriminate]. cbn.
  destruct ((0 <=? p) && (p <? Z.of_nat (length G))) eqn:EG; [|discriminate].
  destruct (read_at gamma8 b) as [gb|]; [|discriminate]. cbn.
  destruct ((0 <=? p) && (p <? Z.of_nat (length B))) eqn:EB; [|discriminate].
  intros [= <- <-].
  assert (forall a v, wf_array a -> wf_array (<[Z.to_nat p := u8 v]> a)) as Hins.
  { intros a v [Hlen Hall]. split; [rewrite length_insert; exact Hlen|].
    apply Forall_insert; [exact Hall | apply u8_is_byte]. }
  unfold wf_store. cbn. auto 10.
Qed.

Lemma for_each_setRGB_wf (l : list Z) (r g b : Z) :
  forall (m m' : machine) (tr : list event),
    wf_store m ->
    for_each l (fun i => pixel_setRGB i r g b) m = Some (tt, m', tr) ->
    wf_store m' /\ currentPixel m' = currentPixel m /\ phase m' = phase m /\
    hw m' = hw m /\ tr = [].
Proof.
  induction l as [|i l IH]; intros m m' tr Hwf Hrun; cbn in Hrun.
  - injection Hrun as <- <-. auto.
  - unfold bind in Hrun.
    destruct (pixel_setRGB i r g b m) as [[[[] m1] t1]|] eqn:E1; [|discriminate].
    destruct (for_each l _ m1) as [[[[] m2] t2]|] eqn:E2; [|discriminate].
    injection Hrun as <- <-.
    destruct (setRGB_wf _ _ _ _ _ _ _ Hwf E1) as (Hwf1 & Hc1 & Hp1 & Hh1 & ->).
    destruct (IH _ _ _ Hwf1 E2) as (Hwf2 & Hc2 & Hp2 & Hh2 & ->).
    split; [exact Hwf2|]. repeat split; congruence.
Qed.

Lemma SetAllRGB_wf (m m' : machine) (r g b : Z) (tr : list event) :
  wf_store m -> pixel_SetAllRGB r g b m = Some (tt, m', tr) ->
  wf_store m' /\ currentPixel m' = currentPixel m /\ phase m' = phase m /\
  hw m' = hw m /\ tr = [].
Proof. apply for_each_setRGB_wf. Qed.

(** An array of [PIXEL_COUNT] bytes, spelled out. *)
Lemma wf_array_inv (l : list Z) :
  wf_array l -> exists a b c d e f, l = [a; b; c; d; e; f].
Proof.
  intros [Hlen _]. unfold PIXEL_COUNT in Hlen.
  do 7 (destruct l as [|? l]; cbn in Hlen; try lia).
  eauto 10.
Qed.

Lemma wf_array_insert (a : list Z) (i : nat) (v : Z) :
  wf_array a -> is_byte v -> wf_array (<[i := v]> a).
Proof.
  intros [Hlen Hall] Hv. split; [rewrite length_insert; exact Hlen|].
  apply Forall_insert; assumption.
Qed.

(** The all-pixels setter writes the same triple to each of the six
    pixels. *)
Lemma SetAllRGB_spec (m : machine) (r g b : Z) :
  wf_store m -> is_byte r -> is_byte g -> is_byte b ->
  pixel_SetAllRGB r g b m =
    Some (tt,
          mkMachine (repeat (255 - gamma r ÷ 3) 6)
                    (repeat (255 - gamma g ÷ 2) 6)
                    (repeat (255 - gamma b ÷ 2) 6)
                    (currentPixel m) (phase m) (hw m),
          []).
Proof.
  intros Hwf Hr Hg Hb.
  pose proof (raw_value_fits r 3 Hr ltac:(lia)) as [_ HvR].
  pose proof (raw_value_fits g 2 Hg ltac:(lia)) as [_ HvG].
  pose proof (raw_value_fits b 2 Hb ltac:(lia)) as [_ HvB].
  assert (forall i m0, wf_store m0 -> 0 <= i < PIXEL_COUNT ->
            pixel_setRGB i r g b m0 =
              Some (tt,
                    mkMachine (<[Z.to_nat i := 255 - gamma r ÷ 3]> (rawValueR m0))
                              (<[Z.to_nat i := 255 - gamma g ÷ 2]> (rawValueG m0))
                              (<[Z.to_nat i := 255 - gamma b ÷ 2]> (rawValueB m0))
                              (currentPixel m0) (phase m0) (hw m0), []))
    as Hset by (intros; apply setRGB_spec; assumption).
  revert Hset HvR HvG HvB.
  generalize (255 - gamma r ÷ 3) (255 - gamma g ÷ 2) (255 - gamma b ÷ 2).
  intros vR vG vB Hset HvR HvG HvB.
  assert (is_byte vR /\ is_byte vG /\ is_byte vB) as (BR & BG & BB)
    by (unfold is_byte; lia).
  destruct m as [R G B cur ph h]. destruct Hwf as (HR & HG & HB). cbn in *.
  destruct (wf_array_inv R HR) as (r0 & r1 & r2 & r3 & r4 & r5 & ->).
  destruct (wf_array_inv G HG) as (g0 & g1 & g2 & g3 & g4 & g5 & ->).
  destruct (wf_array_inv B HB) as (b0 & b1 & b2 & b3 & b4 & b5 & ->).
  unfold pixel_SetAllRGB, FOREACH_FACE.
  change (map Z.of_nat (seq 0 (Z.to_nat PIXEL_COUNT))) with [0; 1; 2; 3; 4; 5].
  cbn [for_each]. unfold bind.
  repeat (rewrite Hset;
          [cbn
          |unfold wf_store; cbn; auto 10 using wf_array_insert
          |unfold PIXEL_COUNT; lia]).
  vm_compute. reflexivity.
Qed.

(** ** Lifecycle *)

Lemma pixelTimersOn_spec (m : machine) :
  pixelTimersOn m =
    Some (tt,
          mkMachine (rawValueR m) (rawValueG m) (rawValueB m)
                    (currentPixel m) (phase m)
                    (mkHw (PORT (hw m)) (DDR (hw m))
                          (timers_on (REGS (hw m)))),
          timers_on_events (REGS (hw m))).
Proof.
  destruct m as [R G B cur ph [P D [a b c d e f g h i j]]].
  unfold pixelTimersOn, bind, SBI_reg, assign, emit, get_hw, timers_on,
    timers_on_events.
  cbn.
  generalize (u8 (Z.lor g (_BV Avr.FOC0A))). intros x.
  generalize (u8 (Z.lor x (_BV Avr.FOC0B))). intros y.
  generalize (u8 (Z.lor i (_BV Avr.FOC2B))). intros z.
  reflexivity.
Qed.

Lemma timers_on_events_neutral (old : regs) :
  Forall port_neutral (timers_on_events old) /\
  frame_callbacks (timers_on_events old) = O /\
  forall P D,
    fold_left hw_step (timers_on_events old) (mkHw P D old) =
    mkHw P D (timers_on old).
Proof.
  split; [repeat constructor|]. split; [reflexivity|].
  intros P D. destruct old as [a b c d e f g h i j]. reflexivity.
Qed.

Lemma pixel_disable_spec (m : machine) :
  pixel_disable m =
    Some (tt,
          mkMachine (rawValueR m) (rawValueG m) (rawValueB m)
                    (currentPixel m) (phase m)
                    (mkHw (ports_off (PORT (hw m))) (DDR (hw m))
                          (timers_off (REGS (hw m)))),
          timers_off_events) /\
  mkHw (ports_off (PORT (hw m))) (DDR (hw m)) (timers_off (REGS (hw m))) =
    fold_left hw_step timers_off_events (hw m).
Proof.
  destruct m as [R G B cur ph [[p1 p2 p3 p4 p5 p6 lr lg lb k] D
                                 [a b c d e f g h i j]]].
  split; reflexivity.
Qed.

Lemma pixel_init_spec (m : machine) :
  pixel_init m =
    Some (tt,
          mkMachine (rawValueR m) (rawValueG m) (rawValueB m)
                    (currentPixel m) (phase m)
                    (fold_left hw_step init_events (hw m)),
          init_events).
Proof. destruct m as [R G B cur ph h]. reflexivity. Qed.

Lemma pixel_enable_inv (m m' : machine) (tr : list event) :
  wf_store m -> pixel_enable m = Some (tt, m', tr) ->
  wf_store m' /\ currentPixel m' = currentPixel m /\ phase m' = phase m /\
  tr = timers_on_events (REGS (hw m)) /\
  hw m' = fold_left hw_step tr (hw m).
Proof.
  intros Hwf Hrun. unfold pixel_enable, bind in Hrun.
  destruct (pixel_SetAllRGB 0 0 0 m) as [[[[] m1] t1]|] eqn:E1; [|discriminate].
  destruct (SetAllRGB_wf _ _ _ _ _ _ Hwf E1) as (Hwf1 & Hc1 & Hp1 & Hh1 & ->).
  rewrite (pixelTimersOn_spec m1) in Hrun.
  injection Hrun as <- <-.
  cbn [hw rawValueR rawValueG rawValueB currentPixel phase app].
  rewrite Hh1.
  destruct (hw m) as [P D rg]. cbn [PORT DDR REGS].
  destruct (timers_on_events_neutral rg) as (_ & _ & Hlog).
  rewrite Hlog. auto.
Qed.

(** [pixel_enable] on a well-formed machine: the store is cleared to the
    off value, the timers are started, the rest is kept. *)
Lemma pixel_enable_spec (m : machine) :
  wf_store m ->
  pixel_enable m =
    Some (tt,
          mkMachine (repeat 255 6) (repeat 255 6) (repeat 255 6)
                    (currentPixel m) (phase m)
                    (mkHw (PORT (hw m)) (DDR (hw m))
                          (timers_on (REGS (hw m)))),
          timers_on_events (REGS (hw m))).
Proof.
  intros Hwf. unfold pixel_enable, bind.
  rewrite (SetAllRGB_spec m 0 0 0 Hwf) by (unfold is_byte; lia).
  rewrite pixelTimersOn_spec. reflexivity.
Qed.

(** ** Logs and the hardware states they pass through *)

Lemma respects_app (P : hardware -> event -> Prop) (pre post : list event) :
  forall h,
    respects P h (pre ++ post) <->
    respects P h pre /\ respects P (fold_left hw_step pre h) post.
Proof.
  induction pre as [|e pre IH]; intros h; cbn.
  - tauto.
  - rewrite IH. tauto.
Qed.

(** In a log that respects [P], each event finds [P] true in the state the
    events before it have produced. *)
Lemma respects_at (P : hardware -> event -> Prop) (h : hardware)
      (pre post : list event) (e : event) :
  respects P h (pre ++ e :: post) -> P (fold_left hw_step pre h) e.
Proof. rewrite respects_app. cbn. tauto. Qed.

Lemma replay_last (Q : hardware -> Prop) (tr : list event) :
  forall h, Q h -> Forall Q (replay h tr) -> Q (fold_left hw_step tr h).
Proof.
  induction tr as [|e tr IH]; intros h Hh Hall; cbn in *; [exact Hh|].
  apply Forall_cons in Hall as [He Hall]. apply IH; assumption.
Qed.

Lemma port_neutral_step (h : hardware) (e : event) :
  port_neutral e -> PORT (hw_step h e) = PORT h.
Proof. destruct e; cbn; intros H; (reflexivity || contradiction). Qed.

(** Events that do not write a port keep the ports, hence safety, and ask
    nothing of the handshake. *)
Lemma port_neutral_safe (tr : list event) :
  forall h,
    Forall port_neutral tr -> safe h ->
    Forall safe (replay h tr) /\ respects handshake h tr.
Proof.
  induction tr as [|e tr IH]; intros h Hall Hs; cbn; [split; constructor|].
  apply Forall_cons in Hall as [He Hall].
  assert (safe (hw_step h e)) as Hs'.
  { unfold safe, charging, any_anode in *.
    rewrite (port_neutral_step h e He). exact Hs. }
  destruct (IH _ Hall Hs') as [H1 H2].
  split; [constructor; assumption|].
  split; [destruct e; try exact I; contradiction | exact H2].
Qed.

(** ** Safety of each entry point *)

Ltac crush_ports :=
  unfold safe, charging, any_anode, handshake in *; cbn in *;
  repeat match goal with
         | |- _ /\ _ => split
         | |- Forall _ (_ :: _) => constructor
         | |- Forall _ [] => constructor
         | |- True => exact I
         end;
  cbn; try (intros; reflexivity || discriminate || assumption || auto).

Lemma anodes_off_safe (h : hardware) (tail : list event) :
  (tail = [] \/ tail = [EvPort BLUE_SINK false]) ->
  safe h ->
  Forall safe (replay h (EvSei :: anodes_off ++ tail)) /\
  respects handshake h (EvSei :: anodes_off ++ tail).
Proof.
  intros Htail Hs.
  destruct h as [[p1 p2 p3 p4 p5 p6 lr lg lb k] D rg].
  unfold safe, charging, any_anode in Hs. cbn in Hs.
  destruct Htail as [-> | ->]; destruct k; cbn in Hs;
    try (specialize (Hs eq_refl);
         repeat (apply orb_false_elim in Hs as [Hs ?]); subst);
    crush_ports.
Qed.

Lemma anode_on_safe (h : hardware) (a : pin) (v : Z) :
  safe h ->
  Forall safe (replay h [EvSei; EvPort BLUE_SINK true; EvPort a true;
                         EvReg OCR2B v]) /\
  respects handshake h [EvSei; EvPort BLUE_SINK true; EvPort a true;
                        EvReg OCR2B v].
Proof.
  intros Hs.
  destruct h as [[p1 p2 p3 p4 p5 p6 lr lg lb k] D rg].
  destruct a; crush_ports.
Qed.

Lemma timers_off_safe (h : hardware) :
  safe h ->
  Forall safe (replay h timers_off_events) /\
  respects handshake h timers_off_events.
Proof.
  intros Hs.
  destruct h as [[p1 p2 p3 p4 p5 p6 lr lg lb k] D rg].
  unfold safe, charging, any_anode in Hs. cbn in Hs.
  destruct k; cbn in Hs;
    try (specialize (Hs eq_refl);
         repeat (apply orb_false_elim in Hs as [Hs ?]); subst);
    crush_ports.
Qed.

Lemma init_safe (h : hardware) :
  safe h ->
  Forall safe (replay h init_events) /\
  respects handshake h init_events.
Proof.
  intros Hs.
  destruct h as [[p1 p2 p3 p4 p5 p6 lr lg lb k] D rg].
  crush_ports.
Qed.

(** The handler, run on a well-formed machine in a safe hardware state,
    passes through safe states only and respects the handshake. *)
Lemma isr_safe (m m' : machine) (tr : list event) :
  wf_store m -> sequencer_ok m -> safe (hw m) ->
  pixel_isr m = Some (tt, m', tr) ->
  Forall safe (replay (hw m) tr) /\ respects handshake (hw m) tr.
Proof.
  intros (HR & HG & HB) [Hcur Hph] Hs Hrun.
  assert (phase m = 0 \/ phase m = 1 \/ phase m = 2 \/ phase m = 3 \/
          phase m = 4) as [H | [H | [H | [H | H]]]] by lia.
  - destruct (read_at_wf _ _ HB (next_pixel_range _ Hcur)) as (blue & Hb & _).
    pose proof (isr_phase0 m blue Hcur H Hb) as E. cbv zeta in E.
    rewrite Hrun in E. injection E as _ ->.
    apply anodes_off_safe; [destruct (blue =? 255); auto | exact Hs].
  - destruct (read_at_wf _ _ HB Hcur) as (blue & Hb & _).
    destruct (anode_line_range _ Hcur) as (a & Ha & _).
    pose proof (isr_phase1 m blue a H Ha Hb) as E. cbv zeta in E.
    rewrite Hrun in E. injection E as _ ->.
    apply anode_on_safe, Hs.
  - destruct (read_at_wf _ _ HR Hcur) as (red & Hr & _).
    pose proof (isr_phase2 m red H Hr) as E. cbv zeta in E.
    rewrite Hrun in E. injection E as _ ->.
    apply port_neutral_safe; [repeat constructor | exact Hs].
  - destruct (read_at_wf _ _ HG Hcur) as (green & Hg & _).
    pose proof (isr_phase3 m green H Hg) as E. cbv zeta in E.
    rewrite Hrun in E. injection E as _ ->.
    apply port_neutral_safe; [repeat constructor | exact Hs].
  - pose proof (isr_phase4 m H) as E. cbv zeta in E.
    rewrite Hrun in E. injection E as _ ->.
    apply port_neutral_safe; [repeat constructor | exact Hs].
Qed.

Lemma isr_sound (m m' : machine) (tr : list event) :
  wf_store m -> sequencer_ok m -> safe (hw m) ->
  pixel_isr m = Some (tt, m', tr) ->
  wf_store m' /\ sequencer_ok m' /\
  hw m' = fold_left hw_step tr (hw m) /\
  Forall safe (replay (hw m) tr) /\ respects handshake (hw m) tr.
Proof.
  intros Hwf Hseq Hs Hrun.
  destruct (isr_preserves _ _ _ Hwf Hseq Hrun) as [Hwf' Hseq'].
  destruct (isr_step m Hwf Hseq)
    as (m1 & t1 & Hrun1 & _ & _ & _ & _ & _ & Hlog & _).
  rewrite Hrun in Hrun1. injection Hrun1 as <- <-.
  destruct (isr_safe _ _ _ Hwf Hseq Hs Hrun). auto.
Qed.

Lemma init_sound (m m' : machine) (tr : list event) :
  wf_store m -> sequencer_ok m -> safe (hw m) ->
  pixel_init m = Some (tt, m', tr) ->
  wf_store m' /\ sequencer_ok m' /\
  hw m' = fold_left hw_step tr (hw m) /\
  Forall safe (replay (hw m) tr) /\ respects handshake (hw m) tr.
Proof.
  intros Hwf Hseq Hs Hrun.
  rewrite pixel_init_spec in Hrun. injection Hrun as <- <-.
  destruct (init_safe _ Hs) as [H1 H2].
  split; [exact Hwf|]. split; [exact Hseq|]. split; [reflexivity|].
  split; assumption.
Qed.

Lemma disable_sound (m m' : machine) (tr : list event) :
  wf_store m -> sequencer_ok m -> safe (hw m) ->
  pixel_disable m = Some (tt, m', tr) ->
  wf_store m' /\ sequencer_ok m' /\
  hw m' = fold_left hw_step tr (hw m) /\
  Forall safe (replay (hw m) tr) /\ respects handshake (hw m) tr.
Proof.
  intros Hwf Hseq Hs Hrun.
  destruct (pixel_disable_spec m) as [E Hlog].
  rewrite Hrun in E. injection E as -> ->.
  destruct (timers_off_safe _ Hs) as [H1 H2].
  split; [exact Hwf|]. split; [exact Hseq|]. split; [exact Hlog|].
  split; assumption.
Qed.

Lemma enable_sound (m m' : machine) (tr : list event) :
  wf_store m -> sequencer_ok m -> safe (hw m) ->
  pixel_enable m = Some (tt, m', tr) ->
  wf_store m' /\ sequencer_ok m' /\
  hw m' = fold_left hw_step tr (hw m) /\
  Forall safe (replay (hw m) tr) /\ respects handshake (hw m) tr.
Proof.
  intros Hwf Hseq Hs Hrun.
  destruct (pixel_enable_inv _ _ _ Hwf Hrun) as (Hwf' & Hc & Hp & Htr & Hlog).
  split; [exact Hwf'|].
  split; [unfold sequencer_ok; rewrite Hc, Hp; exact Hseq|].
  split; [exact Hlog|].
  apply port_neutral_safe; [|exact Hs].
  rewrite Htr. apply timers_on_events_neutral.
Qed.

Lemma run_op_eqs :
  run_op OpInit = pixel_init /\ run_op OpIsr = pixel_isr /\
  (forall p r g b, run_op (OpSetRGB p r g b) = pixel_setRGB p r g b) /\
  (forall r g b, run_op (OpSetAllRGB r g b) = pixel_SetAllRGB r g b) /\
  run_op OpEnable = pixel_enable /\ run_op OpDisable = pixel_disable.
Proof. repeat split. Qed.

(** Every entry point, run on a well-formed machine in a safe hardware
    state, keeps the machine well formed, logs exactly the writes it makes,
    passes through safe states only and respects the handshake. *)
Lemma op_sound (m m' : machine) (o : op) (tr : list event) :
  wf_store m -> sequencer_ok m -> safe (hw m) ->
  run_op o m = Some (tt, m', tr) ->
  wf_store m' /\ sequencer_ok m' /\
  hw m' = fold_left hw_step tr (hw m) /\
  Forall safe (replay (hw m) tr) /\ respects handshake (hw m) tr.
Proof.
  intros Hwf Hseq Hs Hrun.
  destruct run_op_eqs as (Ei & Eh & Es & Ea & Ee & Ed).
  destruct o;
    [rewrite Ei in Hrun | rewrite Eh in Hrun | rewrite Es in Hrun
    |rewrite Ea in Hrun | rewrite Ee in Hrun | rewrite Ed in Hrun].
  - apply init_sound; assumption.
  - apply isr_sound; assumption.
  - destruct (setRGB_wf _ _ _ _ _ _ _ Hwf Hrun) as (Hwf' & Hc & Hp & Hh & ->).
    split; [exact Hwf'|].
    split; [unfold sequencer_ok; rewrite Hc, Hp; exact Hseq|].
    split; [exact Hh|]. split; [constructor | exact I].
  - destruct (SetAllRGB_wf _ _ _ _ _ _ Hwf Hrun) as (Hwf' & Hc & Hp & Hh & ->).
    split; [exact Hwf'|].
    split; [unfold sequencer_ok; rewrite Hc, Hp; exact Hseq|].
    split; [exact Hh|]. split; [constructor | exact I].
  - apply enable_sound; assumption.
  - apply disable_sound; assumption.
Qed.

Lemma reset_wf : wf_store reset /\ sequencer_ok reset /\ safe (hw reset).
Proof.
  split; [|split].
  - assert (wf_array (repeat 0 (Z.to_nat PIXEL_COUNT))) as H.
    { split; [reflexivity|]. repeat (constructor; [unfold is_byte; lia|]).
      constructor. }
    repeat split; apply H.
  - unfold sequencer_ok, PIXEL_COUNT. cbn. lia.
  - intros _. reflexivity.
Qed.

(** What holds of every machine the driver can be in. *)
Lemma reachable_inv (m : machine) :
  reachable m -> wf_store m /\ sequencer_ok m /\ safe (hw m).
Proof.
  induction 1 as [|m m' o tr _ (Hwf & Hseq & Hs) Hrun]; [exact reset_wf|].
  destruct (op_sound _ _ _ _ Hwf Hseq Hs Hrun) as (Hwf' & Hseq' & Hlog & Hall & _).
  split; [exact Hwf'|]. split; [exact Hseq'|].
  rewrite Hlog. apply replay_last; assumption.
Qed.

Lemma booted_wf :
  wf_store booted /\ sequencer_ok booted /\
  currentPixel booted = 0 /\ phase booted = 0.
Proof.
  assert (wf_array (repeat 255 6)) as H.
  { split; [reflexivity|]. repeat (constructor; [unfold is_byte; lia|]).
    constructor. }
  split; [repeat split; apply H|].
  split; [|split; reflexivity].
  unfold sequencer_ok, PIXEL_COUNT.
  change (currentPixel booted) with 0. change (phase booted) with 0. lia.
Qed.

Lemma gamma_255 : gamma 255 = 255.
Proof. vm_compute. reflexivity. Qed.


(** ** The log of one handler invocation, by phase *)

Lemma isr_log (m m' : machine) (tr : list event) :
  wf_store m -> sequencer_ok m -> pixel_isr m = Some (tt, m', tr) ->
  (phase m = 0 /\
   exists blue,
     read_at (rawValueB m) (next_pixel (currentPixel m)) = Some blue /\
     tr = EvSei :: anodes_off ++
          (if blue =? 255 then [] else [EvPort BLUE_SINK false])) \/
  (phase m = 1 /\
   exists blue a,
     read_at (rawValueB m) (currentPixel m) = Some blue /\
     anode_line (currentPixel m) = Some a /\ is_anode a = true /\
     tr = [EvSei; EvPort BLUE_SINK true; EvPort a true;
           EvReg OCR2B (u8 blue)]) \/
  (phase m = 2 /\
   exists red,
     read_at (rawValueR m) (currentPixel m) = Some red /\
     tr = [EvSei; EvReg OCR2B 255; EvReg OCR0A (u8 red)]) \/
  (phase m = 3 /\
   exists green,
     read_at (rawValueG m) (currentPixel m) = Some green /\
     tr = [EvSei; EvReg OCR0A 255; EvReg OCR0B (u8 green)]) \/
  (phase m = 4 /\ tr = [EvSei; EvReg OCR0B 255; EvFrameCallback]).
Proof.
  intros (HR & HG & HB) [Hcur Hph] Hrun.
  assert (phase m = 0 \/ phase m = 1 \/ phase m = 2 \/ phase m = 3 \/
          phase m = 4) as [H | [H | [H | [H | H]]]] by lia.
  - destruct (read_at_wf _ _ HB (next_pixel_range _ Hcur)) as (blue & Hb & _).
    pose proof (isr_phase0 m blue Hcur H Hb) as E. cbv zeta in E.
    rewrite Hrun in E. injection E as _ ->. left. eauto.
  - destruct (read_at_wf _ _ HB Hcur) as (blue & Hb & _).
    destruct (anode_line_range _ Hcur) as (a & Ha & Han).
    pose proof (isr_phase1 m blue a H Ha Hb) as E. cbv zeta in E.
    rewrite Hrun in E. injection E as _ ->. right; left. eauto 10.
  - destruct (read_at_wf _ _ HR Hcur) as (red & Hr & _).
    pose proof (isr_phase2 m red H Hr) as E. cbv zeta in E.
    rewrite Hrun in E. injection E as _ ->. do 2 right; left. eauto.
  - destruct (read_at_wf _ _ HG Hcur) as (green & Hg & _).
    pose proof (isr_phase3 m green H Hg) as E. cbv zeta in E.
    rewrite Hrun in E. injection E as _ ->. do 3 right; left. eauto.
  - pose proof (isr_phase4 m H) as E. cbv zeta in E.
    rewrite Hrun in E. injection E as _ ->. do 4 right. auto.
Qed.

Lemma port_neutral_no_port (tr : list event) (p : pin) (v : bool) :
  Forall port_neutral tr -> ~ In (EvPort p v) tr.
Proof.
  intros Hall Hin. rewrite Forall_forall in Hall.
  apply (Hall (EvPort p v)). apply list_elem_of_In, Hin.
Qed.

Ltac no_such_event H :=
  cbn in H;
  repeat match type of H with
         | _ \/ _ => destruct H as [H | H]
         | False => contradiction
         | _ = _ => try discriminate H
         end.

(** The sink is pulled low by the handler in phase 0 and by nothing else. *)
Lemma sink_low_only_in_phase0 (m m' : machine) (o : op) (tr : list event) :
  wf_store m -> sequencer_ok m -> run_op o m = Some (tt, m', tr) ->
  In (EvPort BLUE_SINK false) tr -> o = OpIsr /\ phase m = 0.
Proof.
  intros Hwf Hseq Hrun Hin.
  destruct run_op_eqs as (Ei & Eh & Es & Ea & Ee & Ed).
  destruct o;
    [rewrite Ei in Hrun | rewrite Eh in Hrun | rewrite Es in Hrun
    |rewrite Ea in Hrun | rewrite Ee in Hrun | rewrite Ed in Hrun].
  - rewrite pixel_init_spec in Hrun. injection Hrun as _ <-.
    exfalso. no_such_event Hin.
  - split; [reflexivity|].
    destruct (isr_log _ _ _ Hwf Hseq Hrun)
      as [[H _] | [(_ & ? & ? & _ & _ & _ & ->) | [(_ & ? & _ & ->) |
          [(_ & ? & _ & ->) | [_ ->]]]]];
      [exact H | exfalso; no_such_event Hin..].
  - destruct (setRGB_wf _ _ _ _ _ _ _ Hwf Hrun) as (_ & _ & _ & _ & ->).
    destruct Hin.
  - destruct (SetAllRGB_wf _ _ _ _ _ _ Hwf Hrun) as (_ & _ & _ & _ & ->).
    destruct Hin.
  - destruct (pixel_enable_inv _ _ _ Hwf Hrun) as (_ & _ & _ & -> & _).
    exfalso. eapply port_neutral_no_port; [|exact Hin].
    apply timers_on_events_neutral.
  - destruct (pixel_disable_spec m) as [E _].
    rewrite Hrun in E. injection E as _ ->.
    exfalso. no_such_event Hin.
Qed.

(** An anode is raised by the handler in phase 1 and by nothing else; the
    log of that invocation is then: interrupts on, sink high, the anode
    of the current pixel high, blue compare value. *)
Lemma anode_on_only_in_phase1 (m m' : machine) (o : op) (tr : list event)
      (a : pin) :
  wf_store m -> sequencer_ok m -> run_op o m = Some (tt, m', tr) ->
  is_anode a = true -> In (EvPort a true) tr ->
  o = OpIsr /\ phase m = 1 /\ anode_line (currentPixel m) = Some a /\
  exists v, tr = [EvSei; EvPort BLUE_SINK true; EvPort a true; EvReg OCR2B v].
Proof.
  intros Hwf Hseq Hrun Han Hin.
  destruct run_op_eqs as (Ei & Eh & Es & Ea & Ee & Ed).
  destruct o;
    [rewrite Ei in Hrun | rewrite Eh in Hrun | rewrite Es in Hrun
    |rewrite Ea in Hrun | rewrite Ee in Hrun | rewrite Ed in Hrun].
  - rewrite pixel_init_spec in Hrun. injection Hrun as _ <-.
    exfalso. destruct a; try discriminate Han; no_such_event Hin.
  - split; [reflexivity|].
    destruct (isr_log _ _ _ Hwf Hseq Hrun)
      as [(_ & blue & _ & ->) | [(H & blue & a' & _ & Ha' & Han' & ->) |
          [(_ & ? & _ & ->) | [(_ & ? & _ & ->) | [_ ->]]]]].
    + exfalso. destruct (blue =? 255); no_such_event Hin.
    + assert (a' = a) as ->.
      { destruct a; try discriminate Han; no_such_event Hin;
          injection Hin as ->; reflexivity. }
      split; [exact H|]. split; [exact Ha'|]. eexists. reflexivity.
    + exfalso. no_such_event Hin.
    + exfalso. no_such_event Hin.
    + exfalso. no_such_event Hin.
  - destruct (setRGB_wf _ _ _ _ _ _ _ Hwf Hrun) as (_ & _ & _ & _ & ->).
    destruct Hin.
  - destruct (SetAllRGB_wf _ _ _ _ _ _ Hwf Hrun) as (_ & _ & _ & _ & ->).
    destruct Hin.
  - destruct (pixel_enable_inv _ _ _ Hwf Hrun) as (_ & _ & _ & -> & _).
    exfalso. eapply port_neutral_no_port; [|exact Hin].
    apply timers_on_events_neutral.
  - destruct (pixel_disable_spec m) as [E _].
    rewrite Hrun in E. injection E as _ ->.
    exfalso. destruct a; try discriminate Han; no_such_event Hin.
Qed.

(** Where an anode event sits in the phase-1 log. *)
Lemma phase1_log_split (a : pin) (v : Z) (pre post : list event) :
  is_anode a = true ->
  [EvSei; EvPort BLUE_SINK true; EvPort a true; EvReg OCR2B v] =
    pre ++ EvPort a true :: post ->
  pre = [EvSei; EvPort BLUE_SINK true].
Proof.
  intros Han E.
  destruct pre as [|e1 [|e2 [|e3 [|e4 [|e5 pre]]]]]; cbn in E;
    try discriminate E; injection E; intros; subst;
    first [reflexivity | discriminate].
Qed.

Lemma reachable_run_ops (l : list op) :
  forall (m m' : machine) (tr : list event),
    reachable m -> run_ops l m = Some (tt, m', tr) -> reachable m'.
Proof.
  induction l as [|o l IH]; intros m m' tr Hm Hrun; cbn in Hrun.
  - injection Hrun as <- _. exact Hm.
  - unfold bind in Hrun.
    destruct (run_op o m) as [[[[] m1] t1]|] eqn:E1; [|discriminate].
    destruct (run_ops l m1) as [[[[] m2] t2]|] eqn:E2; [|discriminate].
    injection Hrun as <- _.
    apply (IH m1 m2 t2); [|exact E2].
    apply (reach_step m m1 o t1); assumption.
Qed.

Lemma reachable_after (l : list op) :
  exec (run_ops l) reset <> None -> reachable (after l).
Proof.
  unfold after, exec. intros H.
  destruct (run_ops l reset) as [[[[] m] tr]|] eqn:E; [|contradiction].
  cbn. apply (reachable_run_ops l reset m tr); [constructor | exact E].
Qed.

(** * The claims *)

(** C1.  In every reachable state of the driver the charge pump is not
    charging while an anode is active, and this also holds at every
    instant inside any call or interrupt run from such a state.  The sink
    is pulled low (charging begins) only by the handler in phase 0, and
    every anode is off at that instant; an anode is raised only by the
    handler in phase 1, it is the anode of the current pixel, and the sink
    has been set high earlier in the same invocation and is high at that
    instant. *)
Theorem C1_pump_never_charges_with_anode_active (m : machine) :
  reachable m ->
  safe (hw m) /\
  forall (o : op) (m' : machine) (tr : list event),
    run_op o m = Some (tt, m', tr) ->
    Forall safe (replay (hw m) tr) /\
    (forall pre post,
        tr = pre ++ EvPort BLUE_SINK false :: post ->
        o = OpIsr /\ phase m = 0 /\
        any_anode (fold_left hw_step pre (hw m)) = false) /\
    (forall a pre post,
        is_anode a = true ->
        tr = pre ++ EvPort a true :: post ->
        o = OpIsr /\ phase m = 1 /\
        anode_line (currentPixel m) = Some a /\
        In (EvPort BLUE_SINK true) pre /\
        charging (fold_left hw_step pre (hw m)) = false).
Proof.
  intros Hreach.
  destruct (reachable_inv m Hreach) as (Hwf & Hseq & Hs).
  split; [exact Hs|].
  intros o m' tr Hrun.
  destruct (op_sound _ _ _ _ Hwf Hseq Hs Hrun) as (_ & _ & _ & Hall & Hresp).
  split; [exact Hall|]. split.
  - intros pre post ->.
    destruct (sink_low_only_in_phase0 _ _ _ _ Hwf Hseq Hrun) as [-> Hph].
    { apply in_app_iff. right. left. reflexivity. }
    split; [reflexivity|]. split; [exact Hph|].
    apply (respects_at handshake _ _ _ _ Hresp).
  - intros a pre post Han ->.
    destruct (anode_on_only_in_phase1 _ _ _ _ a Hwf Hseq Hrun Han)
      as (-> & Hph & Hline & v & Hlog).
    { apply in_app_iff. right. left. reflexivity. }
    split; [reflexivity|]. split; [exact Hph|]. split; [exact Hline|].
    split.
    + rewrite (phase1_log_split a v pre post Han (eq_sym Hlog)).
      right. left. reflexivity.
    + pose proof (respects_at handshake _ _ _ _ Hresp) as Hh.
      destruct a; try discriminate Han; exact (Hh eq_refl).
Qed.

Lemma C1_witness :
  reachable (after [OpInit; OpEnable; OpSetRGB 1 0 0 255; OpIsr]) /\
  safe (hw (after [OpInit; OpEnable; OpSetRGB 1 0 0 255; OpIsr])).
Proof.
  assert (reachable (after [OpInit; OpEnable; OpSetRGB 1 0 0 255; OpIsr]))
    as H by (apply reachable_after; vm_compute; discriminate).
  split; [exact H|].
  apply (C1_pump_never_charges_with_anode_active _ H).
Defined.

(** ** Runs of interrupts *)

Lemma frame_callbacks_app (t1 t2 : list event) :
  frame_callbacks (t1 ++ t2) = (frame_callbacks t1 + frame_callbacks t2)%nat.
Proof.
  induction t1 as [|e t1 IH]; [reflexivity|].
  destruct e; cbn; rewrite IH; reflexivity.
Qed.

(** Any number of interrupts: the handler keeps returning, the store is
    left alone, the variables stay in range, and the callback has run once
    for each wrap of the phase. *)
Lemma interrupts_run (n : nat) :
  forall m : machine,
    wf_store m -> sequencer_ok m ->
    exists m' tr,
      interrupts n m = Some (tt, m', tr) /\
      wf_store m' /\ sequencer_ok m' /\
      rawValueR m' = rawValueR m /\ rawValueG m' = rawValueG m /\
      rawValueB m' = rawValueB m /\
      phase m' = (phase m + Z.of_nat n) mod 5 /\
      Z.of_nat (frame_callbacks tr) = (phase m + Z.of_nat n) / 5.
Proof.
  induction n as [|n IH]; intros m Hwf Hseq.
  - exists m, []. cbn. pose proof Hseq as [_ Hph].
    rewrite Z.add_0_r, Z.mod_small, Z.div_small by lia.
    split; [reflexivity|]. split; [exact Hwf|]. split; [exact Hseq|].
    repeat split; reflexivity.
  - destruct (isr_step m Hwf Hseq)
      as (m1 & t1 & Hrun1 & HR1 & HG1 & HB1 & Hph1 & Hcur1 & _ & Hcb1).
    destruct (isr_preserves _ _ _ Hwf Hseq Hrun1) as [Hwf1 Hseq1].
    destruct (IH m1 Hwf1 Hseq1)
      as (m2 & t2 & Hrun2 & Hwf2 & Hseq2 & HR2 & HG2 & HB2 & Hph2 & Hcb2).
    exists m2, (t1 ++ t2). cbn [interrupts]. unfold bind.
    rewrite Hrun1, Hrun2.
    split; [reflexivity|]. split; [exact Hwf2|]. split; [exact Hseq2|].
    split; [congruence|]. split; [congruence|]. split; [congruence|].
    destruct Hseq as [_ Hph].
    rewrite frame_callbacks_app, Nat2Z.inj_add, Hcb2, Hph2, Hph1, Hcb1.
    rewrite Nat2Z.inj_succ.
    destruct (Z.eqb_spec (phase m) 4) as [E | E].
    + rewrite E. change ((4 + 1) mod 5) with 0.
      replace (4 + Z.succ (Z.of_nat n)) with (Z.of_nat n + 1 * 5) by lia.
      rewrite Z.mod_add, Z.div_add, Z.add_0_l by lia.
      split; [reflexivity | lia].
    + rewrite (Z.mod_small (phase m + 1)) by lia.
      replace (phase m + Z.succ (Z.of_nat n)) with (phase m + 1 + Z.of_nat n)
        by lia.
      split; [reflexivity | lia].
Qed.

(** C2 (as amended).  The frame callback runs in the handler that finds
    phase 4 and in no other, once for each pixel: any five consecutive
    interrupts run it exactly once, so a pass over the N = 6 pixels
    (5 x N interrupts) runs it N times. *)
Theorem C2_callback_once_per_pixel (m : machine) :
  wf_store m -> sequencer_ok m ->
  (exists m' tr,
      pixel_isr m = Some (tt, m', tr) /\
      frame_callbacks tr = if phase m =? 4 then 1%nat else 0%nat) /\
  (forall k : nat,
      exists m' tr,
        interrupts (5 * k) m = Some (tt, m', tr) /\
        frame_callbacks tr = k) /\
  (exists m' tr,
      interrupts (5 * Z.to_nat PIXEL_COUNT) m = Some (tt, m', tr) /\
      frame_callbacks tr = Z.to_nat PIXEL_COUNT).
Proof.
  intros Hwf Hseq.
  assert (forall k : nat,
             exists m' tr,
               interrupts (5 * k) m = Some (tt, m', tr) /\
               frame_callbacks tr = k) as Hk.
  { intros k.
    destruct (interrupts_run (5 * k) m Hwf Hseq)
      as (m' & tr & Hrun & _ & _ & _ & _ & _ & _ & Hcb).
    exists m', tr. split; [exact Hrun|].
    destruct Hseq as [_ Hph].
    rewrite Nat2Z.inj_mul in Hcb. change (Z.of_nat 5) with 5 in Hcb.
    rewrite (Z.mul_comm 5), Z.div_add, (Z.div_small (phase m)) in Hcb by lia.
    lia. }
  split; [|split; [exact Hk | apply Hk]].
  destruct (isr_step m Hwf Hseq) as (m' & tr & Hrun & _ & _ & _ & _ & _ & _ & Hcb).
  eauto.
Qed.

Lemma C2_witness :
  (wf_store booted /\ sequencer_ok booted) /\
  exists m' tr,
    interrupts (5 * Z.to_nat PIXEL_COUNT) booted = Some (tt, m', tr) /\
    frame_callbacks tr = Z.to_nat PIXEL_COUNT.
Proof.
  destruct booted_wf as (Hwf & Hseq & _).
  split; [split; assumption|].
  apply (C2_callback_once_per_pixel booted Hwf Hseq).
Defined.

(** C2 as worded fails: a pass of 5 x 6 interrupts runs the callback six
    times, not once, and the first run comes after five interrupts, when
    one pixel only has been through its phase 4. *)
Lemma C2_counterexample :
  frame_callbacks (events (interrupts (5 * 6)) booted) = 6%nat /\
  frame_callbacks (events (interrupts (5 * 6)) booted) <> 1%nat /\
  frame_callbacks (events (interrupts 5) booted) = 1%nat.
Proof. vm_compute. repeat split; discriminate. Qed.

(** C10.  The handler keeps the sequencer variables in range and never
    writes the colour store: from a machine with the phase in 0..4 and the
    pixel in 0..PIXEL_COUNT-1 (such as the one at reset, pixel 0 and
    phase 0) one invocation returns, leaves both variables in range and the
    three arrays as they were; so does any number of invocations. *)
Theorem C10_isr_keeps_sequencer_in_range (m : machine) :
  wf_store m -> sequencer_ok m ->
  (exists m' tr,
      pixel_isr m = Some (tt, m', tr) /\ sequencer_ok m' /\
      rawValueR m' = rawValueR m /\ rawValueG m' = rawValueG m /\
      rawValueB m' = rawValueB m) /\
  (forall n : nat,
      exists m' tr,
        interrupts n m = Some (tt, m', tr) /\ sequencer_ok m' /\
        rawValueR m' = rawValueR m /\ rawValueG m' = rawValueG m /\
        rawValueB m' = rawValueB m).
Proof.
  intros Hwf Hseq. split.
  - destruct (isr_step m Hwf Hseq) as (m' & tr & Hrun & HR & HG & HB & _).
    destruct (isr_preserves _ _ _ Hwf Hseq Hrun) as [_ Hseq'].
    exists m', tr. auto.
  - intros n.
    destruct (interrupts_run n m Hwf Hseq)
      as (m' & tr & Hrun & _ & Hseq' & HR & HG & HB & _).
    exists m', tr. auto.
Qed.

Lemma C10_witness :
  (wf_store reset /\ sequencer_ok reset /\
   currentPixel reset = 0 /\ phase reset = 0) /\
  exists m' tr,
    pixel_isr reset = Some (tt, m', tr) /\ sequencer_ok m' /\
    rawValueR m' = rawValueR reset /\ rawValueG m' = rawValueG reset /\
    rawValueB m' = rawValueB reset.
Proof.
  destruct reset_wf as (Hwf & Hseq & _).
  split; [repeat split; try reflexivity; apply Hwf || apply Hseq|].
  apply (C10_isr_keeps_sequencer_in_range reset Hwf Hseq).
Defined.

(** ** The order of the pixels *)

Lemma at_offset_ok (j : Z) (m : machine) :
  0 <= j -> at_offset j m -> sequencer_ok m.
Proof.
  unfold at_offset, sequencer_ok, PIXEL_COUNT. intros Hj [-> ->].
  split; apply Z.mod_pos_bound; lia.
Qed.

(** One interrupt moves the machine one place along the round robin. *)
Lemma isr_offset (j : Z) (m : machine) :
  0 <= j -> wf_store m -> at_offset j m ->
  exists m' tr,
    pixel_isr m = Some (tt, m', tr) /\ wf_store m' /\ at_offset (j + 1) m' /\
    (currentPixel m', phase m) = serviced j.
Proof.
  intros Hj Hwf Hoff. pose proof (at_offset_ok j m Hj Hoff) as Hseq.
  destruct (isr_step m Hwf Hseq)
    as (m' & tr & Hrun & _ & _ & _ & Hph' & Hcur' & _).
  destruct (isr_preserves _ _ _ Hwf Hseq Hrun) as [Hwf' _].
  destruct Hoff as [Hph Hcur].
  assert (currentPixel m' = ((j + 1 + 4) / 5) mod PIXEL_COUNT) as Hc.
  { rewrite Hcur', Hph, Hcur. unfold next_pixel, PIXEL_COUNT.
    destruct (Z.eqb_spec (j mod 5) 0) as [E | E].
    - assert ((j + 4) / 5 = j / 5 /\ (j + 1 + 4) / 5 = j / 5 + 1) as [-> ->]
        by (split; Z.to_euclidean_division_equations; lia).
      destruct (Z.eqb_spec ((j / 5) mod 6 + 1) 6);
        Z.to_euclidean_division_equations; lia.
    - f_equal. Z.to_euclidean_division_equations; lia. }
  exists m', tr. split; [exact Hrun|]. split; [exact Hwf'|]. split.
  - split; [|exact Hc].
    rewrite Hph', Hph. Z.to_euclidean_division_equations; lia.
  - unfold serviced. rewrite Hc, Hph. f_equal. unfold PIXEL_COUNT.
    f_equal. Z.to_euclidean_division_equations; lia.
Qed.

Lemma upto_succ (n : nat) (j : Z) (f : Z -> Z * Z) :
  map (fun k => f (j + k)) (upto (S n)) =
  f j :: map (fun k => f (j + 1 + k)) (upto n).
Proof.
  unfold upto. cbn [seq map]. rewrite Z.add_0_r. f_equal.
  rewrite <- seq_shift, !map_map. apply map_ext. intros a.
  f_equal. lia.
Qed.

(** From [j] places along the round robin, [n] interrupts lead [n] places
    further and work on the pairs [serviced j], ..., [serviced (j+n-1)]. *)
Lemma interrupts_offset (n : nat) :
  forall (j : Z) (m : machine),
    0 <= j -> wf_store m -> at_offset j m ->
    exists m' tr,
      interrupts n m = Some (tt, m', tr) /\
      at_offset (j + Z.of_nat n) m' /\
      visited n m = map (fun k => serviced (j + k)) (upto n).
Proof.
  induction n as [|n IH]; intros j m Hj Hwf Hoff.
  - exists m, []. rewrite Z.add_0_r. auto.
  - destruct (isr_offset j m Hj Hwf Hoff)
      as (m1 & t1 & Hrun1 & Hwf1 & Hoff1 & Hpair).
    destruct (IH (j + 1) m1 ltac:(lia) Hwf1 Hoff1)
      as (m2 & t2 & Hrun2 & Hoff2 & Hvis).
    exists m2, (t1 ++ t2). cbn [interrupts visited]. unfold bind, exec.
    rewrite Hrun1, Hrun2. split; [reflexivity|]. split.
    + replace (j + Z.of_nat (S n)) with (j + 1 + Z.of_nat n) by lia.
      exact Hoff2.
    + rewrite upto_succ, Hpair. f_equal. exact Hvis.
Qed.

(** C6 (as amended).  From pixel 0 and phase 0 each interrupt advances the
    phase by one, from 0 to 4 and around; the pixel index is stepped by the
    phase-0 handler, before the pixel is driven, so the pixels are worked on
    in the round-robin order 1, 2, 3, 4, 5, 0, each through the phases
    0..4 in order, without skip or repeat. *)
Theorem C6_round_robin_from_pixel_1 (m : machine) (n : nat) :
  wf_store m -> currentPixel m = 0 -> phase m = 0 ->
  exists m' tr,
    interrupts n m = Some (tt, m', tr) /\
    phase m' = Z.of_nat n mod 5 /\
    currentPixel m' = ((Z.of_nat n + 4) / 5) mod PIXEL_COUNT /\
    visited n m = map serviced (upto n).
Proof.
  intros Hwf Hcur Hph.
  destruct (interrupts_offset n 0 m ltac:(lia) Hwf)
    as (m' & tr & Hrun & [Hph' Hcur'] & Hvis).
  { split; [rewrite Hph | rewrite Hcur]; reflexivity. }
  exists m', tr. rewrite Z.add_0_l in Hph', Hcur'.
  split; [exact Hrun|]. split; [exact Hph'|]. split; [exact Hcur'|].
  rewrite Hvis. apply map_ext. intros k. rewrite Z.add_0_l. reflexivity.
Qed.

Lemma C6_witness :
  (wf_store booted /\ currentPixel booted = 0 /\ phase booted = 0) /\
  exists m' tr,
    interrupts 30 booted = Some (tt, m', tr) /\
    phase m' = Z.of_nat 30 mod 5 /\
    currentPixel m' = ((Z.of_nat 30 + 4) / 5) mod PIXEL_COUNT /\
    visited 30 booted = map serviced (upto 30).
Proof.
  destruct booted_wf as (Hwf & _ & Hcur & Hph).
  split; [auto|].
  apply (C6_round_robin_from_pixel_1 booted 30 Hwf Hcur Hph).
Defined.

(** C6 as worded fails: the first pixel worked on is pixel 1, not pixel 0,
    whether one reads the pairs as the pixel driven in each phase or as the
    variables each interrupt finds on entry. *)
Lemma C6_counterexample :
  visited 30 booted <> map claimed_order (upto 30) /\
  entry_states 30 booted <> map claimed_order (upto 30) /\
  visited 2 booted = [(1, 0); (1, 1)] /\
  entry_states 2 booted = [(0, 0); (1, 1)] /\
  map claimed_order (upto 2) = [(0, 0); (0, 1)].
Proof. vm_compute. repeat split; discriminate. Qed.

(** ** The blue compare register *)

Lemma fold_regs_keep_OCR2B (tr : list event) :
  forall h,
    Forall (fun e => match e with EvReg OCR2B _ => False | _ => True end) tr ->
    r_OCR2B (REGS (fold_left hw_step tr h)) = r_OCR2B (REGS h).
Proof.
  induction tr as [|e tr IH]; intros h Hall; [reflexivity|].
  apply Forall_cons in Hall as [He Hall]. cbn [fold_left].
  rewrite (IH _ Hall).
  destruct h as [P D [a b c d e' f g i j k]].
  destruct e as [| | |[] ?|]; try contradiction; reflexivity.
Qed.

(** C5 (as amended).  The handler that finds phase 1 programs the blue
    compare register OCR2B with the stored blue value of the current pixel,
    a full PWM period before blue shows in phase 2; the handler that finds
    phase 2 sets it back to 255; the handlers of phases 0, 3 and 4 leave
    it alone. *)
Theorem C5_blue_compare_armed_in_phase1 (m : machine) (blue : Z) :
  wf_store m -> sequencer_ok m ->
  read_at (rawValueB m) (currentPixel m) = Some blue ->
  exists m' tr,
    pixel_isr m = Some (tt, m', tr) /\
    (phase m = 1 ->
     r_OCR2B (REGS (hw m')) = blue /\ In (EvReg OCR2B blue) tr) /\
    (phase m = 2 ->
     r_OCR2B (REGS (hw m')) = 255 /\ In (EvReg OCR2B 255) tr) /\
    (phase m = 0 \/ phase m = 3 \/ phase m = 4 ->
     r_OCR2B (REGS (hw m')) = r_OCR2B (REGS (hw m)) /\
     forall v, ~ In (EvReg OCR2B v) tr).
Proof.
  intros Hwf Hseq Hblue.
  destruct (isr_step m Hwf Hseq)
    as (m' & tr & Hrun & _ & _ & _ & _ & _ & Hlog & _).
  exists m', tr. split; [exact Hrun|].
  assert (is_byte blue) as Hbyte.
  { destruct Hwf as (_ & _ & HB). destruct Hseq as [Hcur _].
    destruct (read_at_wf _ _ HB Hcur) as (b' & Hb' & Hbyte).
    congruence. }
  rewrite Hlog.
  destruct (isr_log _ _ _ Hwf Hseq Hrun)
    as [(H & b0 & _ & ->) | [(H & b1 & a & Hb1 & _ & _ & ->) |
        [(H & red & _ & ->) | [(H & green & _ & ->) | [H ->]]]]];
    (split; [intros E; try lia | split; [intros E; try lia | intros E; try lia]]).
  - split.
    + apply fold_regs_keep_OCR2B. destruct (b0 =? 255); repeat constructor.
    + intros v Hin. destruct (b0 =? 255); no_such_event Hin.
  - assert (b1 = blue) as -> by congruence.
    rewrite (u8_small blue Hbyte). split.
    + destruct (hw m) as [[? ? ? ? ? ? ? ? ? ?] D [? ? ? ? ? ? ? ? ? ?]].
      destruct a; reflexivity.
    + cbn. auto.
  - split.
    + destruct (hw m) as [P D [? ? ? ? ? ? ? ? ? ?]]. reflexivity.
    + cbn. auto.
  - split.
    + apply fold_regs_keep_OCR2B. repeat constructor.
    + intros v Hin. no_such_event Hin.
  - split.
    + apply fold_regs_keep_OCR2B. repeat constructor.
    + intros v Hin. no_such_event Hin.
Qed.

Lemma C5_witness :
  let m := after [OpInit; OpEnable; OpSetRGB 1 0 0 255; OpIsr] in
  (wf_store m /\ sequencer_ok m /\
   read_at (rawValueB m) (currentPixel m) = Some 128 /\ phase m = 1) /\
  exists m' tr,
    pixel_isr m = Some (tt, m', tr) /\
    r_OCR2B (REGS (hw m')) = 128 /\ In (EvReg OCR2B 128) tr.
Proof.
  intros m.
  assert (reachable m) as Hreach
    by (apply reachable_after; vm_compute; discriminate).
  destruct (reachable_inv m Hreach) as (Hwf & Hseq & _).
  assert (read_at (rawValueB m) (currentPixel m) = Some 128) as Hb
    by (vm_compute; reflexivity).
  assert (phase m = 1) as Hph by (vm_compute; reflexivity).
  split; [auto|].
  destruct (C5_blue_compare_armed_in_phase1 m 128 Hwf Hseq Hb)
    as (m' & tr & Hrun & H1 & _).
  exists m', tr. split; [exact Hrun | exact (H1 Hph)].
Defined.

(** C5 as worded fails: with blue set on pixel 1, the handler that finds
    phase 2 while pixel 1 is current writes 255 to OCR2B, not the stored
    blue value 128, and the handler that finds phase 3 does not write
    OCR2B at all. *)
Lemma C5_counterexample :
  let m2 := after [OpInit; OpEnable; OpSetRGB 1 0 0 255; OpIsr; OpIsr] in
  let m3 := after [OpInit; OpEnable; OpSetRGB 1 0 0 255; OpIsr; OpIsr;
                   OpIsr] in
  phase m2 = 2 /\ currentPixel m2 = 1 /\
  read_at (rawValueB m2) (currentPixel m2) = Some 128 /\
  events pixel_isr m2 = [EvSei; EvReg OCR2B 255; EvReg OCR0A 255] /\
  ~ In (EvReg OCR2B 128) (events pixel_isr m2) /\
  option_map (fun m' => r_OCR2B (REGS (hw m'))) (exec pixel_isr m2)
    = Some 255 /\
  phase m3 = 3 /\
  events pixel_isr m3 = [EvSei; EvReg OCR0A 255; EvReg OCR0B 255].
Proof.
  vm_compute.
  repeat split; try reflexivity.
  intros [H | [H | [H | []]]]; discriminate H.
Qed.

(** ** The colour setters and the lifecycle *)

(** C3 (the code departs from it).  [pixel_enable] starts by setting every
    pixel to (0, 0, 0): after a colour has been set, [pixel_disable]
    followed by [pixel_enable] leaves the off value 255 in every entry of
    the store, for any store and any colour set before. *)
Theorem C3_enable_clears_the_store (m : machine) :
  wf_store m ->
  exists m',
    exec (pixel_disable;; pixel_enable) m = Some m' /\
    rawValueR m' = repeat 255 6 /\ rawValueG m' = repeat 255 6 /\
    rawValueB m' = repeat 255 6.
Proof.
  intros Hwf. unfold exec, bind.
  destruct (pixel_disable_spec m) as [-> _].
  rewrite pixel_enable_spec by exact Hwf.
  eexists. split; [reflexivity|]. auto.
Qed.

Lemma C3_witness :
  let m := after [OpInit; OpEnable; OpSetRGB 0 255 0 0] in
  (wf_store m /\ rawValueR m = [170; 255; 255; 255; 255; 255]) /\
  exists m',
    exec (pixel_disable;; pixel_enable) m = Some m' /\
    rawValueR m' = repeat 255 6 /\ rawValueG m' = repeat 255 6 /\
    rawValueB m' = repeat 255 6.
Proof.
  intros m.
  assert (reachable m) as Hreach
    by (apply reachable_after; vm_compute; discriminate).
  destruct (reachable_inv m Hreach) as (Hwf & _).
  split; [split; [exact Hwf | vm_compute; reflexivity]|].
  apply (C3_enable_clears_the_store m Hwf).
Defined.

(** C9.  For a pixel index below [PIXEL_COUNT] and byte intensities,
    [pixel_setRGB] does not fault: each table read and each array write is
    in bounds.  It returns the unit value, writes no register, and leaves a
    well-formed store. *)
Theorem C9_setRGB_cannot_fail (m : machine) (p r g b : Z) :
  wf_store m -> 0 <= p < PIXEL_COUNT ->
  is_byte r -> is_byte g -> is_byte b ->
  exists m',
    pixel_setRGB p r g b m = Some (tt, m', []) /\
    wf_store m' /\
    write_at (rawValueR m) p (255 - gamma r ÷ 3) = Some (rawValueR m') /\
    write_at (rawValueG m) p (255 - gamma g ÷ 2) = Some (rawValueG m') /\
    write_at (rawValueB m) p (255 - gamma b ÷ 2) = Some (rawValueB m') /\
    currentPixel m' = currentPixel m /\ phase m' = phase m /\ hw m' = hw m.
Proof.
  intros Hwf Hp Hr Hg Hb.
  pose proof (setRGB_spec m p r g b Hwf Hp Hr Hg Hb) as Hrun.
  eexists. split; [exact Hrun|].
  destruct (setRGB_wf _ _ _ _ _ _ _ Hwf Hrun) as (Hwf' & _).
  split; [exact Hwf'|]. cbn.
  destruct Hwf as (HR & HG & HB).
  pose proof (raw_value_fits r 3 Hr ltac:(lia)) as [_ HvR].
  pose proof (raw_value_fits g 2 Hg ltac:(lia)) as [_ HvG].
  pose proof (raw_value_fits b 2 Hb ltac:(lia)) as [_ HvB].
  rewrite (proj1 (write_at_wf _ p (255 - gamma r ÷ 3) HR Hp
                    ltac:(unfold is_byte; lia))).
  rewrite (proj1 (write_at_wf _ p (255 - gamma g ÷ 2) HG Hp
                    ltac:(unfold is_byte; lia))).
  rewrite (proj1 (write_at_wf _ p (255 - gamma b ÷ 2) HB Hp
                    ltac:(unfold is_byte; lia))).
  auto 10.
Qed.

Lemma C9_witness :
  (wf_store reset /\ 0 <= 5 < PIXEL_COUNT /\
   is_byte 255 /\ is_byte 0 /\ is_byte 17) /\
  exists m', pixel_setRGB 5 255 0 17 reset = Some (tt, m', []).
Proof.
  destruct reset_wf as (Hwf & _).
  assert (0 <= 5 < PIXEL_COUNT) as Hp by (unfold PIXEL_COUNT; lia).
  assert (is_byte 255 /\ is_byte 0 /\ is_byte 17) as (H1 & H2 & H3)
    by (unfold is_byte; lia).
  split; [auto|].
  destruct (C9_setRGB_cannot_fail reset 5 255 0 17 Hwf Hp H1 H2 H3)
    as (m' & Hrun & _).
  exists m'. exact Hrun.
Defined.

Lemma quot_255_is_127 (d : Z) : 255 ÷ d = 127 -> d = 2.
Proof.
  intros H.
  assert (0 < d) as Hd.
  { destruct (Z.lt_trichotomy d 0) as [Hn | [-> | Hp]]; [|discriminate|exact Hp].
    exfalso. pose proof (Z.quot_opp_r 255 (- d) ltac:(lia)) as E.
    rewrite Z.opp_involutive in E.
    pose proof (Z.quot_pos 255 (- d) ltac:(lia) ltac:(lia)). lia. }
  rewrite Z.quot_div_nonneg in H by lia.
  pose proof (Z.div_mod 255 d ltac:(lia)) as E.
  pose proof (Z.mod_pos_bound 255 d Hd) as B.
  rewrite H in E. nia.
Qed.

Lemma setRGB_reads (m : machine) (p r g b : Z) :
  wf_store m -> 0 <= p < PIXEL_COUNT ->
  is_byte r -> is_byte g -> is_byte b ->
  exists m',
    pixel_setRGB p r g b m = Some (tt, m', []) /\
    read_at (rawValueR m') p = Some (255 - gamma r ÷ 3) /\
    read_at (rawValueG m') p = Some (255 - gamma g ÷ 2) /\
    read_at (rawValueB m') p = Some (255 - gamma b ÷ 2) /\
    (forall q, 0 <= q -> q <> p ->
       read_at (rawValueR m') q = read_at (rawValueR m) q /\
       read_at (rawValueG m') q = read_at (rawValueG m) q /\
       read_at (rawValueB m') q = read_at (rawValueB m) q).
Proof.
  intros Hwf Hp Hr Hg Hb.
  eexists. split; [apply (setRGB_spec m p r g b Hwf Hp Hr Hg Hb)|].
  destruct Hwf as (HR & HG & HB). cbn.
  rewrite !read_write_same by assumption.
  repeat split; try reflexivity; apply read_write_other; lia.
Qed.

(** C4 (as amended).  For a pixel index below N and byte intensities,
    [pixel_setRGB] stores 255 - gamma(r) / 3 for red, 255 - gamma(g) / 2 for
    green and 255 - gamma(b) / 2 for blue at that pixel, and nothing at the
    other pixels; gamma is the fixed table of 256 entries, which is
    monotone.  The divisor of red differs from the other two; green and
    blue share the divisor 2. *)
Theorem C4_setRGB_stores_gamma_over_3_2_2 (m : machine) (p r g b : Z) :
  wf_store m -> 0 <= p < PIXEL_COUNT ->
  is_byte r -> is_byte g -> is_byte b ->
  (exists m',
      pixel_setRGB p r g b m = Some (tt, m', []) /\
      read_at (rawValueR m') p = Some (255 - gamma r ÷ 3) /\
      read_at (rawValueG m') p = Some (255 - gamma g ÷ 2) /\
      read_at (rawValueB m') p = Some (255 - gamma b ÷ 2) /\
      (forall q, 0 <= q -> q <> p ->
         read_at (rawValueR m') q = read_at (rawValueR m) q /\
         read_at (rawValueG m') q = read_at (rawValueG m) q /\
         read_at (rawValueB m') q = read_at (rawValueB m) q)) /\
  length gamma8 = 256%nat /\
  (forall v w, is_byte v -> is_byte w -> v <= w -> gamma v <= gamma w).
Proof.
  intros Hwf Hp Hr Hg Hb.
  split; [apply setRGB_reads; assumption|].
  split; [exact gamma8_length | exact gamma_monotone].
Qed.

Lemma C4_witness :
  (wf_store reset /\ 0 <= 2 < PIXEL_COUNT /\
   is_byte 255 /\ is_byte 128 /\ is_byte 64) /\
  exists m',
    pixel_setRGB 2 255 128 64 reset = Some (tt, m', []) /\
    read_at (rawValueR m') 2 = Some (255 - gamma 255 ÷ 3) /\
    read_at (rawValueG m') 2 = Some (255 - gamma 128 ÷ 2) /\
    read_at (rawValueB m') 2 = Some (255 - gamma 64 ÷ 2).
Proof.
  destruct reset_wf as (Hwf & _).
  assert (0 <= 2 < PIXEL_COUNT) as Hp by (unfold PIXEL_COUNT; lia).
  assert (is_byte 255 /\ is_byte 128 /\ is_byte 64) as (H1 & H2 & H3)
    by (unfold is_byte; lia).
  split; [auto|].
  destruct (C4_setRGB_stores_gamma_over_3_2_2 reset 2 255 128 64
              Hwf Hp H1 H2 H3) as ((m' & Hrun & HR & HG & HB & _) & _).
  exists m'. auto.
Defined.

(** C4 as worded fails: no three pairwise distinct divisors account for
    what [pixel_setRGB] stores, since full green and full blue are both
    stored as 128 = 255 - 255 / 2. *)
Lemma C4_counterexample :
  ~ exists dR dG dB : Z,
      dR <> dG /\ dG <> dB /\ dR <> dB /\
      forall r g b, is_byte r -> is_byte g -> is_byte b ->
        exists m',
          exec (pixel_setRGB 0 r g b) booted = Some m' /\
          read_at (rawValueR m') 0 = Some (255 - gamma r ÷ dR) /\
          read_at (rawValueG m') 0 = Some (255 - gamma g ÷ dG) /\
          read_at (rawValueB m') 0 = Some (255 - gamma b ÷ dB).
Proof.
  intros (dR & dG & dB & _ & Hne & _ & H).
  assert (is_byte 255) as H255 by (unfold is_byte; lia).
  destruct (H 255 255 255 H255 H255 H255) as (m' & Hrun & _ & HG & HB).
  destruct (setRGB_reads booted 0 255 255 255 (proj1 booted_wf)
              ltac:(unfold PIXEL_COUNT; lia) H255 H255 H255)
    as (m0 & Hrun0 & _ & HG0 & HB0 & _).
  unfold exec in Hrun. rewrite Hrun0 in Hrun. injection Hrun as <-.
  rewrite HG0 in HG. rewrite HB0 in HB.
  injection HG as HG. injection HB as HB.
  rewrite gamma_255 in HG, HB. change (255 ÷ 2) with 127 in HG, HB.
  apply Hne.
  rewrite (quot_255_is_127 dG) by lia.
  rewrite (quot_255_is_127 dB) by lia.
  reflexivity.
Qed.

(** C7 (as amended).  What [pixel_setRGB] stores at a pixel depends on the
    three intensities alone, not on the store it finds; per channel it is
    monotone in the weak sense: a higher intensity gives a stored value at
    least as far from the off value 255, never nearer. *)
Theorem C7_setRGB_deterministic_weakly_monotone
        (m1 m2 : machine) (p r1 g1 b1 r2 g2 b2 : Z) :
  wf_store m1 -> wf_store m2 -> 0 <= p < PIXEL_COUNT ->
  is_byte r1 -> is_byte g1 -> is_byte b1 ->
  is_byte r2 -> is_byte g2 -> is_byte b2 ->
  exists m1' m2' x1 y1 z1 x2 y2 z2,
    pixel_setRGB p r1 g1 b1 m1 = Some (tt, m1', []) /\
    pixel_setRGB p r2 g2 b2 m2 = Some (tt, m2', []) /\
    read_at (rawValueR m1') p = Some x1 /\
    read_at (rawValueG m1') p = Some y1 /\
    read_at (rawValueB m1') p = Some z1 /\
    read_at (rawValueR m2') p = Some x2 /\
    read_at (rawValueG m2') p = Some y2 /\
    read_at (rawValueB m2') p = Some z2 /\
    (r1 = r2 -> x1 = x2) /\ (g1 = g2 -> y1 = y2) /\ (b1 = b2 -> z1 = z2) /\
    (r1 <= r2 -> 0 <= 255 - x1 <= 255 - x2) /\
    (g1 <= g2 -> 0 <= 255 - y1 <= 255 - y2) /\
    (b1 <= b2 -> 0 <= 255 - z1 <= 255 - z2).
Proof.
  intros Hwf1 Hwf2 Hp Hr1 Hg1 Hb1 Hr2 Hg2 Hb2.
  destruct (setRGB_reads m1 p r1 g1 b1 Hwf1 Hp Hr1 Hg1 Hb1)
    as (m1' & Hrun1 & HR1 & HG1 & HB1 & _).
  destruct (setRGB_reads m2 p r2 g2 b2 Hwf2 Hp Hr2 Hg2 Hb2)
    as (m2' & Hrun2 & HR2 & HG2 & HB2 & _).
  exists m1', m2'. do 6 eexists.
  do 8 (split; [eassumption|]).
  assert (forall v w d, is_byte v -> is_byte w -> 0 < d -> v <= w ->
            0 <= 255 - (255 - gamma v ÷ d) <= 255 - (255 - gamma w ÷ d))
    as Hmono.
  { intros v w d Hv Hw Hd Hvw.
    pose proof (gamma_monotone v w Hv Hw Hvw) as Hg.
    destruct (gamma8_read v Hv) as [_ Bv], (gamma8_read w Hw) as [_ Bw].
    unfold is_byte in Bv, Bw.
    rewrite !Z.quot_div_nonneg by lia.
    pose proof (Z.div_le_mono (gamma v) (gamma w) d Hd Hg).
    pose proof (Z.div_pos (gamma v) d ltac:(lia) Hd). lia. }
  split; [intros ->; reflexivity|]. split; [intros ->; reflexivity|].
  split; [intros ->; reflexivity|].
  split; [|split]; intros Hle; apply Hmono; (assumption || lia).
Qed.

Lemma C7_witness :
  exists m1' m2' x1 x2,
    pixel_setRGB 3 10 20 30 reset = Some (tt, m1', []) /\
    pixel_setRGB 3 200 20 30 booted = Some (tt, m2', []) /\
    read_at (rawValueR m1') 3 = Some x1 /\
    read_at (rawValueR m2') 3 = Some x2 /\
    0 <= 255 - x1 <= 255 - x2.
Proof.
  assert (0 <= 3 < PIXEL_COUNT) as Hp by (unfold PIXEL_COUNT; lia).
  assert (is_byte 10 /\ is_byte 20 /\ is_byte 30 /\ is_byte 200)
    as (H10 & H20 & H30 & H200) by (unfold is_byte; lia).
  destruct (C7_setRGB_deterministic_weakly_monotone
              reset booted 3 10 20 30 200 20 30
              (proj1 reset_wf) (proj1 booted_wf) Hp H10 H20 H30 H200 H20 H30)
    as (m1' & m2' & x1 & y1 & z1 & x2 & y2 & z2 & Hrun1 & Hrun2 &
        HR1 & _ & _ & HR2 & _ & _ & _ & _ & _ & Hmono & _).
  exists m1', m2', x1, x2.
  split; [exact Hrun1|]. split; [exact Hrun2|].
  split; [exact HR1|]. split; [exact HR2|].
  apply Hmono. lia.
Defined.

(** C7 as worded fails: the intensities 0 and 27 are stored as the same
    value, the off value 255, on every channel, so a higher intensity is
    not always stored strictly further from 255. *)
Lemma C7_counterexample :
  option_map (fun m => (read_at (rawValueR m) 0, read_at (rawValueG m) 0,
                        read_at (rawValueB m) 0))
             (exec (pixel_setRGB 0 0 0 0) booted)
    = Some (Some 255, Some 255, Some 255) /\
  option_map (fun m => (read_at (rawValueR m) 0, read_at (rawValueG m) 0,
                        read_at (rawValueB m) 0))
             (exec (pixel_setRGB 0 27 27 27) booted)
    = Some (Some 255, Some 255, Some 255) /\
  0 < 27.
Proof. vm_compute. repeat split; reflexivity. Qed.

(** ** Idempotence *)

Lemma timers_on_idem (rg : regs) : timers_on (timers_on rg) = timers_on rg.
Proof. reflexivity. Qed.

Lemma ports_off_idem (P : pins) : ports_off (ports_off P) = ports_off P.
Proof. reflexivity. Qed.

Lemma timers_off_idem (rg : regs) : timers_off (timers_off rg) = timers_off rg.
Proof. reflexivity. Qed.

(** C8.  [pixel_enable] twice in a row leaves the machine (colour store,
    sequencer variables, port levels, directions and registers) as
    [pixel_enable] once does, and so for [pixel_disable]. *)
Theorem C8_enable_disable_idempotent (m : machine) :
  wf_store m ->
  (exists m1,
      exec pixel_enable m = Some m1 /\
      exec (pixel_enable;; pixel_enable) m = Some m1) /\
  (exists m2,
      exec pixel_disable m = Some m2 /\
      exec (pixel_disable;; pixel_disable) m = Some m2).
Proof.
  intros Hwf. split.
  - pose proof (pixel_enable_spec m Hwf) as E1.
    eexists. unfold exec, bind. rewrite E1.
    split; [reflexivity|].
    rewrite pixel_enable_spec.
    + cbn [rawValueR rawValueG rawValueB currentPixel phase hw PORT DDR REGS].
      rewrite timers_on_idem. reflexivity.
    + assert (wf_array (repeat 255 6)) as H.
      { split; [reflexivity|]. repeat (constructor; [unfold is_byte; lia|]).
        constructor. }
      repeat split; apply H.
  - destruct (pixel_disable_spec m) as [E1 _].
    eexists. unfold exec, bind. rewrite E1.
    split; [reflexivity|].
    rewrite (proj1 (pixel_disable_spec _)).
    cbn [rawValueR rawValueG rawValueB currentPixel phase hw PORT DDR REGS].
    rewrite ports_off_idem, timers_off_idem. reflexivity.
Qed.

Lemma C8_witness :
  let m := after [OpInit; OpEnable; OpSetRGB 1 0 0 255; OpIsr; OpIsr] in
  wf_store m /\
  (exists m1,
      exec pixel_enable m = Some m1 /\
      exec (pixel_enable;; pixel_enable) m = Some m1) /\
  (exists m2,
      exec pixel_disable m = Some m2 /\
      exec (pixel_disable;; pixel_disable) m = Some m2).
Proof.
  intros m.
  assert (reachable m) as Hreach
    by (apply reachable_after; vm_compute; discriminate).
  destruct (reachable_inv m Hreach) as (Hwf & _).
  split; [exact Hwf|].
  apply (C8_enable_disable_idempotent m Hwf).
Defined.

(** * Further properties of the driver *)

(** ** What each entry point does, in closed form *)

(** Every entry point but the handler leaves the sequencer variables alone
    and logs one of four fixed sequences of writes. *)
Lemma foreground_effect (m m' : machine) (o : op) (tr : list event) :
  wf_store m -> o <> OpIsr -> run_op o m = Some (tt, m', tr) ->
  currentPixel m' = currentPixel m /\ phase m' = phase m /\
  hw m' = fold_left hw_step tr (hw m) /\
  (tr = init_events \/ tr = [] \/ tr = timers_on_events (REGS (hw m)) \/
   tr = timers_off_events).
Proof.
  intros Hwf Hne Hrun.
  destruct run_op_eqs as (Ei & Eh & Es & Ea & Ee & Ed).
  destruct o;
    [rewrite Ei in Hrun | contradiction | rewrite Es in Hrun
    |rewrite Ea in Hrun | rewrite Ee in Hrun | rewrite Ed in Hrun].
  - rewrite pixel_init_spec in Hrun. injection Hrun as <- <-. auto.
  - destruct (setRGB_wf _ _ _ _ _ _ _ Hwf Hrun) as (_ & Hc & Hp & Hh & ->).
    auto 10.
  - destruct (SetAllRGB_wf _ _ _ _ _ _ Hwf Hrun) as (_ & Hc & Hp & Hh & ->).
    auto 10.
  - destruct (pixel_enable_inv _ _ _ Hwf Hrun) as (_ & Hc & Hp & -> & Hlog).
    auto 10.
  - destruct (pixel_disable_spec m) as [E Hlog].
    rewrite Hrun in E. injection E as -> ->. cbn. auto 10.
Qed.

(** Induction over the reachable machines, with what is known of them. *)
Lemma reachable_invariant (P : machine -> Prop) :
  P reset ->
  (forall m m' o tr,
      wf_store m -> sequencer_ok m -> safe (hw m) -> P m ->
      run_op o m = Some (tt, m', tr) -> P m') ->
  forall m, reachable m -> P m.
Proof.
  intros Hreset Hstep m Hreach.
  induction Hreach as [|m m' o tr Hreach IH Hrun]; [exact Hreset|].
  destruct (reachable_inv m Hreach) as (Hwf & Hseq & Hs).
  apply (Hstep m m' o tr); assumption.
Qed.

(** ** One anode at a time *)


Lemma anode_neutral_bits (tr : list event) :
  forall h,
    Forall anode_neutral tr ->
    anode_bits (fold_left hw_step tr h) = anode_bits h /\
    Forall (fun h' => anode_bits h' = anode_bits h) (replay h tr).
Proof.
  induction tr as [|e tr IH]; intros h Hall; cbn [fold_left replay].
  - split; [reflexivity | constructor].
  - apply Forall_cons in Hall as [He Hall].
    assert (anode_bits (hw_step h e) = anode_bits h) as E.
    { destruct h as [[p1 p2 p3 p4 p5 p6 lr lg lb k] D rg].
      destruct e as [|p v|p v|r v|]; try reflexivity.
      destruct p; try discriminate He; reflexivity. }
    destruct (IH (hw_step h e) Hall) as [H1 H2]. rewrite E in H1, H2.
    split; [exact H1|]. constructor; [exact E | exact H2].
Qed.

Lemma only_anode_high (cur : Z) (h : hardware) :
  0 <= cur < PIXEL_COUNT -> anode_bits h = only_anode cur ->
  anodes_high h = 1%nat.
Proof.
  unfold PIXEL_COUNT, anodes_high. intros Hcur ->.
  assert (cur = 0 \/ cur = 1 \/ cur = 2 \/ cur = 3 \/ cur = 4 \/ cur = 5)
    as [-> | [-> | [-> | [-> | [-> | ->]]]]] by lia; reflexivity.
Qed.

Lemma anodes_follow_pixel_high (m : machine) :
  sequencer_ok m -> anodes_follow_pixel m -> (anodes_high (hw m) <= 1)%nat.
Proof.
  intros [Hcur _] [H | [_ H]].
  - unfold anodes_high. rewrite H. cbn. lia.
  - rewrite (only_anode_high _ _ Hcur H). lia.
Qed.

(** Switching the anodes off one by one never raises the number of high
    lines, and ends with none. *)
Lemma anodes_off_bits (h : hardware) (pre post : list event) :
  Forall port_neutral pre -> Forall anode_neutral post ->
  (anodes_high h <= 1)%nat ->
  anode_bits (fold_left hw_step (pre ++ anodes_off ++ post) h)
    = repeat false 6 /\
  Forall (fun h' => (anodes_high h' <= 1)%nat)
         (replay h (pre ++ anodes_off ++ post)).
Proof.
  intros Hpre Hpost Hh.
  assert (forall tr h0, replay h0 (pre ++ tr) =
                        replay h0 pre ++ replay (fold_left hw_step pre h0) tr)
    as Hsplit.
  { clear. induction pre as [|e pre IH]; intros tr h0; cbn; [reflexivity|].
    rewrite IH. reflexivity. }
  rewrite fold_left_app, Hsplit.
  assert (Forall anode_neutral pre) as Hpre'.
  { rewrite Forall_forall in Hpre |- *. intros e He. specialize (Hpre e He).
    destruct e; try exact I. contradiction. }
  destruct (anode_neutral_bits pre h Hpre') as [E1 E2].
  set (h1 := fold_left hw_step pre h) in *.
  assert ((anodes_high h1 <= 1)%nat) as Hh1
    by (unfold anodes_high in *; rewrite E1; exact Hh).
  rewrite fold_left_app.
  assert (anode_bits (fold_left hw_step anodes_off h1) = repeat false 6 /\
          Forall (fun h' => (anodes_high h' <= 1)%nat)
                 (replay h1 anodes_off)) as [E3 E4].
  { clear - Hh1. destruct h1 as [[p1 p2 p3 p4 p5 p6 lr lg lb k] D rg].
    split; [reflexivity|].
    unfold anodes_high, anode_bits in *. cbn in *.
    destruct p1, p2, p3, p4, p5, p6; cbn in *;
      repeat constructor; cbn; lia. }
  set (h2 := fold_left hw_step anodes_off h1) in *.
  assert (forall tr h0, replay h0 (anodes_off ++ tr) =
                        replay h0 anodes_off ++
                        replay (fold_left hw_step anodes_off h0) tr)
    as Hsplit2 by reflexivity.
  rewrite Hsplit2. fold h2.
  destruct (anode_neutral_bits post h2 Hpost) as [E5 E6].
  split; [rewrite E5; exact E3|].
  rewrite !Forall_app. split; [|split].
  - eapply Forall_impl; [exact E2|]. intros h' E.
    unfold anodes_high. cbn beta. rewrite E. exact Hh.
  - exact E4.
  - eapply Forall_impl; [exact E6|]. intros h' E.
    unfold anodes_high. cbn beta. rewrite E, E3. cbn. lia.
Qed.

Lemma op_eq_dec_isr (o : op) : o = OpIsr \/ o <> OpIsr.
Proof. destruct o; (left; reflexivity) || (right; discriminate). Qed.

Lemma anode_raised_bits (h : hardware) (cur : Z) (a : pin) (v : Z) :
  anode_line cur = Some a -> anode_bits h = repeat false 6 ->
  let tr := [EvSei; EvPort BLUE_SINK true; EvPort a true; EvReg OCR2B v] in
  anode_bits (fold_left hw_step tr h) = only_anode cur /\
  Forall (fun h' => (anodes_high h' <= 1)%nat) (replay h tr).
Proof.
  intros Ha Hz. destruct h as [[p1 p2 p3 p4 p5 p6 lr lg lb k] D rg].
  injection Hz as -> -> -> -> -> ->.
  unfold anode_line in Ha.
  destruct cur as [|q|q]; try discriminate Ha;
    repeat (destruct q as [q|q|]; try discriminate Ha);
    injection Ha as <-; (split; [reflexivity|]);
    repeat constructor; cbn; lia.
Qed.

Lemma neutral_lists :
  Forall anode_neutral init_events /\
  (forall rg, Forall anode_neutral (timers_on_events rg)) /\
  Forall port_neutral [EvReg TCCR0B 0] /\
  Forall anode_neutral [EvPort BLUE_SINK true; EvReg TCCR2B 0;
                        EvReg TCCR0A 0; EvReg TCCR2A 0].
Proof. repeat split; repeat constructor. Qed.

(** Each call or interrupt keeps the anodes following the current pixel,
    with at most one anode high at every instant. *)
Lemma anodes_follow_pixel_step (m m' : machine) (o : op) (tr : list event) :
  wf_store m -> sequencer_ok m -> anodes_follow_pixel m ->
  run_op o m = Some (tt, m', tr) ->
  anodes_follow_pixel m' /\
  Forall (fun h' => (anodes_high h' <= 1)%nat) (replay (hw m) tr).
Proof.
  intros Hwf Hseq Hinv Hrun.
  pose proof (anodes_follow_pixel_high m Hseq Hinv) as Hhigh.
  destruct neutral_lists as (Ninit & Non & Npre & Npost).
  assert (forall tr0,
             Forall anode_neutral tr0 ->
             hw m' = fold_left hw_step tr0 (hw m) ->
             currentPixel m' = currentPixel m ->
             (phase m' = 1 -> phase m = 1) ->
             anodes_follow_pixel m' /\
             Forall (fun h' => (anodes_high h' <= 1)%nat)
                    (replay (hw m) tr0)) as Hneutral.
  { intros tr0 Hn Hlog Hc Hp.
    destruct (anode_neutral_bits tr0 (hw m) Hn) as [E1 E2]. split.
    - unfold anodes_follow_pixel. rewrite Hlog, E1, Hc.
      destruct Hinv as [H | [H1 H2]]; [left; exact H | right].
      split; [intros E; apply H1, Hp, E | exact H2].
    - eapply Forall_impl; [exact E2|]. intros h' E.
      unfold anodes_high. cbn beta. rewrite E. exact Hhigh. }
  destruct (op_eq_dec_isr o) as [-> | Hne].
  - rewrite (proj1 (proj2 run_op_eqs)) in Hrun.
    destruct (isr_step m Hwf Hseq)
      as (m1 & t1 & Hrun1 & _ & _ & _ & Hph' & Hcur' & Hlog & _).
    rewrite Hrun in Hrun1. injection Hrun1 as <- <-.
    destruct (isr_log _ _ _ Hwf Hseq Hrun)
      as [(H & blue & _ & E) | [(H & blue & a & _ & Ha & _ & E) |
          [(H & red & _ & E) | [(H & green & _ & E) | [H E]]]]];
      rewrite H in Hph', Hcur'; cbn in Hcur'.
    + destruct (anodes_off_bits (hw m) [EvSei]
                  (if blue =? 255 then [] else [EvPort BLUE_SINK false]))
        as [E1 E2]; [repeat constructor | | exact Hhigh |].
      { destruct (blue =? 255); repeat constructor. }
      rewrite E. split; [|exact E2].
      left. rewrite Hlog, E. exact E1.
    + assert (anode_bits (hw m) = repeat false 6) as Hz.
      { destruct Hinv as [Hz | [Hn _]]; [exact Hz | contradiction]. }
      destruct (anode_raised_bits (hw m) (currentPixel m) a (u8 blue) Ha Hz)
        as [E1 E2].
      rewrite E. split; [|exact E2].
      right. rewrite Hph', Hlog, E, Hcur'. split; [discriminate | exact E1].
    + rewrite E. apply Hneutral;
        [repeat constructor | rewrite Hlog, E; reflexivity | exact Hcur'
        |rewrite Hph'; discriminate].
    + rewrite E. apply Hneutral;
        [repeat constructor | rewrite Hlog, E; reflexivity | exact Hcur'
        |rewrite Hph'; discriminate].
    + rewrite E. apply Hneutral;
        [repeat constructor | rewrite Hlog, E; reflexivity | exact Hcur'
        |rewrite Hph'; discriminate].
  - destruct (foreground_effect _ _ _ _ Hwf Hne Hrun)
      as (Hc & Hp & Hlog & [-> | [-> | [-> | ->]]]).
    + apply Hneutral; [exact Ninit | exact Hlog | exact Hc | congruence].
    + apply Hneutral; [constructor | exact Hlog | exact Hc | congruence].
    + apply Hneutral; [apply Non | exact Hlog | exact Hc | congruence].
    + destruct (anodes_off_bits (hw m) [EvReg TCCR0B 0]
                  [EvPort BLUE_SINK true; EvReg TCCR2B 0; EvReg TCCR0A 0;
                   EvReg TCCR2A 0] Npre Npost Hhigh) as [E1 E2].
      split; [|exact E2]. left. rewrite Hlog. exact E1.
Qed.

(** X1.  At most one anode is high at any time: in every reachable machine
    the anode lines are all low or only the line of the current pixel is
    high (and then the handler is not about to find phase 1), and during
    any call or interrupt run from such a machine no instant has two anodes
    high. *)
Theorem X1_one_anode_at_a_time (m : machine) :
  reachable m ->
  anodes_follow_pixel m /\ (anodes_high (hw m) <= 1)%nat /\
  forall (o : op) (m' : machine) (tr : list event),
    run_op o m = Some (tt, m', tr) ->
    Forall (fun h' => (anodes_high h' <= 1)%nat) (replay (hw m) tr).
Proof.
  intros Hreach.
  assert (anodes_follow_pixel m) as Hinv.
  { revert m Hreach. apply reachable_invariant.
    - left. reflexivity.
    - intros m m' o tr Hwf Hseq _ Hinv Hrun.
      apply (anodes_follow_pixel_step m m' o tr Hwf Hseq Hinv Hrun). }
  destruct (reachable_inv m Hreach) as (Hwf & Hseq & _).
  split; [exact Hinv|].
  split; [apply anodes_follow_pixel_high; assumption|].
  intros o m' tr Hrun.
  apply (anodes_follow_pixel_step m m' o tr Hwf Hseq Hinv Hrun).
Qed.

Lemma X1_witness :
  let m := after [OpInit; OpEnable; OpIsr; OpIsr] in
  reachable m /\ anode_bits (hw m) = only_anode 1 /\
  (anodes_high (hw m) <= 1)%nat.
Proof.
  intros m.
  assert (reachable m) as Hreach
    by (apply reachable_after; vm_compute; discriminate).
  split; [exact Hreach|]. split; [vm_compute; reflexivity|].
  apply (X1_one_anode_at_a_time m Hreach).
Defined.

(** ** The pump rests *)

Lemma sink_neutral_fold (tr : list event) :
  forall h,
    Forall sink_neutral tr ->
    sink_driven_low (fold_left hw_step tr h) = sink_driven_low h.
Proof.
  induction tr as [|e tr IH]; intros h Hall; [reflexivity|].
  apply Forall_cons in Hall as [He Hall]. cbn [fold_left].
  rewrite (IH _ Hall).
  destruct h as [[p1 p2 p3 p4 p5 p6 lr lg lb k]
                 [d1 d2 d3 d4 d5 d6 dr dg db dk] rg].
  destruct e as [|p v|p v|r v|]; try reflexivity;
    destruct p; try contradiction; reflexivity.
Qed.

Lemma sink_level_fold (tr : list event) :
  forall h,
    Forall sink_level_neutral tr ->
    b_BLUE_SINK (PORT (fold_left hw_step tr h)) = b_BLUE_SINK (PORT h).
Proof.
  induction tr as [|e tr IH]; intros h Hall; [reflexivity|].
  apply Forall_cons in Hall as [He Hall]. cbn [fold_left].
  rewrite (IH _ Hall).
  destruct h as [[p1 p2 p3 p4 p5 p6 lr lg lb k] D rg].
  destruct e as [|p v|p v|r v|]; try reflexivity;
    destruct p; try contradiction; reflexivity.
Qed.

Lemma sink_high_fold (pre post : list event) (h : hardware) :
  Forall sink_level_neutral post ->
  sink_driven_low
    (fold_left hw_step (pre ++ EvPort BLUE_SINK true :: post) h) = false.
Proof.
  intros Hpost. rewrite fold_left_app. cbn [fold_left].
  unfold sink_driven_low. rewrite (sink_level_fold post _ Hpost).
  destruct (fold_left hw_step pre h)
    as [[p1 p2 p3 p4 p5 p6 lr lg lb k] D rg].
  cbn. apply andb_false_r.
Qed.

Lemma sink_neutral_lists :
  Forall sink_neutral (EvSei :: anodes_off) /\
  (forall rg, Forall sink_neutral (timers_on_events rg)) /\
  (forall v w, Forall sink_neutral [EvSei; EvReg OCR2B v; EvReg OCR0A w]) /\
  (forall v w, Forall sink_neutral [EvSei; EvReg OCR0A v; EvReg OCR0B w]) /\
  Forall sink_neutral [EvSei; EvReg OCR0B 255; EvFrameCallback].
Proof. repeat split; repeat constructor. Qed.

Lemma pump_rests_step (m m' : machine) (o : op) (tr : list event) :
  wf_store m -> sequencer_ok m -> pump_rests m ->
  run_op o m = Some (tt, m', tr) -> pump_rests m'.
Proof.
  intros Hwf Hseq Hinv Hrun. unfold pump_rests in *.
  destruct sink_neutral_lists as (N0 & Non & N2 & N3 & N4).
  destruct (op_eq_dec_isr o) as [-> | Hne].
  - rewrite (proj1 (proj2 run_op_eqs)) in Hrun.
    destruct (isr_step m Hwf Hseq)
      as (m1 & t1 & Hrun1 & _ & _ & _ & Hph' & _ & Hlog & _).
    rewrite Hrun in Hrun1. injection Hrun1 as <- <-.
    destruct (isr_log _ _ _ Hwf Hseq Hrun)
      as [(H & blue & _ & E) | [(H & blue & a & _ & _ & Han & E) |
          [(H & red & _ & E) | [(H & green & _ & E) | [H E]]]]];
      rewrite H in Hph'; rewrite Hlog, E.
    + intros _. exact Hph'.
    + rewrite (sink_high_fold [EvSei] [EvPort a true; EvReg OCR2B (u8 blue)]).
      * discriminate.
      * repeat constructor. destruct a; try discriminate Han; exact I.
    + rewrite (sink_neutral_fold _ _ (N2 _ _)). intros Hlow.
      specialize (Hinv Hlow). lia.
    + rewrite (sink_neutral_fold _ _ (N3 _ _)). intros Hlow.
      specialize (Hinv Hlow). lia.
    + rewrite (sink_neutral_fold _ _ N4). intros Hlow.
      specialize (Hinv Hlow). lia.
  - destruct (foreground_effect _ _ _ _ Hwf Hne Hrun)
      as (_ & Hp & Hlog & [-> | [-> | [-> | ->]]]); rewrite Hlog, Hp.
    + change init_events
        with ([EvDdr PIXEL1 true; EvDdr PIXEL2 true; EvDdr PIXEL3 true;
               EvDdr PIXEL4 true; EvDdr PIXEL5 true; EvDdr PIXEL6 true;
               EvPort LED_R true; EvPort LED_G true; EvPort LED_B true;
               EvDdr LED_R true; EvDdr LED_G true; EvDdr LED_B true] ++
              EvPort BLUE_SINK true :: [EvDdr BLUE_SINK true; EvReg TIMSK0 1]).
      rewrite sink_high_fold by (repeat constructor). discriminate.
    + exact Hinv.
    + rewrite (sink_neutral_fold _ _ (Non _)). exact Hinv.
    + change timers_off_events
        with ((EvReg TCCR0B 0 :: anodes_off) ++
              EvPort BLUE_SINK true ::
              [EvReg TCCR2B 0; EvReg TCCR0A 0; EvReg TCCR2A 0]).
      rewrite sink_high_fold by (repeat constructor). discriminate.
Qed.

(** What the phase-0 handler does to the sink: it pulls it low exactly
    when the pixel it steps to has a stored blue other than 255. *)
Lemma phase0_sink (m m' : machine) (tr : list event) :
  wf_store m -> sequencer_ok m -> phase m = 0 ->
  sink_driven_low (hw m) = false -> b_BLUE_SINK (DDR (hw m)) = true ->
  pixel_isr m = Some (tt, m', tr) ->
  exists blue,
    read_at (rawValueB m') (currentPixel m') = Some blue /\
    sink_driven_low (hw m') = negb (blue =? 255).
Proof.
  intros Hwf Hseq Hph Hhigh Hout Hrun.
  destruct (isr_step m Hwf Hseq)
    as (m1 & t1 & Hrun1 & _ & _ & HB & _ & Hcur' & Hlog & _).
  rewrite Hrun in Hrun1. injection Hrun1 as <- <-.
  rewrite Hph in Hcur'. cbn in Hcur'.
  destruct (isr_log _ _ _ Hwf Hseq Hrun)
    as [(_ & blue & Hb & E) | [(H & _) | [(H & _) | [(H & _) | [H _]]]]];
    try lia.
  exists blue. rewrite HB, Hcur'. split; [exact Hb|].
  rewrite Hlog, E.
  destruct (hw m) as [[p1 p2 p3 p4 p5 p6 lr lg lb k]
                      [d1 d2 d3 d4 d5 d6 dr dg db dk] rg].
  unfold sink_driven_low in *. cbn in Hhigh, Hout. subst dk.
  destruct (blue =? 255); [|reflexivity].
  cbn. cbn in Hhigh. exact Hhigh.
Qed.

(** X2.  The charge pump rests: in every reachable machine the sink is
    driven low only while the handler is about to find phase 1, that is
    for the one period between the phase-0 and the phase-1 handler.  The
    phase-0 handler drives it low exactly when the pixel it steps to has a
    stored blue value other than 255, and the phase-1 handler always leaves
    it high. *)
Theorem X2_pump_charges_one_period_only (m : machine) :
  reachable m ->
  pump_rests m /\
  (forall m' tr,
      phase m = 0 -> b_BLUE_SINK (DDR (hw m)) = true ->
      pixel_isr m = Some (tt, m', tr) ->
      exists blue,
        read_at (rawValueB m') (currentPixel m') = Some blue /\
        sink_driven_low (hw m') = negb (blue =? 255)) /\
  (forall m' tr,
      phase m = 1 -> pixel_isr m = Some (tt, m', tr) ->
      sink_driven_low (hw m') = false).
Proof.
  intros Hreach.
  assert (pump_rests m) as Hinv.
  { revert m Hreach. apply reachable_invariant.
    - intros H. discriminate H.
    - intros m m' o tr Hwf Hseq _ Hinv Hrun.
      apply (pump_rests_step m m' o tr Hwf Hseq Hinv Hrun). }
  destruct (reachable_inv m Hreach) as (Hwf & Hseq & _).
  split; [exact Hinv|]. split.
  - intros m' tr Hph Hout Hrun.
    apply (phase0_sink m m' tr Hwf Hseq Hph); try assumption.
    destruct (sink_driven_low (hw m)) eqn:E; [|reflexivity].
    specialize (Hinv E). lia.
  - intros m' tr Hph Hrun.
    assert (pump_rests m') as Hinv'.
    { apply (pump_rests_step m m' OpIsr tr Hwf Hseq Hinv).
      rewrite (proj1 (proj2 run_op_eqs)). exact Hrun. }
    destruct (isr_step m Hwf Hseq) as (m1 & t1 & Hrun1 & _ & _ & _ & Hph' & _).
    rewrite Hrun in Hrun1. injection Hrun1 as <- <-.
    destruct (sink_driven_low (hw m')) eqn:E; [|reflexivity].
    specialize (Hinv' E). rewrite Hph in Hph'.
    rewrite Hinv' in Hph'. discriminate Hph'.
Qed.

Lemma X2_witness :
  let m := after [OpInit; OpEnable; OpSetRGB 1 0 0 255; OpIsr] in
  reachable m /\ sink_driven_low (hw m) = true /\ phase m = 1.
Proof.
  intros m.
  assert (reachable m) as Hreach
    by (apply reachable_after; vm_compute; discriminate).
  split; [exact Hreach|].
  assert (sink_driven_low (hw m) = true) as Hlow by (vm_compute; reflexivity).
  split; [exact Hlow|].
  apply (X2_pump_charges_one_period_only m Hreach). exact Hlow.
Defined.

(** ** One colour at a time *)

Lemma compare_discipline_step (m m' : machine) (o : op) (tr : list event) :
  wf_store m -> sequencer_ok m -> compare_discipline m ->
  run_op o m = Some (tt, m', tr) -> compare_discipline m'.
Proof.
  intros Hwf Hseq Hinv Hrun. unfold compare_discipline in *. cbv zeta in *.
  destruct Hinv as (I01 & I2 & I3 & I4).
  destruct (op_eq_dec_isr o) as [-> | Hne].
  - rewrite (proj1 (proj2 run_op_eqs)) in Hrun.
    destruct (isr_step m Hwf Hseq)
      as (m1 & t1 & Hrun1 & _ & _ & _ & Hph' & _ & Hlog & _).
    rewrite Hrun in Hrun1. injection Hrun1 as <- <-.
    destruct (isr_log _ _ _ Hwf Hseq Hrun)
      as [(H & blue & _ & E) | [(H & blue & a & _ & _ & _ & E) |
          [(H & red & _ & E) | [(H & green & _ & E) | [H E]]]]];
      rewrite H in Hph'; rewrite Hph', Hlog, E;
      destruct (hw m) as [P D [a0 b0 c0 d0 e0 f0 g0 h0 i0 j0]];
      cbn in I01, I2, I3, I4.
    + destruct (I01 ltac:(auto)) as (-> & -> & ->).
      destruct (blue =? 255); cbn;
        (split; [auto|]); repeat split; intros ?; discriminate.
    + destruct (I01 ltac:(auto)) as (-> & -> & ->).
      destruct P as [p1 p2 p3 p4 p5 p6 lr lg lb k].
      destruct a; cbn; (split; [intros [?|?]; discriminate|]);
        (split; [auto|]); split; intros ?; discriminate.
    + destruct (I2 H) as (-> & ->). cbn.
      (split; [intros [?|?]; discriminate|]).
      (split; [intros ?; discriminate|]). split; [auto | intros ?; discriminate].
    + destruct (I3 H) as (-> & ->). cbn.
      (split; [intros [?|?]; discriminate|]).
      (split; [intros ?; discriminate|]). split; [intros ?; discriminate | auto].
    + destruct (I4 H) as (-> & ->). cbn.
      split; [auto|]. repeat split; intros ?; discriminate.
  - destruct (foreground_effect _ _ _ _ Hwf Hne Hrun)
      as (_ & Hp & Hlog & [-> | [-> | [-> | ->]]]); rewrite Hlog, Hp;
      destruct (hw m) as [P D [a0 b0 c0 d0 e0 f0 g0 h0 i0 j0]].
    + cbn. cbn in I01, I2, I3, I4. auto.
    + cbn. cbn in I01, I2, I3, I4. auto.
    + rewrite (proj2 (proj2 (timers_on_events_neutral _))). cbn. auto 10.
    + destruct P as [p1 p2 p3 p4 p5 p6 lr lg lb k].
      cbn. cbn in I01, I2, I3, I4. auto.
Qed.

Lemma op_keeps_wf (m m' : machine) (o : op) (tr : list event) :
  wf_store m -> sequencer_ok m -> run_op o m = Some (tt, m', tr) ->
  wf_store m' /\ sequencer_ok m'.
Proof.
  intros Hwf Hseq Hrun.
  destruct (op_eq_dec_isr o) as [-> | Hne].
  - rewrite (proj1 (proj2 run_op_eqs)) in Hrun.
    apply (isr_preserves m m' tr Hwf Hseq Hrun).
  - destruct (foreground_effect _ _ _ _ Hwf Hne Hrun) as (Hc & Hp & _).
    split; [|unfold sequencer_ok; rewrite Hc, Hp; exact Hseq].
    destruct run_op_eqs as (Ei & Eh & Es & Ea & Ee & Ed).
    destruct o;
      [rewrite Ei in Hrun | contradiction | rewrite Es in Hrun
      |rewrite Ea in Hrun | rewrite Ee in Hrun | rewrite Ed in Hrun].
    + rewrite pixel_init_spec in Hrun. injection Hrun as <- _. exact Hwf.
    + apply (setRGB_wf _ _ _ _ _ _ _ Hwf Hrun).
    + apply (SetAllRGB_wf _ _ _ _ _ _ Hwf Hrun).
    + apply (pixel_enable_inv _ _ _ Hwf Hrun).
    + destruct (pixel_disable_spec m) as [E _].
      rewrite Hrun in E. injection E as -> _. exact Hwf.
Qed.

Lemma run_ops_invariant (P : machine -> Prop) :
  (forall m m' o tr,
      wf_store m -> sequencer_ok m -> P m ->
      run_op o m = Some (tt, m', tr) -> P m') ->
  forall (l : list op) (m m' : machine) (tr : list event),
    wf_store m -> sequencer_ok m -> P m ->
    run_ops l m = Some (tt, m', tr) ->
    wf_store m' /\ sequencer_ok m' /\ P m'.
Proof.
  intros Hstep l. induction l as [|o l IH]; intros m m' tr Hwf Hseq HP Hrun.
  - cbn in Hrun. injection Hrun as <- _. auto.
  - cbn [run_ops] in Hrun. unfold bind in Hrun.
    destruct (run_op o m) as [[[[] m1] t1]|] eqn:E1; [|discriminate].
    destruct (run_ops l m1) as [[[[] m2] t2]|] eqn:E2; [|discriminate].
    injection Hrun as <- _.
    destruct (op_keeps_wf _ _ _ _ Hwf Hseq E1) as (Hwf1 & Hseq1).
    apply (IH m1 m2 t2); try assumption.
    apply (Hstep m m1 o t1); assumption.
Qed.

(** X3.  One colour at a time: once [pixel_enable] has run, whatever calls
    and interrupts follow, the compare registers that are not due keep the
    off value 255: all three while the anodes are switched (handler about
    to find phase 0 or 1), all but blue in phase 2, all but red in phase 3,
    all but green in phase 4.  So no two of them differ from 255 at the
    same time. *)
Theorem X3_one_colour_at_a_time (m m1 m2 : machine) (l : list op)
        (tr1 tr2 : list event) :
  wf_store m -> sequencer_ok m ->
  pixel_enable m = Some (tt, m1, tr1) ->
  run_ops l m1 = Some (tt, m2, tr2) ->
  compare_discipline m2 /\
  (r_OCR2B (REGS (hw m2)) = 255 /\ r_OCR0A (REGS (hw m2)) = 255 \/
   r_OCR2B (REGS (hw m2)) = 255 /\ r_OCR0B (REGS (hw m2)) = 255 \/
   r_OCR0A (REGS (hw m2)) = 255 /\ r_OCR0B (REGS (hw m2)) = 255).
Proof.
  intros Hwf Hseq Hen Hrun.
  assert (compare_discipline m1) as H1.
  { rewrite (pixel_enable_spec m Hwf) in Hen. injection Hen as <- _.
    unfold compare_discipline. cbn. auto 10. }
  destruct (pixel_enable_inv _ _ _ Hwf Hen) as (Hwf1 & Hc1 & Hp1 & _).
  assert (sequencer_ok m1) as Hseq1
    by (unfold sequencer_ok; rewrite Hc1, Hp1; exact Hseq).
  destruct (run_ops_invariant compare_discipline compare_discipline_step
              l m1 m2 tr2 Hwf1 Hseq1 H1 Hrun)
    as (_ & [_ Hph] & H2).
  split; [exact H2|].
  destruct H2 as (I01 & I2 & I3 & I4).
  assert (phase m2 = 0 \/ phase m2 = 1 \/ phase m2 = 2 \/ phase m2 = 3 \/
          phase m2 = 4) as [H | [H | [H | [H | H]]]] by lia.
  - destruct (I01 (or_introl H)) as (? & ? & ?). auto.
  - destruct (I01 (or_intror H)) as (? & ? & ?). auto.
  - destruct (I2 H). auto.
  - destruct (I3 H). auto.
  - destruct (I4 H). auto.
Qed.

Lemma X3_witness :
  let m1 := default reset (exec pixel_enable reset) in
  let l := [OpSetRGB 1 255 255 255; OpIsr; OpIsr; OpIsr] in
  let m2 := default reset (exec (run_ops l) m1) in
  compare_discipline m2 /\ phase m2 = 3 /\ r_OCR0A (REGS (hw m2)) = 170.
Proof.
  intros m1 l m2.
  destruct reset_wf as (Hwf & Hseq & _).
  assert (pixel_enable reset = Some (tt, m1, events pixel_enable reset))
    as E1 by (vm_compute; reflexivity).
  assert (run_ops l m1 = Some (tt, m2, events (run_ops l) m1))
    as E2 by (vm_compute; reflexivity).
  split; [|vm_compute; split; reflexivity].
  apply (X3_one_colour_at_a_time reset m1 m2 l _ _ Hwf Hseq E1 E2).
Defined.

(** ** A whole pixel cycle *)

Lemma stored_inv (m : machine) (p x y z : Z) :
  stored m p = Some (x, y, z) ->
  read_at (rawValueR m) p = Some x /\ read_at (rawValueG m) p = Some y /\
  read_at (rawValueB m) p = Some z.
Proof.
  unfold stored.
  destruct (read_at (rawValueR m) p), (read_at (rawValueG m) p),
           (read_at (rawValueB m) p); try discriminate.
  intros [= -> -> ->]. auto.
Qed.

Lemma stored_bytes (m : machine) (p x y z : Z) :
  wf_store m -> 0 <= p < PIXEL_COUNT -> stored m p = Some (x, y, z) ->
  is_byte x /\ is_byte y /\ is_byte z.
Proof.
  intros (HR & HG & HB) Hp Hst.
  destruct (stored_inv _ _ _ _ _ Hst) as (Hx & Hy & Hz).
  destruct (read_at_wf _ _ HR Hp) as (x' & Hx' & Bx).
  destruct (read_at_wf _ _ HG Hp) as (y' & Hy' & By).
  destruct (read_at_wf _ _ HB Hp) as (z' & Hz' & Bz).
  rewrite Hx in Hx'. rewrite Hy in Hy'. rewrite Hz in Hz'.
  injection Hx' as <-. injection Hy' as <-. injection Hz' as <-. auto.
Qed.

(** X5.  The five interrupts that start with the handler finding phase 0
    take the next pixel through its whole cycle, and the writes they make
    are, in order: every anode off, the sink low if the pixel has blue;
    sink high, the anode of the pixel high, blue compare armed; blue
    compare off, red armed; red off, green armed; green off, the frame
    callback.  The armed values are the three stored values of that pixel;
    the machine is then at phase 0 again, on that pixel, the store
    unchanged. *)
Theorem X5_pixel_cycle (m : machine) (a : pin) (red green blue : Z) :
  wf_store m -> sequencer_ok m -> phase m = 0 ->
  stored m (next_pixel (currentPixel m)) = Some (red, green, blue) ->
  anode_line (next_pixel (currentPixel m)) = Some a ->
  exists m',
    interrupts 5 m = Some (tt, m', pixel_cycle_log a red green blue) /\
    phase m' = 0 /\ currentPixel m' = next_pixel (currentPixel m) /\
    rawValueR m' = rawValueR m /\ rawValueG m' = rawValueG m /\
    rawValueB m' = rawValueB m /\
    hw m' = fold_left hw_step (pixel_cycle_log a red green blue) (hw m).
Proof.
  intros Hwf [Hcur _] Hph Hst Ha.
  pose proof (next_pixel_range _ Hcur) as Hp.
  destruct (stored_bytes _ _ _ _ _ Hwf Hp Hst) as (Bx & By & Bz).
  destruct (stored_inv _ _ _ _ _ Hst) as (Hx & Hy & Hz).
  pose proof (isr_phase0 m blue Hcur Hph Hz) as E0. cbv zeta in E0.
  set (t0 := EvSei :: anodes_off ++
             (if blue =? 255 then [] else [EvPort BLUE_SINK false])) in *.
  set (m0 := mkMachine (rawValueR m) (rawValueG m) (rawValueB m)
                       (next_pixel (currentPixel m)) 1
                       (fold_left hw_step t0 (hw m))) in *.
  pose proof (isr_phase1 m0 blue a eq_refl Ha Hz) as E1. cbv zeta in E1.
  rewrite (u8_small blue Bz) in E1.
  set (t1 := [EvSei; EvPort BLUE_SINK true; EvPort a true; EvReg OCR2B blue])
    in *.
  set (m1 := mkMachine (rawValueR m0) (rawValueG m0) (rawValueB m0)
                       (currentPixel m0) 2 (fold_left hw_step t1 (hw m0)))
    in *.
  pose proof (isr_phase2 m1 red eq_refl Hx) as E2. cbv zeta in E2.
  rewrite (u8_small red Bx) in E2.
  set (t2 := [EvSei; EvReg OCR2B 255; EvReg OCR0A red]) in *.
  set (m2 := mkMachine (rawValueR m1) (rawValueG m1) (rawValueB m1)
                       (currentPixel m1) 3 (fold_left hw_step t2 (hw m1)))
    in *.
  pose proof (isr_phase3 m2 green eq_refl Hy) as E3. cbv zeta in E3.
  rewrite (u8_small green By) in E3.
  set (t3 := [EvSei; EvReg OCR0A 255; EvReg OCR0B green]) in *.
  set (m3 := mkMachine (rawValueR m2) (rawValueG m2) (rawValueB m2)
                       (currentPixel m2) 4 (fold_left hw_step t3 (hw m2)))
    in *.
  pose proof (isr_phase4 m3 eq_refl) as E4. cbv zeta in E4.
  set (t4 := [EvSei; EvReg OCR0B 255; EvFrameCallback]) in *.
  set (m4 := mkMachine (rawValueR m3) (rawValueG m3) (rawValueB m3)
                       (currentPixel m3) 0 (fold_left hw_step t4 (hw m3)))
    in *.
  exists m4. split.
  - cbn [interrupts]. unfold bind. rewrite E0, E1, E2, E3, E4.
    unfold ret. rewrite app_nil_r. reflexivity.
  - do 5 (split; [reflexivity|]).
    unfold pixel_cycle_log. rewrite !fold_left_app. reflexivity.
Qed.

Lemma X5_witness :
  let m := after [OpInit; OpEnable; OpSetRGB 1 255 128 64] in
  (phase m = 0 /\ stored m (next_pixel (currentPixel m)) = Some (170, 237, 253)) /\
  exists m',
    interrupts 5 m = Some (tt, m', pixel_cycle_log PIXEL2 170 237 253) /\
    phase m' = 0 /\ currentPixel m' = 1.
Proof.
  intros m.
  assert (reachable m) as Hreach
    by (apply reachable_after; vm_compute; discriminate).
  destruct (reachable_inv m Hreach) as (Hwf & Hseq & _).
  assert (phase m = 0) as Hph by (vm_compute; reflexivity).
  assert (stored m (next_pixel (currentPixel m)) = Some (170, 237, 253))
    as Hst by (vm_compute; reflexivity).
  assert (anode_line (next_pixel (currentPixel m)) = Some PIXEL2)
    as Ha by (vm_compute; reflexivity).
  split; [auto|].
  destruct (X5_pixel_cycle m PIXEL2 170 237 253 Hwf Hseq Hph Hst Ha)
    as (m' & Hrun & Hph' & Hcur' & _).
  exists m'. split; [exact Hrun|]. split; [exact Hph'|].
  rewrite Hcur'. vm_compute. reflexivity.
Defined.

(** ** The stored values *)

Lemma forall_bytes (P : Z -> bool) :
  forallb P (upto 256) = true -> forall v, is_byte v -> P v = true.
Proof.
  intros H v Hv. rewrite forallb_forall in H. apply H.
  unfold upto. apply in_map_iff. exists (Z.to_nat v).
  unfold is_byte in Hv. split; [lia|]. apply in_seq. lia.
Qed.

Lemma bool_eq_iff (a b : bool) (P Q : Prop) :
  reflect P a -> reflect Q b -> a = b -> (P <-> Q).
Proof. intros [HP | HP] [HQ | HQ] E; try discriminate E; tauto. Qed.

Lemma raw_facts_all (v : Z) : is_byte v -> raw_facts v = true.
Proof. apply forall_bytes. vm_compute. reflexivity. Qed.

Lemma raw_facts_spec (v : Z) :
  is_byte v ->
  170 <= 255 - gamma v ÷ 3 <= 255 /\
  128 <= 255 - gamma v ÷ 2 <= 255 /\
  128 <= 255 - gamma v ÷ 2 <= 255 /\
  (255 - gamma v ÷ 3 = 255 <-> v <= 48) /\
  (255 - gamma v ÷ 2 = 255 <-> v <= 40) /\
  (255 - gamma v ÷ 2 = 255 <-> v <= 40) /\
  (255 - gamma v ÷ 3 = 170 <-> v = 255) /\
  (255 - gamma v ÷ 2 = 128 <-> v = 255) /\
  (255 - gamma v ÷ 2 = 128 <-> v = 255) /\
  gamma v <= v.
Proof.
  intros Hv. pose proof (raw_facts_all v Hv) as F.
  unfold raw_facts, raw_of in F.
  repeat match goal with
         | H : _ && _ = true |- _ => apply andb_prop in H as [H ?]
         | H : Bool.eqb _ _ = true |- _ => apply Bool.eqb_prop in H
         end.
  repeat match goal with
         | H : (_ <=? _) = true |- _ => apply Z.leb_le in H
         | H : (_ =? _) = (_ <=? _) |- _ =>
             apply (bool_eq_iff _ _ _ _ (Z.eqb_spec _ _) (Z.leb_spec0 _ _))
               in H
         | H : (_ =? _) = (_ =? _) |- _ =>
             apply (bool_eq_iff _ _ _ _ (Z.eqb_spec _ _) (Z.eqb_spec _ _))
               in H
         end.
  repeat match goal with
         | |- _ /\ _ => split
         end; assumption.
Qed.

Lemma stored_after_setRGB (m : machine) (p r g b : Z) :
  wf_store m -> 0 <= p < PIXEL_COUNT ->
  is_byte r -> is_byte g -> is_byte b ->
  exists m',
    pixel_setRGB p r g b m = Some (tt, m', []) /\
    stored m' p = Some (raw_of r g b) /\
    (forall q, 0 <= q -> q <> p -> stored m' q = stored m q) /\
    currentPixel m' = currentPixel m /\ phase m' = phase m /\
    hw m' = hw m.
Proof.
  intros Hwf Hp Hr Hg Hb.
  destruct (setRGB_reads m p r g b Hwf Hp Hr Hg Hb)
    as (m' & Hrun & HR & HG & HB & Hother).
  exists m'. split; [exact Hrun|].
  destruct (setRGB_wf _ _ _ _ _ _ _ Hwf Hrun) as (_ & Hc & Hph & Hh & _).
  split; [unfold stored; rewrite HR, HG, HB; reflexivity|].
  split; [|auto].
  intros q Hq Hne. destruct (Hother q Hq Hne) as (E1 & E2 & E3).
  unfold stored. rewrite E1, E2, E3. reflexivity.
Qed.

(** X6.  The values [pixel_setRGB] stores: red lies in 170..255, green and
    blue in 128..255; the off value 255 is stored
    exactly for red intensities up to 48 and green or blue intensities up
    to 40 (so a blue intensity of 40 or less never engages the pump); the
    brightest value is stored exactly for the intensity 255; and the gamma
    table never raises an intensity. *)
Theorem X6_stored_value_ranges (m : machine) (p r g b : Z) :
  wf_store m -> 0 <= p < PIXEL_COUNT ->
  is_byte r -> is_byte g -> is_byte b ->
  exists m' x y z,
    pixel_setRGB p r g b m = Some (tt, m', []) /\
    stored m' p = Some (x, y, z) /\
    170 <= x <= 255 /\ 128 <= y <= 255 /\ 128 <= z <= 255 /\
    (x = 255 <-> r <= 48) /\ (y = 255 <-> g <= 40) /\ (z = 255 <-> b <= 40) /\
    (x = 170 <-> r = 255) /\ (y = 128 <-> g = 255) /\ (z = 128 <-> b = 255) /\
    gamma r <= r /\ gamma g <= g /\ gamma b <= b.
Proof.
  intros Hwf Hp Hr Hg Hb.
  destruct (stored_after_setRGB m p r g b Hwf Hp Hr Hg Hb)
    as (m' & Hrun & Hst & _).
  exists m', (255 - gamma r ÷ 3), (255 - gamma g ÷ 2), (255 - gamma b ÷ 2).
  split; [exact Hrun|]. split; [exact Hst|].
  destruct (raw_facts_spec r Hr) as (? & _ & _ & ? & _ & _ & ? & _ & _ & ?).
  destruct (raw_facts_spec g Hg) as (_ & ? & _ & _ & ? & _ & _ & ? & _ & ?).
  destruct (raw_facts_spec b Hb) as (_ & _ & ? & _ & _ & ? & _ & _ & ? & ?).
  auto 20.
Qed.

Lemma X6_witness :
  exists m' x y z,
    pixel_setRGB 4 48 41 40 booted = Some (tt, m', []) /\
    stored m' 4 = Some (x, y, z) /\
    x = 255 /\ y <> 255 /\ z = 255.
Proof.
  assert (0 <= 4 < PIXEL_COUNT) as Hp by (unfold PIXEL_COUNT; lia).
  assert (is_byte 48 /\ is_byte 41 /\ is_byte 40) as (H1 & H2 & H3)
    by (unfold is_byte; lia).
  destruct (X6_stored_value_ranges booted 4 48 41 40 (proj1 booted_wf)
              Hp H1 H2 H3)
    as (m' & x & y & z & Hrun & Hst & _ & _ & _ & Ex & Ey & Ez & _).
  exists m', x, y, z.
  split; [exact Hrun|]. split; [exact Hst|].
  split; [apply Ex; lia|]. split; [rewrite Ey; lia | apply Ez; lia].
Defined.

(** ** How the setters compose *)

Lemma setRGB_keeps_wf (m : machine) (p r g b : Z) :
  wf_store m -> 0 <= p < PIXEL_COUNT ->
  is_byte r -> is_byte g -> is_byte b ->
  wf_store
    (mkMachine (<[Z.to_nat p := 255 - gamma r ÷ 3]> (rawValueR m))
               (<[Z.to_nat p := 255 - gamma g ÷ 2]> (rawValueG m))
               (<[Z.to_nat p := 255 - gamma b ÷ 2]> (rawValueB m))
               (currentPixel m) (phase m) (hw m)).
Proof.
  intros Hwf Hp Hr Hg Hb.
  pose proof (setRGB_spec m p r g b Hwf Hp Hr Hg Hb) as Hrun.
  apply (setRGB_wf _ _ _ _ _ _ _ Hwf Hrun).
Qed.

(** X7.  Two calls of [pixel_setRGB] in a row: on the same pixel the second
    colour replaces the first (no blend), whatever either colour is; on
    two different pixels the order of the calls does not matter. *)
Theorem X7_setRGB_overwrites_and_commutes
        (m : machine) (p q r1 g1 b1 r2 g2 b2 : Z) :
  wf_store m -> 0 <= p < PIXEL_COUNT -> 0 <= q < PIXEL_COUNT ->
  is_byte r1 -> is_byte g1 -> is_byte b1 ->
  is_byte r2 -> is_byte g2 -> is_byte b2 ->
  (exists m',
      exec (pixel_setRGB p r1 g1 b1;; pixel_setRGB p r2 g2 b2) m = Some m' /\
      exec (pixel_setRGB p r2 g2 b2) m = Some m') /\
  (p <> q ->
   exists m',
     exec (pixel_setRGB p r1 g1 b1;; pixel_setRGB q r2 g2 b2) m = Some m' /\
     exec (pixel_setRGB q r2 g2 b2;; pixel_setRGB p r1 g1 b1) m = Some m').
Proof.
  intros Hwf Hp Hq Hr1 Hg1 Hb1 Hr2 Hg2 Hb2.
  pose proof (setRGB_keeps_wf m p r1 g1 b1 Hwf Hp Hr1 Hg1 Hb1) as Hwf1.
  pose proof (setRGB_keeps_wf m q r2 g2 b2 Hwf Hq Hr2 Hg2 Hb2) as Hwf2.
  split.
  - eexists. unfold exec, bind.
    rewrite (setRGB_spec m p r1 g1 b1) by assumption.
    rewrite setRGB_spec by assumption.
    rewrite (setRGB_spec m p r2 g2 b2) by assumption.
    cbn [rawValueR rawValueG rawValueB currentPixel phase hw].
    rewrite !list_insert_insert_eq. split; reflexivity.
  - intros Hne. eexists. unfold exec, bind.
    rewrite (setRGB_spec m p r1 g1 b1) by assumption.
    rewrite setRGB_spec by assumption.
    rewrite (setRGB_spec m q r2 g2 b2) by assumption.
    rewrite setRGB_spec by assumption.
    cbn [rawValueR rawValueG rawValueB currentPixel phase hw].
    rewrite !(list_insert_insert_ne _ (Z.to_nat p) (Z.to_nat q)) by lia.
    split; reflexivity.
Qed.

Lemma X7_witness :
  (exists m',
      exec (pixel_setRGB 0 255 0 0;; pixel_setRGB 0 0 0 0) booted = Some m' /\
      exec (pixel_setRGB 0 0 0 0) booted = Some m') /\
  (exists m',
      exec (pixel_setRGB 0 255 0 0;; pixel_setRGB 5 0 0 255) booted
        = Some m' /\
      exec (pixel_setRGB 5 0 0 255;; pixel_setRGB 0 255 0 0) booted
        = Some m').
Proof.
  assert (0 <= 0 < PIXEL_COUNT /\ 0 <= 5 < PIXEL_COUNT) as [H0 H5]
    by (unfold PIXEL_COUNT; lia).
  assert (is_byte 0 /\ is_byte 255) as [B0 B255] by (unfold is_byte; lia).
  destruct (X7_setRGB_overwrites_and_commutes booted 0 0 255 0 0 0 0 0
              (proj1 booted_wf) H0 H0 B255 B0 B0 B0 B0 B0) as [Hover _].
  destruct (X7_setRGB_overwrites_and_commutes booted 0 5 255 0 0 0 0 255
              (proj1 booted_wf) H0 H5 B255 B0 B0 B0 B0 B255) as [_ Hcomm].
  split; [exact Hover | apply Hcomm; discriminate].
Defined.

Lemma stored_repeat (x y z : Z) (cur ph : Z) (h : hardware) (q : Z) :
  0 <= q < PIXEL_COUNT ->
  stored (mkMachine (repeat x 6) (repeat y 6) (repeat z 6) cur ph h) q
    = Some (x, y, z).
Proof.
  unfold PIXEL_COUNT. intros Hq.
  assert (q = 0 \/ q = 1 \/ q = 2 \/ q = 3 \/ q = 4 \/ q = 5)
    as [-> | [-> | [-> | [-> | [-> | ->]]]]] by lia; reflexivity.
Qed.

Lemma insert_repeat_same (v : Z) (i : nat) :
  <[i := v]> (repeat v 6) = repeat v 6.
Proof. do 6 (destruct i as [|i]; [reflexivity|]). reflexivity. Qed.

Lemma wf_repeat (x y z : Z) (cur ph : Z) (h : hardware) :
  is_byte x -> is_byte y -> is_byte z ->
  wf_store (mkMachine (repeat x 6) (repeat y 6) (repeat z 6) cur ph h).
Proof.
  intros Hx Hy Hz.
  assert (forall v, is_byte v -> wf_array (repeat v 6)) as H.
  { intros v Hv. split; [reflexivity|].
    repeat (constructor; [exact Hv|]). constructor. }
  repeat split; apply H; assumption.
Qed.

(** X8.  [pixel_SetAllRGB] gives every pixel the raw values that
    [pixel_setRGB] would give it, touches neither the sequencer nor the
    hardware, and wipes what was set before: run after an earlier
    [pixel_setRGB] or [pixel_SetAllRGB] it leaves the machine it leaves
    when run alone. *)
Theorem X8_SetAllRGB_uniform_and_absorbing
        (m : machine) (p r0 g0 b0 r g b : Z) :
  wf_store m -> 0 <= p < PIXEL_COUNT ->
  is_byte r0 -> is_byte g0 -> is_byte b0 ->
  is_byte r -> is_byte g -> is_byte b ->
  exists m',
    pixel_SetAllRGB r g b m = Some (tt, m', []) /\
    (forall q, 0 <= q < PIXEL_COUNT -> stored m' q = Some (raw_of r g b)) /\
    currentPixel m' = currentPixel m /\ phase m' = phase m /\
    hw m' = hw m /\
    exec (pixel_setRGB p r0 g0 b0;; pixel_SetAllRGB r g b) m = Some m' /\
    exec (pixel_SetAllRGB r0 g0 b0;; pixel_SetAllRGB r g b) m = Some m' /\
    exec (pixel_SetAllRGB r g b;; pixel_setRGB p r g b) m = Some m'.
Proof.
  intros Hwf Hp Hr0 Hg0 Hb0 Hr Hg Hb.
  pose proof (raw_value_fits r 3 Hr ltac:(lia)) as [_ HvR].
  pose proof (raw_value_fits g 2 Hg ltac:(lia)) as [_ HvG].
  pose proof (raw_value_fits b 2 Hb ltac:(lia)) as [_ HvB].
  pose proof (raw_value_fits r0 3 Hr0 ltac:(lia)) as [_ HvR0].
  pose proof (raw_value_fits g0 2 Hg0 ltac:(lia)) as [_ HvG0].
  pose proof (raw_value_fits b0 2 Hb0 ltac:(lia)) as [_ HvB0].
  eexists. split; [apply SetAllRGB_spec; assumption|].
  split; [intros q Hq; apply stored_repeat; exact Hq|].
  do 3 (split; [reflexivity|]).
  unfold exec, bind. split; [|split].
  - rewrite (setRGB_spec m p r0 g0 b0) by assumption.
    rewrite SetAllRGB_spec;
      [reflexivity | apply setRGB_keeps_wf; assumption | assumption..].
  - rewrite (SetAllRGB_spec m r0 g0 b0) by assumption.
    rewrite SetAllRGB_spec;
      [reflexivity | apply wf_repeat; unfold is_byte; lia | assumption..].
  - rewrite (SetAllRGB_spec m r g b) by assumption.
    rewrite setRGB_spec;
      [| apply wf_repeat; unfold is_byte; lia | assumption..].
    cbn [rawValueR rawValueG rawValueB currentPixel phase hw].
    rewrite !insert_repeat_same. reflexivity.
Qed.

Lemma X8_witness :
  exists m',
    pixel_SetAllRGB 0 0 0 booted = Some (tt, m', []) /\
    (forall q, 0 <= q < PIXEL_COUNT -> stored m' q = Some (255, 255, 255)) /\
    exec (pixel_setRGB 3 255 255 255;; pixel_SetAllRGB 0 0 0) booted
      = Some m'.
Proof.
  assert (0 <= 3 < PIXEL_COUNT) as Hp by (unfold PIXEL_COUNT; lia).
  assert (is_byte 0 /\ is_byte 255) as [B0 B255] by (unfold is_byte; lia).
  destruct (X8_SetAllRGB_uniform_and_absorbing booted 3 255 255 255 0 0 0
              (proj1 booted_wf) Hp B255 B255 B255 B0 B0 B0)
    as (m' & Hrun & Hst & _ & _ & _ & Habs & _).
  exists m'. split; [exact Hrun|]. split; [exact Hst | exact Habs].
Defined.

(** ** The sequencer and the lifecycle *)

Lemma foreground_no_callback (m m' : machine) (o : op) (tr : list event) :
  wf_store m -> o <> OpIsr -> run_op o m = Some (tt, m', tr) ->
  frame_callbacks tr = O.
Proof.
  intros Hwf Hne Hrun.
  destruct (foreground_effect _ _ _ _ Hwf Hne Hrun)
    as (_ & _ & _ & [-> | [-> | [-> | ->]]]); reflexivity.
Qed.

Lemma isr_count_cons (o : op) (l : list op) :
  Z.of_nat (isr_count (o :: l)) =
  (if op_is_isr o then 1 else 0) + Z.of_nat (isr_count l).
Proof. destruct o; cbn [isr_count op_is_isr]; lia. Qed.

(** Whatever calls are mixed with the interrupts, the place along the round
    robin moves on by the number of interrupts, and the callback runs once
    for each pixel cycle completed. *)
Lemma run_ops_offset (l : list op) :
  forall (j : Z) (m m' : machine) (tr : list event),
    0 <= j -> wf_store m -> at_offset j m ->
    run_ops l m = Some (tt, m', tr) ->
    wf_store m' /\ at_offset (j + Z.of_nat (isr_count l)) m' /\
    Z.of_nat (frame_callbacks tr) = (j + Z.of_nat (isr_count l)) / 5 - j / 5.
Proof.
  induction l as [|o l IH]; intros j m m' tr Hj Hwf Hoff Hrun.
  - cbn in Hrun. injection Hrun as <- <-. cbn.
    rewrite Z.add_0_r. split; [exact Hwf|]. split; [exact Hoff | lia].
  - cbn [run_ops] in Hrun. unfold bind in Hrun.
    destruct (run_op o m) as [[[[] m1] t1]|] eqn:E1; [|discriminate].
    destruct (run_ops l m1) as [[[[] m2] t2]|] eqn:E2; [|discriminate].
    injection Hrun as <- <-.
    pose proof (at_offset_ok j m Hj Hoff) as Hseq.
    rewrite frame_callbacks_app, Nat2Z.inj_add, isr_count_cons.
    destruct (op_eq_dec_isr o) as [-> | Hne].
    + rewrite (proj1 (proj2 run_op_eqs)) in E1.
      destruct (isr_offset j m Hj Hwf Hoff)
        as (m1' & t1' & Hrun1 & Hwf1 & Hoff1 & _).
      destruct (isr_step m Hwf Hseq)
        as (m1'' & t1'' & Hrun1' & _ & _ & _ & _ & _ & _ & Hcb).
      rewrite E1 in Hrun1, Hrun1'.
      injection Hrun1 as <- <-. injection Hrun1' as _ <-.
      destruct (IH (j + 1) m1 m2 t2 ltac:(lia) Hwf1 Hoff1 E2)
        as (Hwf2 & Hoff2 & Hcb2).
      cbn [op_is_isr].
      replace (j + (1 + Z.of_nat (isr_count l)))
        with (j + 1 + Z.of_nat (isr_count l)) by lia.
      split; [exact Hwf2|]. split; [exact Hoff2|].
      rewrite Hcb2, Hcb. destruct Hoff as [-> _].
      destruct (Z.eqb_spec (j mod 5) 4) as [E | E];
        Z.to_euclidean_division_equations; lia.
    + destruct (foreground_effect _ _ _ _ Hwf Hne E1) as (Hc & Hp & _).
      destruct (op_keeps_wf _ _ _ _ Hwf Hseq E1) as [Hwf1 _].
      rewrite (foreground_no_callback _ _ _ _ Hwf Hne E1).
      assert (at_offset j m1) as Hoff1.
      { unfold at_offset. rewrite Hc, Hp. exact Hoff. }
      destruct (IH j m1 m2 t2 Hj Hwf1 Hoff1 E2) as (Hwf2 & Hoff2 & Hcb2).
      replace (op_is_isr o) with false by (destruct o; try reflexivity; contradiction).
      rewrite Z.add_0_l.
      split; [exact Hwf2|]. split; [exact Hoff2|]. rewrite Hcb2. cbn. lia.
Qed.

(** X9.  Only the interrupts move the sequencer: from pixel 0 and phase 0,
    after any sequence of calls and interrupts, the phase and the pixel
    are those the number of interrupts alone determines, and the callback
    has run once per five interrupts.  [pixel_enable], [pixel_disable],
    [pixel_init] and the setters do not reset or move it: after a
    disable/enable cycle the handler picks up where it left off. *)
Theorem X9_sequencer_counts_interrupts (l : list op) (m m' : machine)
        (tr : list event) :
  wf_store m -> currentPixel m = 0 -> phase m = 0 ->
  run_ops l m = Some (tt, m', tr) ->
  phase m' = Z.of_nat (isr_count l) mod 5 /\
  currentPixel m' = ((Z.of_nat (isr_count l) + 4) / 5) mod PIXEL_COUNT /\
  Z.of_nat (frame_callbacks tr) = Z.of_nat (isr_count l) / 5.
Proof.
  intros Hwf Hcur Hph Hrun.
  destruct (run_ops_offset l 0 m m' tr ltac:(lia) Hwf) as (_ & [H1 H2] & H3).
  { split; [rewrite Hph | rewrite Hcur]; reflexivity. }
  { exact Hrun. }
  rewrite Z.add_0_l in H1, H2, H3. change (0 / 5) with 0 in H3.
  split; [exact H1|]. split; [exact H2 | lia].
Qed.

Lemma X9_witness :
  let l := [OpInit; OpEnable; OpIsr; OpIsr; OpIsr; OpDisable;
            OpSetAllRGB 9 9 9; OpEnable; OpIsr; OpIsr; OpIsr; OpIsr] in
  let m' := default reset (exec (run_ops l) reset) in
  phase m' = 2 /\ currentPixel m' = 2 /\
  frame_callbacks (events (run_ops l) reset) = 1%nat.
Proof.
  intros l m'.
  assert (run_ops l reset = Some (tt, m', events (run_ops l) reset)) as E
    by (vm_compute; reflexivity).
  destruct (X9_sequencer_counts_interrupts l reset m' _ (proj1 reset_wf)
              eq_refl eq_refl E) as (H1 & H2 & H3).
  split; [exact H1|]. split; [exact H2|].
  apply Nat2Z.inj. exact H3.
Defined.

(** ** Red and green compare values, the lifecycle, the edge of the
       sequencer *)

(** X4.  The red and green compare registers follow the blue one: the
    handler that finds phase 2 arms OCR0A with the stored red value of the
    current pixel, the handler of phase 3 sets it back to 255 and arms
    OCR0B with the stored green value, the handler of phase 4 sets OCR0B
    back to 255; the handlers of phases 0 and 1 write neither. *)
Theorem X4_red_green_compare_schedule (m : machine) (red green : Z) :
  wf_store m -> sequencer_ok m ->
  read_at (rawValueR m) (currentPixel m) = Some red ->
  read_at (rawValueG m) (currentPixel m) = Some green ->
  exists m' tr,
    pixel_isr m = Some (tt, m', tr) /\
    (phase m = 2 ->
     r_OCR0A (REGS (hw m')) = red /\
     r_OCR0B (REGS (hw m')) = r_OCR0B (REGS (hw m))) /\
    (phase m = 3 ->
     r_OCR0A (REGS (hw m')) = 255 /\ r_OCR0B (REGS (hw m')) = green) /\
    (phase m = 4 ->
     r_OCR0A (REGS (hw m')) = r_OCR0A (REGS (hw m)) /\
     r_OCR0B (REGS (hw m')) = 255) /\
    (phase m = 0 \/ phase m = 1 ->
     r_OCR0A (REGS (hw m')) = r_OCR0A (REGS (hw m)) /\
     r_OCR0B (REGS (hw m')) = r_OCR0B (REGS (hw m))).
Proof.
  intros Hwf Hseq Hred Hgreen.
  destruct (isr_step m Hwf Hseq)
    as (m' & tr & Hrun & _ & _ & _ & _ & _ & Hlog & _).
  exists m', tr. split; [exact Hrun|].
  assert (is_byte red /\ is_byte green) as [Bred Bgreen].
  { destruct Hwf as (HR & HG & _). destruct Hseq as [Hcur _].
    destruct (read_at_wf _ _ HR Hcur) as (x & Hx & Bx).
    destruct (read_at_wf _ _ HG Hcur) as (y & Hy & By).
    split; congruence. }
  rewrite Hlog.
  destruct (isr_log _ _ _ Hwf Hseq Hrun)
    as [(H & b0 & _ & ->) | [(H & b1 & a & _ & _ & _ & ->) |
        [(H & x & Hx & ->) | [(H & y & Hy & ->) | [H ->]]]]];
    destruct (hw m) as [[p1 p2 p3 p4 p5 p6 lr lg lb k] D
                        [a0 b0' c0 d0 e0 f0 g0 h0 i0 j0]];
    (split; [intros E; try lia | split; [intros E; try lia |
      split; [intros E; try lia | intros E; try lia]]]).
  - destruct (b0 =? 255); split; reflexivity.
  - destruct a; split; reflexivity.
  - assert (x = red) as -> by congruence.
    rewrite (u8_small red Bred). split; reflexivity.
  - assert (y = green) as -> by congruence.
    rewrite (u8_small green Bgreen). split; reflexivity.
  - split; reflexivity.
Qed.

Lemma X4_witness :
  let m := after [OpInit; OpEnable; OpSetRGB 1 255 255 0; OpIsr; OpIsr] in
  (phase m = 2 /\ read_at (rawValueR m) (currentPixel m) = Some 170) /\
  exists m' tr,
    pixel_isr m = Some (tt, m', tr) /\ r_OCR0A (REGS (hw m')) = 170.
Proof.
  intros m.
  assert (reachable m) as Hreach
    by (apply reachable_after; vm_compute; discriminate).
  destruct (reachable_inv m Hreach) as (Hwf & Hseq & _).
  assert (phase m = 2) as Hph by (vm_compute; reflexivity).
  assert (read_at (rawValueR m) (currentPixel m) = Some 170) as Hr
    by (vm_compute; reflexivity).
  assert (read_at (rawValueG m) (currentPixel m) = Some 128) as Hg
    by (vm_compute; reflexivity).
  split; [auto|].
  destruct (X4_red_green_compare_schedule m 170 128 Hwf Hseq Hr Hg)
    as (m' & tr & Hrun & H2 & _).
  exists m', tr. split; [exact Hrun | apply (H2 Hph)].
Defined.



(** X11.  A disable/enable cycle against [pixel_enable] alone: both leave
    the same colour store (all off), the same sequencer variables, the same
    registers and directions; the cycle in addition leaves every anode low
    and the sink high.  In particular neither resets the phase or the
    pixel. *)
Theorem X11_disable_enable_is_enable_with_anodes_off (m : machine) :
  wf_store m ->
  exists m1 m2,
    exec pixel_enable m = Some m1 /\
    exec (pixel_disable;; pixel_enable) m = Some m2 /\
    rawValueR m2 = rawValueR m1 /\ rawValueG m2 = rawValueG m1 /\
    rawValueB m2 = rawValueB m1 /\
    currentPixel m2 = currentPixel m /\ currentPixel m1 = currentPixel m /\
    phase m2 = phase m /\ phase m1 = phase m /\
    REGS (hw m2) = REGS (hw m1) /\ DDR (hw m2) = DDR (hw m1) /\
    PORT (hw m1) = PORT (hw m) /\
    PORT (hw m2) = ports_off (PORT (hw m)).
Proof.
  intros Hwf. unfold exec, bind.
  rewrite (pixel_enable_spec m Hwf).
  destruct (pixel_disable_spec m) as [-> _].
  rewrite pixel_enable_spec by exact Hwf.
  do 2 eexists. split; [reflexivity|]. split; [reflexivity|].
  cbn [rawValueR rawValueG rawValueB currentPixel phase hw PORT DDR REGS].
  destruct (hw m) as [P D [a b c d e f g h i j]].
  repeat split; reflexivity.
Qed.

Lemma X11_witness :
  let m := after [OpInit; OpEnable; OpSetRGB 1 0 0 255; OpIsr; OpIsr] in
  wf_store m /\
  exists m2,
    exec (pixel_disable;; pixel_enable) m = Some m2 /\
    phase m2 = 2 /\ currentPixel m2 = 1 /\ anodes_high (hw m2) = O.
Proof.
  intros m.
  assert (reachable m) as Hreach
    by (apply reachable_after; vm_compute; discriminate).
  destruct (reachable_inv m Hreach) as (Hwf & _).
  split; [exact Hwf|].
  destruct (X11_disable_enable_is_enable_with_anodes_off m Hwf)
    as (m1 & m2 & _ & E2 & _ & _ & _ & Hc & _ & Hp & _ & _ & _ & _ & HP).
  exists m2. split; [exact E2|].
  split; [rewrite Hp; vm_compute; reflexivity|].
  split; [rewrite Hc; vm_compute; reflexivity|].
  unfold anodes_high, anode_bits. rewrite HP. reflexivity.
Defined.

(** ** The earlier revision *)

Lemma rev0_step_pixel (x : Z) :
  0 <= x < PIXEL_COUNT ->
  Rev0.step_pixel x = (x + 1) mod PIXEL_COUNT /\
  0 <= Rev0.step_pixel x < PIXEL_COUNT.
Proof.
  unfold Rev0.step_pixel, PIXEL_COUNT, u8. intros Hx.
  rewrite (Z.mod_small (x + 1) 256) by lia.
  destruct (Z.eqb_spec (x + 1) 6) as [E | E].
  - rewrite E. split; [reflexivity | lia].
  - rewrite Z.mod_small by lia. lia.
Qed.

Lemma rev0_anode_events (cur : Z) (a : pin) :
  anode_line cur = Some a ->
  Rev0.activateAnode cur = [EvPort a true] /\
  Rev0.deactivateAnode cur = [EvPort a false].
Proof.
  unfold anode_line, Rev0.activateAnode, Rev0.deactivateAnode.
  destruct cur as [|q|q]; try discriminate;
    repeat (destruct q as [q|q|]; try discriminate);
    intros [= <-]; split; reflexivity.
Qed.

(** The handler in closed form. *)
Lemma rev0_isr_spec (m : Rev0.machine) :
  Rev0.wf_store m -> 0 <= Rev0.previousPixel m < PIXEL_COUNT ->
  let cur := Rev0.step_pixel (Rev0.previousPixel m) in
  let nxt := Rev0.step_pixel cur in
  exists a0 a blue r g b,
    anode_line (Rev0.previousPixel m) = Some a0 /\ is_anode a0 = true /\
    anode_line cur = Some a /\ is_anode a = true /\
    read_at (Rev0.rawValueB m) cur = Some blue /\
    read_at (Rev0.rawValueR m) nxt = Some r /\
    read_at (Rev0.rawValueG m) nxt = Some g /\
    read_at (Rev0.rawValueB m) nxt = Some b /\
    let tr := [EvPort a0 false; EvPort BLUE_SINK true] ++
              (if blue =? 255 then [] else [EvPort BLUE_SINK false]) ++
              [EvPort a true; EvReg OCR0A r; EvReg OCR0B g; EvReg OCR2B b] in
    Rev0.pixel_isr m =
      Some (Rev0.mkMachine (Rev0.rawValueR m) (Rev0.rawValueG m)
                           (Rev0.rawValueB m) cur
                           (fold_left hw_step tr (Rev0.hw m)),
            tr).
Proof.
  intros (HR & HG & HB) Hprev cur nxt.
  destruct (rev0_step_pixel _ Hprev) as [_ Hcur]. fold cur in Hcur.
  destruct (rev0_step_pixel _ Hcur) as [_ Hnxt]. fold nxt in Hnxt.
  destruct (anode_line_range _ Hprev) as (a0 & Ha0 & Han0).
  destruct (anode_line_range _ Hcur) as (a & Ha & Han).
  destruct (read_at_wf _ _ HB Hcur) as (blue & Hblue & _).
  destruct (read_at_wf _ _ HR Hnxt) as (r & Hr & Br).
  destruct (read_at_wf _ _ HG Hnxt) as (g & Hg & Bg).
  destruct (read_at_wf _ _ HB Hnxt) as (b & Hb & Bb).
  exists a0, a, blue, r, g, b.
  do 8 (split; [assumption|]).
  unfold Rev0.pixel_isr. fold cur. rewrite Hblue. fold nxt.
  rewrite Hr, Hg, Hb.
  rewrite (proj2 (rev0_anode_events _ _ Ha0)).
  rewrite (proj1 (rev0_anode_events _ _ Ha)).
  rewrite (u8_small r Br), (u8_small g Bg), (u8_small b Bb).
  destruct (blue =? 255); reflexivity.
Qed.

Lemma rev0_switch_bits (h : hardware) (prev cur : Z) (a0 a : pin)
      (mid tail : list event) :
  anode_line prev = Some a0 -> anode_line cur = Some a ->
  Forall anode_neutral mid -> Forall anode_neutral tail ->
  anode_bits h = repeat false 6 \/ anode_bits h = only_anode prev ->
  let tr := [EvPort a0 false] ++ mid ++ [EvPort a true] ++ tail in
  anode_bits (fold_left hw_step tr h) = only_anode cur /\
  Forall (fun h' => (anodes_high h' <= 1)%nat) (replay h tr).
Proof.
  intros Ha0 Ha Hmid Htail Hbits tr.
  set (h1 := hw_step h (EvPort a0 false)).
  assert (anode_bits h1 = repeat false 6) as E1.
  { unfold h1. destruct h as [[p1 p2 p3 p4 p5 p6 lr lg lb k] D rg].
    unfold anode_line in Ha0.
    destruct prev as [|q|q]; try discriminate Ha0;
      repeat (destruct q as [q|q|]; try discriminate Ha0);
      injection Ha0 as <-;
      destruct Hbits as [Hb | Hb]; injection Hb as -> -> -> -> -> ->;
      reflexivity. }
  destruct (anode_neutral_bits mid h1 Hmid) as [E2 E2'].
  set (h2 := fold_left hw_step mid h1) in *.
  rewrite E1 in E2, E2'.
  destruct (anode_raised_bits h2 cur a 0 Ha E2) as [E3 _].
  set (h3 := hw_step h2 (EvPort a true)).
  assert (anode_bits h3 = only_anode cur) as E3'.
  { cbv zeta in E3. cbn [fold_left] in E3.
    destruct (anode_neutral_bits [EvReg OCR2B 0]
                (hw_step (hw_step (hw_step h2 EvSei)
                                  (EvPort BLUE_SINK true)) (EvPort a true))
                ltac:(repeat constructor)) as [E _].
    cbn [fold_left] in E. rewrite E in E3.
    unfold h3. clear - E3 Ha.
    destruct h2 as [[p1 p2 p3 p4 p5 p6 lr lg lb k] D rg].
    destruct a; exact E3. }
  destruct (anode_neutral_bits tail h3 Htail) as [E4 E4'].
  rewrite E3' in E4, E4'.
  assert (0 <= cur < PIXEL_COUNT) as Hcur.
  { unfold anode_line, PIXEL_COUNT in *.
    destruct cur as [|q|q]; try discriminate Ha;
      repeat (destruct q as [q|q|]; try discriminate Ha); lia. }
  assert (forall h', anode_bits h' = repeat false 6 ->
                     (anodes_high h' <= 1)%nat) as Hz.
  { intros h' E. unfold anodes_high. rewrite E. cbn. lia. }
  assert (forall h', anode_bits h' = only_anode cur ->
                     (anodes_high h' <= 1)%nat) as Ho.
  { intros h' E. rewrite (only_anode_high cur h' Hcur E). lia. }
  unfold tr. split.
  - cbn [app fold_left]. fold h1. rewrite fold_left_app. fold h2.
    cbn [app fold_left]. fold h3. exact E4.
  - cbn [app replay]. fold h1. constructor; [apply Hz, E1|].
    assert (forall l1 l2 h0,
               replay h0 (l1 ++ l2) =
               replay h0 l1 ++ replay (fold_left hw_step l1 h0) l2) as Hsplit.
    { clear. induction l1 as [|e l1 IH]; intros l2 h0; cbn; [reflexivity|].
      rewrite IH. reflexivity. }
    rewrite Hsplit. fold h2. apply Forall_app. split.
    + eapply Forall_impl; [exact E2'|]. intros h' E. apply Hz, E.
    + cbn [replay]. fold h3. constructor; [apply Ho, E3'|].
      eapply Forall_impl; [exact E4'|]. intros h' E. apply Ho, E.
Qed.

(** X12.  The handler of the earlier revision switches from the previous
    pixel to the next one in round-robin order: when no anode or only the
    anode of the previous pixel is high, one invocation lowers it and
    raises the anode of pixel (previous + 1) mod 6, which becomes the
    previous pixel; at no instant are two anodes high, and the colour
    store is not written. *)
Theorem X12_rev0_isr_round_robin (m : Rev0.machine) :
  Rev0.wf_store m -> 0 <= Rev0.previousPixel m < PIXEL_COUNT ->
  anode_bits (Rev0.hw m) = repeat false 6 \/
  anode_bits (Rev0.hw m) = only_anode (Rev0.previousPixel m) ->
  exists m' tr,
    Rev0.pixel_isr m = Some (m', tr) /\
    Rev0.previousPixel m' = (Rev0.previousPixel m + 1) mod PIXEL_COUNT /\
    anode_bits (Rev0.hw m') = only_anode (Rev0.previousPixel m') /\
    Forall (fun h' => (anodes_high h' <= 1)%nat) (replay (Rev0.hw m) tr) /\
    Rev0.rawValueR m' = Rev0.rawValueR m /\
    Rev0.rawValueG m' = Rev0.rawValueG m /\
    Rev0.rawValueB m' = Rev0.rawValueB m.
Proof.
  intros Hwf Hprev Hbits.
  destruct (rev0_isr_spec m Hwf Hprev)
    as (a0 & a & blue & r & g & b & Ha0 & _ & Ha & _ & _ & _ & _ & _ & Hrun).
  cbv zeta in Hrun.
  do 2 eexists. split; [exact Hrun|].
  cbn [Rev0.previousPixel Rev0.hw Rev0.rawValueR Rev0.rawValueG
       Rev0.rawValueB].
  split; [apply rev0_step_pixel, Hprev|].
  destruct (rev0_switch_bits (Rev0.hw m) (Rev0.previousPixel m)
              (Rev0.step_pixel (Rev0.previousPixel m)) a0 a
              (EvPort BLUE_SINK true ::
               (if blue =? 255 then [] else [EvPort BLUE_SINK false]))
              [EvReg OCR0A r; EvReg OCR0B g; EvReg OCR2B b]
              Ha0 Ha) as [E1 E2];
    [destruct (blue =? 255); repeat constructor | repeat constructor
    |exact Hbits|].
  cbv zeta in E1, E2. cbn [app] in E1, E2 |- *.
  split; [exact E1|]. split; [exact E2|]. auto.
Qed.

Lemma rev0_start_wf :
  Rev0.wf_store rev0_start /\ 0 <= Rev0.previousPixel rev0_start < PIXEL_COUNT.
Proof.
  assert (wf_array (repeat 255 6)) as H.
  { split; [reflexivity|]. repeat (constructor; [unfold is_byte; lia|]).
    constructor. }
  split; [repeat split; apply H | unfold PIXEL_COUNT; cbn; lia].
Qed.

Lemma X12_witness :
  exists m' tr,
    Rev0.pixel_isr rev0_start = Some (m', tr) /\
    Rev0.previousPixel m' = 1 /\
    anode_bits (Rev0.hw m') = only_anode 1.
Proof.
  destruct rev0_start_wf as [Hwf Hprev].
  destruct (X12_rev0_isr_round_robin rev0_start Hwf Hprev (or_introl eq_refl))
    as (m' & tr & Hrun & Hp & Hbits & _).
  exists m', tr. split; [exact Hrun|].
  split; [exact Hp | rewrite Hbits, Hp; reflexivity].
Defined.

Lemma compare_regs_after (pre : list event) (h : hardware) (r g b : Z) :
  let h' := fold_left hw_step
              (pre ++ [EvReg OCR0A r; EvReg OCR0B g; EvReg OCR2B b]) h in
  r_OCR0A (REGS h') = r /\ r_OCR0B (REGS h') = g /\ r_OCR2B (REGS h') = b.
Proof.
  cbv zeta. rewrite fold_left_app.
  destruct (fold_left hw_step pre h) as [P D [a0 b0 c0 d0 e0 f0 g0 h0 i0 j0]].
  repeat split; reflexivity.
Qed.

(** X13.  The earlier revision keeps the compare values one pixel ahead:
    the values an interrupt loads into OCR0A, OCR0B and OCR2B are the
    stored red, green and blue of the pixel whose anode the following
    interrupt raises. *)
Theorem X13_rev0_compare_values_one_pixel_ahead (m : Rev0.machine) :
  Rev0.wf_store m -> 0 <= Rev0.previousPixel m < PIXEL_COUNT ->
  exists m1 t1 m2 t2 a,
    Rev0.pixel_isr m = Some (m1, t1) /\
    Rev0.pixel_isr m1 = Some (m2, t2) /\
    anode_line (Rev0.previousPixel m2) = Some a /\ In (EvPort a true) t2 /\
    read_at (Rev0.rawValueR m) (Rev0.previousPixel m2)
      = Some (r_OCR0A (REGS (Rev0.hw m1))) /\
    read_at (Rev0.rawValueG m) (Rev0.previousPixel m2)
      = Some (r_OCR0B (REGS (Rev0.hw m1))) /\
    read_at (Rev0.rawValueB m) (Rev0.previousPixel m2)
      = Some (r_OCR2B (REGS (Rev0.hw m1))).
Proof.
  intros Hwf Hprev.
  destruct (rev0_isr_spec m Hwf Hprev)
    as (a0 & a & blue & r & g & b & _ & _ & _ & _ & _ & Hr & Hg & Hb & Hrun).
  cbv zeta in Hrun.
  destruct (Rev0.pixel_isr m) as [[m1 t1]|] eqn:E; [|discriminate Hrun].
  injection Hrun as Hm1 Ht1.
  assert (Rev0.wf_store m1) as Hwf1 by (rewrite Hm1; exact Hwf).
  assert (Rev0.previousPixel m1 = Rev0.step_pixel (Rev0.previousPixel m))
    as Hp1 by (rewrite Hm1; reflexivity).
  assert (0 <= Rev0.previousPixel m1 < PIXEL_COUNT) as Hprev1
    by (rewrite Hp1; apply rev0_step_pixel, Hprev).
  destruct (rev0_isr_spec m1 Hwf1 Hprev1)
    as (a1 & a' & blue' & r' & g' & b' & _ & _ & Ha' & _ & _ & _ & _ & _ &
        Hrun1).
  cbv zeta in Hrun1.
  exists m1, t1. do 2 eexists. exists a'.
  split; [reflexivity|]. split; [exact Hrun1|].
  cbn [Rev0.previousPixel]. rewrite Hp1.
  split; [rewrite <- Hp1; exact Ha'|].
  split; [destruct (blue' =? 255); cbn; auto 10|].
  rewrite Hm1. cbn [Rev0.hw].
  match goal with
  | |- context [fold_left hw_step
                  (?l ++ [EvPort a true; EvReg OCR0A r; EvReg OCR0B g;
                          EvReg OCR2B b]) ?h] =>
      destruct (compare_regs_after (l ++ [EvPort a true]) h r g b)
        as (E1 & E2 & E3)
  end.
  cbv zeta in E1, E2, E3. rewrite <- !app_assoc in E1, E2, E3.
  change ([EvPort a true] ++ [EvReg OCR0A r; EvReg OCR0B g; EvReg OCR2B b])
    with [EvPort a true; EvReg OCR0A r; EvReg OCR0B g; EvReg OCR2B b]
    in E1, E2, E3.
  rewrite E1, E2, E3. auto.
Qed.

Lemma X13_witness :
  exists m1 t1 m2 t2,
    Rev0.pixel_isr rev0_start = Some (m1, t1) /\
    Rev0.pixel_isr m1 = Some (m2, t2) /\
    read_at (Rev0.rawValueR rev0_start) (Rev0.previousPixel m2)
      = Some (r_OCR0A (REGS (Rev0.hw m1))).
Proof.
  destruct rev0_start_wf as [Hwf Hprev].
  destruct (X13_rev0_compare_values_one_pixel_ahead rev0_start Hwf Hprev)
    as (m1 & t1 & m2 & t2 & a & E1 & E2 & _ & _ & HR & _).
  exists m1, t1, m2, t2. auto.
Defined.

(** X14.  The hazard of the earlier revision: its handler raises the
    anode of the pixel in the same invocation that pulls the sink low, so
    after any invocation an anode is high, and the pump is charging at the
    same time exactly when the pixel has a stored blue other than 255.
    The rest phase of the later revision (C1) removes this. *)
Theorem X14_rev0_pump_charges_with_anode_active (m : Rev0.machine) :
  Rev0.wf_store m -> 0 <= Rev0.previousPixel m < PIXEL_COUNT ->
  exists m' tr blue,
    Rev0.pixel_isr m = Some (m', tr) /\
    read_at (Rev0.rawValueB m') (Rev0.previousPixel m') = Some blue /\
    any_anode (Rev0.hw m') = true /\
    charging (Rev0.hw m') = negb (blue =? 255) /\
    (safe (Rev0.hw m') <-> blue = 255).
Proof.
  intros Hwf Hprev.
  destruct (rev0_isr_spec m Hwf Hprev)
    as (a0 & a & blue & r & g & b & _ & Han0 & _ & Han & Hblue & _ & _ & _ &
        Hrun).
  cbv zeta in Hrun.
  do 2 eexists. exists blue. split; [exact Hrun|].
  cbn [Rev0.previousPixel Rev0.hw Rev0.rawValueB].
  split; [exact Hblue|].
  assert (any_anode
            (fold_left hw_step
               ([EvPort a0 false; EvPort BLUE_SINK true] ++
                (if blue =? 255 then [] else [EvPort BLUE_SINK false]) ++
                [EvPort a true; EvReg OCR0A r; EvReg OCR0B g; EvReg OCR2B b])
               (Rev0.hw m)) = true /\
          charging
            (fold_left hw_step
               ([EvPort a0 false; EvPort BLUE_SINK true] ++
                (if blue =? 255 then [] else [EvPort BLUE_SINK false]) ++
                [EvPort a true; EvReg OCR0A r; EvReg OCR0B g; EvReg OCR2B b])
               (Rev0.hw m)) = negb (blue =? 255)) as [E1 E2].
  { destruct (Rev0.hw m) as [[p1 p2 p3 p4 p5 p6 lr lg lb k] D rg].
    destruct (blue =? 255);
      destruct a0; try discriminate Han0;
      destruct a; try discriminate Han;
      unfold any_anode, charging; cbn;
      rewrite ?orb_true_r; split; reflexivity. }
  split; [exact E1|]. split; [exact E2|].
  unfold safe. rewrite E1, E2.
  destruct (Z.eqb_spec blue 255) as [E | E]; cbn; split; intros H;
    try discriminate; try contradiction; auto.
  discriminate (H eq_refl).
Qed.

Lemma X14_witness :
  let m := Rev0.mkMachine (repeat 255 6) (repeat 255 6) (repeat 128 6) 0
                          (Rev0.hw rev0_start) in
  exists m' tr,
    Rev0.pixel_isr m = Some (m', tr) /\
    any_anode (Rev0.hw m') = true /\ charging (Rev0.hw m') = true.
Proof.
  intros m.
  assert (Rev0.wf_store m) as Hwf.
  { assert (forall v, is_byte v -> wf_array (repeat v 6)) as H.
    { intros v Hv. split; [reflexivity|].
      repeat (constructor; [exact Hv|]). constructor. }
    repeat split; apply H; unfold is_byte; lia. }
  assert (0 <= Rev0.previousPixel m < PIXEL_COUNT) as Hprev
    by (unfold PIXEL_COUNT; cbn; lia).
  destruct (X14_rev0_pump_charges_with_anode_active m Hwf Hprev)
    as (m' & tr & blue & Hrun & Hblue & Han & Hch & _).
  exists m', tr. split; [exact Hrun|]. split; [exact Han|].
  rewrite Hch.
  assert (Rev0.rawValueB m' = repeat 128 6 /\ Rev0.previousPixel m' = 1)
    as [EB EP].
  { unfold Rev0.pixel_isr in Hrun. vm_compute in Hrun.
    injection Hrun as <- _. split; reflexivity. }
  rewrite EB, EP in Hblue. vm_compute in Hblue. injection Hblue as <-.
  reflexivity.
Defined.

(** X15.  The lifecycle of the earlier revision: [pixel_disable] lowers
    the anode of the previous pixel, so every anode is low when that one
    at most was high, and clears TCCR2B; [pixel_enable] after it sets
    TCCR2B to the divide-by-8 clock again.  Neither writes the colour
    store, the previous pixel, the sink or the Timer0 registers: the
    colours set before a disable/enable cycle are still there after it, and
    the Timer0 clock, whose overflow runs the handler, is not stopped. *)
Theorem X15_rev0_disable_enable (m : Rev0.machine) :
  0 <= Rev0.previousPixel m < PIXEL_COUNT ->
  anode_bits (Rev0.hw m) = repeat false 6 \/
  anode_bits (Rev0.hw m) = only_anode (Rev0.previousPixel m) ->
  let m1 := fst (Rev0.pixel_disable m) in
  let m2 := fst (Rev0.pixel_enable m1) in
  anode_bits (Rev0.hw m1) = repeat false 6 /\
  anode_bits (Rev0.hw m2) = repeat false 6 /\
  r_TCCR2B (REGS (Rev0.hw m1)) = 0 /\ r_TCCR2B (REGS (Rev0.hw m2)) = 2 /\
  Rev0.rawValueR m2 = Rev0.rawValueR m /\
  Rev0.rawValueG m2 = Rev0.rawValueG m /\
  Rev0.rawValueB m2 = Rev0.rawValueB m /\
  Rev0.previousPixel m2 = Rev0.previousPixel m /\
  r_TCCR0B (REGS (Rev0.hw m2)) = r_TCCR0B (REGS (Rev0.hw m)) /\
  r_TCCR0A (REGS (Rev0.hw m2)) = r_TCCR0A (REGS (Rev0.hw m)) /\
  r_TIMSK0 (REGS (Rev0.hw m2)) = r_TIMSK0 (REGS (Rev0.hw m)) /\
  b_BLUE_SINK (PORT (Rev0.hw m2)) = b_BLUE_SINK (PORT (Rev0.hw m)).
Proof.
  intros Hprev Hbits m1 m2.
  destruct (anode_line_range _ Hprev) as (a0 & Ha0 & Han0).
  unfold m2, m1, Rev0.pixel_enable, Rev0.pixel_disable.
  cbn [fst Rev0.hw Rev0.rawValueR Rev0.rawValueG Rev0.rawValueB
       Rev0.previousPixel].
  rewrite (proj2 (rev0_anode_events _ _ Ha0)).
  destruct (Rev0.hw m) as [[p1 p2 p3 p4 p5 p6 lr lg lb k] D
                           [a b c d e f g h i j]].
  unfold anode_line in Ha0.
  destruct (Rev0.previousPixel m) as [|q|q]; try discriminate Ha0;
    repeat (destruct q as [q|q|]; try discriminate Ha0);
    injection Ha0 as <-;
    destruct Hbits as [Hb | Hb]; injection Hb as -> -> -> -> -> ->;
    repeat split; reflexivity.
Qed.

Lemma X15_witness :
  let m1 := Rev0.mkMachine (repeat 255 6) (repeat 255 6) (repeat 128 6) 1
              (mkHw (mkPins false true false false false false
                            true true true false)
                    (mkPins true true true true true true true true true true)
                    (mkRegs 255 255 128 0 0 163 2 35 2 1)) in
  anode_bits (Rev0.hw m1) = only_anode (Rev0.previousPixel m1) /\
  anode_bits (Rev0.hw (fst (Rev0.pixel_disable m1))) = repeat false 6 /\
  Rev0.rawValueB (fst (Rev0.pixel_enable (fst (Rev0.pixel_disable m1))))
    = repeat 128 6.
Proof.
  intros m1.
  assert (anode_bits (Rev0.hw m1) = only_anode (Rev0.previousPixel m1))
    as Hbits by reflexivity.
  assert (0 <= Rev0.previousPixel m1 < PIXEL_COUNT) as Hprev1
    by (unfold PIXEL_COUNT; cbn; lia).
  destruct (X15_rev0_disable_enable m1 Hprev1 (or_intror Hbits))
    as (H1 & _ & _ & _ & _ & _ & HB & _).
  split; [exact Hbits|]. split; [exact H1 | exact HB].
Defined.
